(** * todo-flask: the task store of [todo.py]

    A shallow embedding of the storage layer and of the operations of
    [todo.py] (the module the Flask front end [app.py] and the command line
    share), and the properties of the design document proved about it.

    Conventions.
    - A Python [int] is a [Z]; a Python [str] is a Rocq [string] holding its
      UTF-8 bytes, so that [String.ltb] (bytewise lexicographic order) is
      Python's [<] on [str] (code point order). A str with a lone surrogate
      (which the command line can pass for an undecodable argument, and a
      JSON escape can spell) has no UTF-8 bytes and is no value of this
      type: on such a str [json.dump] raises UnicodeEncodeError inside
      [save_data], after the file was opened for writing. Every statement
      below is about strs that UTF-8 can encode.
    - The content of [todos.json] is a [file_state]: no file, bytes that
      are no UTF-8, text that is not JSON, or the JSON value it parses to.
    - Effects are explicit: an operation is a function from a [world] (the
      file, the number of clock readings taken so far, the number of writes
      of the file so far) to an [outcome]: a value or a Python exception,
      together with the world it leaves.
    - What Python's builtins do and this development does not compute
      ([int] of a [str], [repr] of a float and of the elements of a
      container, the clock) are variables of the section: every theorem
      holds whatever they are. *)

From Stdlib Require Import ZArith List String Ascii Bool Lia.
From Stdlib Require Import Sorted Permutation Floats DecimalString DecimalPos.
From Stdlib Require Import RelationClasses.
Import ListNotations.

Local Open Scope string_scope.
Local Open Scope list_scope.
Local Open Scope Z_scope.

#[local] Set Warnings "-register-all".

(** ** JSON values, as [json.load] returns them *)

Inductive json : Type :=
| JNull                                   (* None *)
| JBool (b : bool)                        (* True, False *)
| JInt (z : Z)                            (* int *)
| JFloat (f : float)                      (* float, nan and inf included *)
| JStr (s : string)                       (* str *)
| JArr (l : list json)                    (* list *)
| JObj (kvs : list (string * json)).      (* dict, in insertion order *)

(** [d.get(k)] on the items of a dict: the value of the first item with
    key [k]. *)
Fixpoint dict_get (k : string) (kvs : list (string * json)) : option json :=
  match kvs with
  | [] => None
  | (k', v) :: kvs' => if (k' =? k)%string then Some v else dict_get k kvs'
  end.

(** [d[k]] after [d.setdefault(k, dflt)]. *)
Definition setdefault (k : string) (dflt : json) (kvs : list (string * json)) : json :=
  match dict_get k kvs with
  | Some v => v
  | None => dflt
  end.

(** Python's truth value of a JSON value: [bool(v)], and the test of
    [v or ...] and [if v]. *)
Definition truthy (v : json) : bool :=
  match v with
  | JNull => false
  | JBool b => b
  | JInt z => negb (z =? 0)
  | JFloat f => negb (PrimFloat.eqb f PrimFloat.zero)
  | JStr s => negb (s =? "")%string
  | JArr l => match l with [] => false | _ => true end
  | JObj kvs => match kvs with [] => false | _ => true end
  end.

(** ** Exceptions and the effect monad *)

Inductive exn : Type :=
| SystemExit (msg : string)   (* raise SystemExit(...) in load_data *)
| ValueError                  (* raise ValueError(...); int() of a bad str or of nan *)
| TypeError                   (* subscript, iteration, int() or < at the wrong type *)
| KeyError (key : string)     (* d[key] on a dict without the key *)
| OverflowError               (* int() of an infinite float *)
| UnicodeDecodeError          (* reading a file whose bytes are not UTF-8 *)
| Unmodelled.                 (* not a Python exception: see [due_key] *)

Inductive file_state : Type :=
| Absent                      (* DATA_FILE.exists() is false *)
| Garbage                     (* json.load raises JSONDecodeError *)
| Undecodable                 (* the bytes are not UTF-8: f.read() raises *)
| Doc (j : json).             (* json.load returns j *)

Record world : Type := {
  file : file_state;          (* todos.json *)
  ticks : nat;                (* clock readings taken so far *)
  writes : nat                (* calls of save_data so far *)
}.

Inductive outcome (A : Type) : Type :=
| Ok (a : A) (w : world)
| Raise (e : exn) (w : world).
Arguments Ok {A} a w.
Arguments Raise {A} e w.

Definition M (A : Type) : Type := world -> outcome A.

Definition ret {A} (a : A) : M A := fun w => Ok a w.
Definition raise {A} (e : exn) : M A := fun w => Raise e w.
Definition bind {A B} (m : M A) (k : A -> M B) : M B :=
  fun w => match m w with
           | Ok a w' => k a w'
           | Raise e w' => Raise e w'
           end.

Notation "x <- m ;; k" := (bind m (fun x => k))
  (at level 61, m at next level, right associativity).
Notation "m ;;; k" := (bind m (fun _ => k))
  (at level 61, right associativity).

(** A pure computation that may raise. *)
Definition lift {A} (r : exn + A) : M A :=
  match r with
  | inl e => raise e
  | inr a => ret a
  end.

(** [[f(x) for x in l]], left to right, stopping at the first exception. *)
Fixpoint mapM {A B} (f : A -> M B) (l : list A) : M (list B) :=
  match l with
  | [] => ret []
  | x :: l' => y <- f x ;; ys <- mapM f l' ;; ret (y :: ys)
  end.

Definition world_of {A} (o : outcome A) : world :=
  match o with
  | Ok _ w => w
  | Raise _ w => w
  end.

(** ** The task record and the loaded collection *)

(** The dataclass [Task]; equally the dict [asdict(task)] that
    [data["tasks"]] holds after [load_data]. [due] and [completed_at] are
    annotated [Optional[str]] but [from_dict] passes any stored value
    through, so they are JSON values here. *)
Record Task : Type := {
  id : Z;
  title : string;
  completed : bool;
  created_at : string;
  due : json;
  completed_at : json
}.

(** The dict [data] that [load_data] returns: its two known keys, and the
    items of every other key of the stored object (kept by [save_data]). *)
Record Data : Type := {
  next_id : json;
  tasks : list Task;
  extra : list (string * json)
}.

(** The dict [stats()] returns. *)
Record Stats : Type := {
  total : Z;
  pending : Z;
  done : Z;
  overdue : Z
}.

Definition set_title (s : string) (t : Task) : Task :=
  {| id := id t; title := s; completed := completed t;
     created_at := created_at t; due := due t; completed_at := completed_at t |}.

Definition set_due (v : json) (t : Task) : Task :=
  {| id := id t; title := title t; completed := completed t;
     created_at := created_at t; due := v; completed_at := completed_at t |}.

Definition set_status (c : bool) (at_ : json) (t : Task) : Task :=
  {| id := id t; title := title t; completed := c;
     created_at := created_at t; due := due t; completed_at := at_ |}.

Definition asdict (t : Task) : json :=
  JObj [("id", JInt (id t)); ("title", JStr (title t));
        ("completed", JBool (completed t)); ("created_at", JStr (created_at t));
        ("due", due t); ("completed_at", completed_at t)].

Definition opt_json (o : option string) : json :=
  match o with
  | None => JNull
  | Some s => JStr s
  end.

Definition reserved (k : string) : bool :=
  (k =? "next_id")%string || (k =? "tasks")%string.

(** The object [json.dump] writes for [data]. Its keys are written here
    with [next_id] and [tasks] first; Python keeps the order of the file it
    read, which no reader of the file observes. *)
Definition encode (d : Data) : json :=
  JObj (("next_id", next_id d) :: ("tasks", JArr (map asdict (tasks d))) :: extra d).

(** [x in set(ids)] for ints. *)
Definition mem (x : Z) (ids : list Z) : bool := existsb (Z.eqb x) ids.

(** ** Python builtins on JSON values *)

(** [int(f)] for a float: truncation toward zero. *)
Definition int_of_float (f : float) : exn + Z :=
  match Prim2SF f with
  | S754_zero _ => inr 0
  | S754_infinity _ => inl OverflowError
  | S754_nan => inl ValueError
  | S754_finite s m e =>
      let a := if 0 <=? e then Z.pos m * 2 ^ e else Z.pos m / 2 ^ (- e) in
      inr (if s then - a else a)
  end.

(** [str(z)] for an int. *)
Definition str_of_int (z : Z) : string := NilEmpty.string_of_int (Z.to_int z).

Fixpoint join (sep : string) (l : list string) : string :=
  match l with
  | [] => ""
  | [s] => s
  | s :: l' => (s ++ sep ++ join sep l')%string
  end.

(** [for t in v]: the elements of a list; the keys of a dict; the
    characters of a str (one item per byte here, per code point in Python:
    both are strs, and [from_dict] raises on the first of them); anything
    else is not iterable. *)
Definition py_iter (v : json) : exn + list json :=
  match v with
  | JArr l => inr l
  | JObj kvs => inr (map (fun kv => JStr (fst kv)) kvs)
  | JStr s => inr (map (fun c => JStr (String c "")) (list_ascii_of_string s))
  | _ => inl TypeError
  end.

(** [d[k]]: only a dict can be subscripted by a str. *)
Definition subscript (d : json) (k : string) : exn + json :=
  match d with
  | JObj kvs => match dict_get k kvs with
                | Some v => inr v
                | None => inl (KeyError k)
                end
  | _ => inl TypeError
  end.

(** [d.get(k)] and [d.get(k, False)], reached only after [d["id"]] has
    shown [d] to be a dict. *)
Definition get (d : json) (k : string) (dflt : json) : json :=
  match d with
  | JObj kvs => match dict_get k kvs with
                | Some v => v
                | None => dflt
                end
  | _ => dflt
  end.

(** [s < today] where [today] is a str: ordered for a str only. *)
Definition lt_str (v : json) (s : string) : exn + bool :=
  match v with
  | JStr a => inr (a <? s)%string
  | _ => inl TypeError
  end.

(** ** The operations of [todo.py] *)

Section Todo.

(** The [k]-th reading of [datetime.utcnow().isoformat(timespec="seconds")]
    (readings are counted from 0, over all processes). *)
Variable clock : nat -> string.

(** [int(s)] for a str: [None] when it raises ValueError. *)
Variable int_of_str : string -> option Z.

(** [repr(f)] for a float, which is never empty: its first character and
    the rest. *)
Variable float_repr : float -> ascii * string.

(** [repr(v)] for an element of a list or dict. *)
Variable py_repr : json -> string.

(** [int(v)] *)
Definition py_int (v : json) : exn + Z :=
  match v with
  | JInt z => inr z
  | JBool b => inr (if b then 1 else 0)
  | JFloat f => int_of_float f
  | JStr s => match int_of_str s with
              | Some z => inr z
              | None => inl ValueError
              end
  | JNull | JArr _ | JObj _ => inl TypeError
  end.

(** [str(v)] *)
Definition py_str (v : json) : string :=
  match v with
  | JStr s => s
  | JInt z => str_of_int z
  | JBool b => if b then "True" else "False"
  | JNull => "None"
  | JFloat f => String (fst (float_repr f)) (snd (float_repr f))
  | JArr l => ("[" ++ join ", " (map py_repr l) ++ "]")%string
  | JObj kvs =>
      let item kv := (py_repr (JStr (fst kv)) ++ ": " ++ py_repr (snd kv))%string in
      ("{" ++ join ", " (map item kvs) ++ "}")%string
  end.

Definition timestamp (k : nat) : string := (clock k ++ "Z")%string.

Definition tick (w : world) : world :=
  {| file := file w; ticks := S (ticks w); writes := writes w |}.

(** [now_iso()]: one reading of the clock. *)
Definition now_iso : M string :=
  fun w => Ok (timestamp (ticks w)) (tick w).

(** [Task.from_dict(d)]. The keyword arguments are evaluated in the order
    written, so [d["id"]] comes first and raises for anything but a dict
    with that key; the clock is read only when [created_at] is missing or
    falsy. *)
Definition from_dict (d : json) : M Task :=
  i <- lift (subscript d "id") ;;
  tid <- lift (py_int i) ;;
  ti <- lift (subscript d "title") ;;
  let c := truthy (get d "completed" (JBool false)) in
  let ca := get d "created_at" JNull in
  cs <- (if truthy ca then ret (py_str ca) else now_iso) ;;
  ret {| id := tid; title := py_str ti; completed := c; created_at := cs;
         due := get d "due" JNull; completed_at := get d "completed_at" JNull |}.

Definition empty_data : Data :=
  {| next_id := JInt 1; tasks := []; extra := [] |}.

Definition parse_failure : string := "Failed to parse todos.json. Fix or delete it.".

(** [load_data()] *)
Definition load_data : M Data :=
  fun w =>
    match file w with
    | Absent => Ok empty_data w
    | Garbage => Raise (SystemExit parse_failure) w
    | Undecodable => Raise UnicodeDecodeError w
    | Doc (JObj kvs) =>
        (recs <- lift (py_iter (setdefault "tasks" (JArr []) kvs)) ;;
         ts <- mapM from_dict recs ;;
         ret {| next_id := setdefault "next_id" (JInt 1) kvs; tasks := ts;
                extra := filter (fun kv => negb (reserved (fst kv))) kvs |}) w
    | Doc _ => Raise ValueError w
    end.

(** [save_data(data)]. On the values of this development [json.dump]
    does not raise: they are what [json.load] returned, ints, bools and
    strs that UTF-8 can encode (see the conventions). *)
Definition save_data (d : Data) : M unit :=
  fun w => Ok tt {| file := Doc (encode d); ticks := ticks w; writes := S (writes w) |}.

(** [Task.from_dict(raw)] for a dict [raw] of [data["tasks"]]. *)
Definition reread (t : Task) : M Task := from_dict (asdict t).

(** [add_task(title, due)]. [created_at_default] is the default of the
    dataclass field [created_at], the value [now_iso()] had when the class
    statement ran, that is when the process imported the module. *)
Definition add_task (created_at_default : string) (title_ : string) (due_ : option string)
  : M Task :=
  d <- load_data ;;
  tid <- lift (py_int (next_id d)) ;;
  let task := {| id := tid; title := title_; completed := false;
                 created_at := created_at_default; due := opt_json due_;
                 completed_at := JNull |} in
  save_data {| next_id := JInt (tid + 1); tasks := tasks d ++ [task]; extra := extra d |} ;;;
  ret task.

(** What the process does when it imports [todo]: the class statement of
    [Task] reads the clock once. *)
Definition import_todo : M string := now_iso.

(** *** Sorting, as [list.sort(key=...)] does it

    [list.sort] is stable and compares keys with [<] only. On keys that [<]
    orders totally its result is the one stable sorted arrangement, which
    the insertion sort below computes. *)

Definition sentinel : string := "9999-12-31".

(** The key component [(t.due is None, t.due or "9999-12-31")]. For a
    truthy [due] that is not a str the key is not a (bool, str) pair: whether
    [list.sort] then raises TypeError or returns depends on which keys it
    compares, which is not modelled; such a key is [None] here. *)
Definition due_key (v : json) : option (bool * string) :=
  match v with
  | JNull => Some (true, sentinel)
  | JStr s => Some (false, if truthy v then s else sentinel)
  | _ => if truthy v then None else Some (false, sentinel)
  end.

(** [lambda t: ((t.due is None, t.due or "9999-12-31"), t.created_at)] *)
Definition sort_key_of (t : Task) : option ((bool * string) * string) :=
  match due_key (due t) with
  | Some k => Some (k, created_at t)
  | None => None
  end.

(** [lambda t: t.completed_at or ""] *)
Definition done_key_of (t : Task) : option string :=
  match completed_at t with
  | JStr s => Some s
  | v => if truthy v then None else Some ""
  end.

(** [False < True] *)
Definition bool_lt (a b : bool) : bool := negb a && b.

(** [<] on 2-tuples: the first components decide unless they are equal. *)
Definition due_lt (x y : bool * string) : bool :=
  if Bool.eqb (fst x) (fst y) then (snd x <? snd y)%string else bool_lt (fst x) (fst y).

Definition due_eqb (x y : bool * string) : bool :=
  Bool.eqb (fst x) (fst y) && (snd x =? snd y)%string.

Definition key_lt (x y : (bool * string) * string) : bool :=
  if due_eqb (fst x) (fst y) then (snd x <? snd y)%string else due_lt (fst x) (fst y).

(** Insertion of [x], which stood before every element of [l], into the
    sorted [l]: after the elements with a smaller key, before the others. *)
Fixpoint insert_by {K A} (lt : K -> K -> bool) (x : K * A) (l : list (K * A)) : list (K * A) :=
  match l with
  | [] => [x]
  | y :: l' => if lt (fst y) (fst x) then y :: insert_by lt x l' else x :: l
  end.

Fixpoint decorate {K} (key : Task -> option K) (l : list Task) : option (list (K * Task)) :=
  match l with
  | [] => Some []
  | t :: l' =>
      match key t, decorate key l' with
      | Some k, Some kl => Some ((k, t) :: kl)
      | _, _ => None
      end
  end.

Definition sort_by {K} (key : Task -> option K) (lt : K -> K -> bool) (l : list Task)
  : exn + list Task :=
  match decorate key l with
  | None => inl Unmodelled
  | Some kl => inr (map snd (fold_right (insert_by lt) [] kl))
  end.

(** [list_tasks(kind)]. With [reverse=True] the sort is the stable sort for
    the converse order. Where a selected task has a key that [due_key] or
    [done_key_of] does not give (a truthy [due] or [completed_at] that is
    no str), the outcome is [Unmodelled]: nothing is said there of whether
    the call returns, and the statements about the result are made for
    collections on which every key is defined. *)
Definition list_tasks (kind : string) : M (list Task) :=
  d <- load_data ;;
  ts <- mapM reread (tasks d) ;;
  let ts1 := if (kind =? "pending")%string then filter (fun t => negb (completed t)) ts
             else if (kind =? "done")%string then filter completed ts
             else ts in
  if (kind =? "pending")%string || (kind =? "all")%string
  then lift (sort_by sort_key_of key_lt ts1)
  else if (kind =? "done")%string
  then lift (sort_by done_key_of (fun a b => (b <? a)%string) ts1)
  else ret ts1.

(** The loop of [mark_done]: the new [data["tasks"]] and [updated]. *)
Fixpoint mark_loop (ids : list Z) (l : list Task) : M (list Task * list Task) :=
  match l with
  | [] => ret ([], [])
  | raw :: l' =>
      if mem (id raw) ids && negb (completed raw)
      then now <- now_iso ;;
           let raw' := set_status true (JStr now) raw in
           u <- reread raw' ;;
           r <- mark_loop ids l' ;;
           ret (raw' :: fst r, u :: snd r)
      else r <- mark_loop ids l' ;;
           ret (raw :: fst r, snd r)
  end.

(** [mark_done(ids)] *)
Definition mark_done (ids : list Z) : M (list Task) :=
  d <- load_data ;;
  r <- mark_loop ids (tasks d) ;;
  save_data {| next_id := next_id d; tasks := fst r; extra := extra d |} ;;;
  ret (snd r).

(** [delete_tasks(ids)] *)
Definition delete_tasks (ids : list Z) : M Z :=
  d <- load_data ;;
  let before := Z.of_nat (List.length (tasks d)) in
  let ts := filter (fun t => negb (mem (id t) ids)) (tasks d) in
  let after := Z.of_nat (List.length ts) in
  save_data {| next_id := next_id d; tasks := ts; extra := extra d |} ;;;
  ret (before - after).

(** The assignments [edit_task] makes to the dict it found. *)
Definition apply_edit (title_ due_ : option string) (clear_due undone : bool) (raw : Task)
  : Task :=
  let r1 := match title_ with
            | Some s => set_title s raw
            | None => raw
            end in
  let r2 := if clear_due then set_due JNull r1
            else match due_ with
                 | Some s => set_due (JStr s) r1
                 | None => r1
                 end in
  if undone && completed r2 then set_status false JNull r2 else r2.

(** The loop of [edit_task] over [data["tasks"]]: [seen] are the dicts
    already passed. *)
Fixpoint edit_loop (id_ : Z) (title_ due_ : option string) (clear_due undone : bool)
  (d : Data) (seen l : list Task) : M (option Task) :=
  match l with
  | [] => ret None
  | raw :: l' =>
      if id raw =? id_
      then let raw' := apply_edit title_ due_ clear_due undone raw in
           save_data {| next_id := next_id d; tasks := seen ++ raw' :: l'; extra := extra d |} ;;;
           t <- reread raw' ;;
           ret (Some t)
      else edit_loop id_ title_ due_ clear_due undone d (seen ++ [raw]) l'
  end.

(** [edit_task(id_, title, due, clear_due, undone)] *)
Definition edit_task (id_ : Z) (title_ due_ : option string) (clear_due undone : bool)
  : M (option Task) :=
  d <- load_data ;;
  edit_loop id_ title_ due_ clear_due undone d [] (tasks d).

(** [clear_tasks(mode)] *)
Definition clear_tasks (mode : string) : M Z :=
  d <- load_data ;;
  let before := Z.of_nat (List.length (tasks d)) in
  d' <- (if (mode =? "done")%string
         then ret {| next_id := next_id d;
                     tasks := filter (fun t => negb (completed t)) (tasks d);
                     extra := extra d |}
         else if (mode =? "all")%string
         then ret {| next_id := JInt 1; tasks := []; extra := extra d |}
         else raise ValueError) ;;
  let after := Z.of_nat (List.length (tasks d')) in
  save_data d' ;;;
  ret (before - after).

(** The loop of [stats] that counts the overdue tasks. *)
Fixpoint overdue_loop (today : string) (l : list Task) (acc : Z) : exn + Z :=
  match l with
  | [] => inr acc
  | t :: l' =>
      if negb (completed t) && truthy (due t)
      then match lt_str (due t) today with
           | inl e => inl e
           | inr b => overdue_loop today l' (if b then acc + 1 else acc)
           end
      else overdue_loop today l' acc
  end.

(** [stats()], where [today] is [date.today().isoformat()]. *)
Definition stats (today : string) : M Stats :=
  d <- load_data ;;
  let total_ := Z.of_nat (List.length (tasks d)) in
  let done_ := Z.of_nat (List.length (filter completed (tasks d))) in
  let pending_ := total_ - done_ in
  overdue_ <- lift (overdue_loop today (tasks d) 0) ;;
  ret {| total := total_; pending := pending_; done := done_; overdue := overdue_ |}.

(** ** Histories: processes calling the operations on one file

    A process imports the module (the class statement of [Task] reads the
    clock) and then calls operations one after the other; an exception ends
    a call and leaves the world as it is. The command line runs one call
    per process, the web server many. *)

Inductive call : Type :=
| Add (title_ : string) (due_ : option string)
| MarkDone (ids : list Z)
| Delete (ids : list Z)
| Edit (id_ : Z) (title_ due_ : option string) (clear_due undone : bool)
| Clear (mode : string)
| ListTasks (kind : string)
| GetStats (today : string).

Inductive response : Type :=
| RTask (t : Task)
| RTasks (l : list Task)
| RCount (n : Z)
| RFound (o : option Task)
| RStats (s : Stats)
| RRaised (e : exn).

Record event : Type := {
  ev_call : call;
  ev_before : world;
  ev_response : response;
  ev_after : world
}.

Definition answer {A} (f : A -> response) (m : M A) (w : world) : response * world :=
  match m w with
  | Ok a w' => (f a, w')
  | Raise e w' => (RRaised e, w')
  end.

Definition exec (created_at_default : string) (c : call) : world -> response * world :=
  match c with
  | Add t d => answer RTask (add_task created_at_default t d)
  | MarkDone ids => answer RTasks (mark_done ids)
  | Delete ids => answer RCount (delete_tasks ids)
  | Edit i t d c u => answer RFound (edit_task i t d c u)
  | Clear mode => answer RCount (clear_tasks mode)
  | ListTasks kind => answer RTasks (list_tasks kind)
  | GetStats today => answer RStats (stats today)
  end.

Fixpoint run_calls (created_at_default : string) (cs : list call) (w : world)
  : list event * world :=
  match cs with
  | [] => ([], w)
  | c :: cs' =>
      let rw := exec created_at_default c w in
      let r := run_calls created_at_default cs' (snd rw) in
      ({| ev_call := c; ev_before := w; ev_response := fst rw; ev_after := snd rw |} :: fst r,
       snd r)
  end.

Definition run_process (cs : list call) (w : world) : list event * world :=
  match import_todo w with
  | Ok dflt w1 => run_calls dflt cs w1
  | Raise _ w1 => ([], w1)
  end.

Fixpoint run_history (ps : list (list call)) (w : world) : list event * world :=
  match ps with
  | [] => ([], w)
  | cs :: ps' =>
      let r1 := run_process cs w in
      let r2 := run_history ps' (snd r1) in
      (fst r1 ++ fst r2, snd r2)
  end.

(** ** What the statements observe *)

(** The collection a call started in world [w] would load. *)
Definition stored (w : world) : option Data :=
  match load_data w with
  | Ok d _ => Some d
  | Raise _ _ => None
  end.

(** The id the next [add_task] would issue: [int(data["next_id"])]. *)
Definition counter (w : world) : option Z :=
  match stored w with
  | Some d => match py_int (next_id d) with
              | inr n => Some n
              | inl _ => None
              end
  | None => None
  end.

Definition stored_tasks (w : world) : option (list Task) :=
  match stored w with
  | Some d => Some (tasks d)
  | None => None
  end.

(** The world [save_data d] leaves. *)
Definition saved (d : Data) (w : world) : world :=
  {| file := Doc (encode d); ticks := ticks w; writes := S (writes w) |}.

(** What [load_data] guarantees of the collection it returns. *)
Definition normal (d : Data) : Prop :=
  Forall (fun t => created_at t <> "") (tasks d) /\
  Forall (fun kv => reserved (fst kv) = false) (extra d).

(** [int(d["id"])], the first thing [Task.from_dict(d)] evaluates. *)
Definition record_id (r : json) : exn + Z :=
  match subscript r "id" with
  | inl e => inl e
  | inr i => py_int i
  end.


(** ** Vocabulary of the statements *)

Definition nonempty_created (t : Task) : Prop := created_at t <> "".

(** [mark_done(ids)] changes the task [t]: its id is in [ids] and it is
    pending. *)
Definition to_mark (ids : list Z) (t : Task) : bool :=
  mem (id t) ids && negb (completed t).

(** How [mark_done] relates a stored task to what replaces it, when the
    clock readings of the call are those numbered [lo] to [hi - 1]. *)
Definition marked (ids : list Z) (lo hi : nat) (old new : Task) : Prop :=
  if to_mark ids old
  then exists k, (lo <= k < hi)%nat /\ new = set_status true (JStr (timestamp k)) old
  else new = old.

(** The new versions of the tasks that [mark_done] changes. *)
Definition changed (ids : list Z) (old new : list Task) : list Task :=
  map snd (filter (fun on => to_mark ids (fst on)) (combine old new)).

(** The task [mark_done] leaves in place of a pending task [t] when the
    clock shows [stamp], in the words of the design document: [completed]
    is true, [completed_at] is the time, and no other field differs. *)
Definition completed_task (stamp : string) (t : Task) : Task :=
  {| id := id t; title := title t; completed := true; created_at := created_at t;
     due := due t; completed_at := JStr stamp |}.

(** [marks ids k old new upd k']: what [mark_done(ids)] is to do with the
    stored tasks [old]. A task whose id is in [ids] and that is pending is
    replaced by its completed version, stamped with the next reading of
    the clock, and that version is appended to [upd]; every other task
    stays. The readings taken are those numbered [k] to [k' - 1]. *)
Inductive marks (ids : list Z) : nat -> list Task -> list Task -> list Task -> nat -> Prop :=
| marks_nil (k : nat) : marks ids k [] [] [] k
| marks_hit (t : Task) (k k' : nat) (old new upd : list Task) :
    In (id t) ids -> completed t = false ->
    marks ids (S k) old new upd k' ->
    marks ids k (t :: old) (completed_task (timestamp k) t :: new)
          (completed_task (timestamp k) t :: upd) k'
| marks_skip (t : Task) (k k' : nat) (old new upd : list Task) :
    ~ In (id t) ids \/ completed t = true ->
    marks ids k old new upd k' ->
    marks ids k (t :: old) (t :: new) upd k'.

(** The task [edit_task] leaves in place of [t], in the words of the
    design document. *)
Definition edited (title_ due_ : option string) (clear_due undone : bool) (t : Task) : Task :=
  {| id := id t;
     title := match title_ with Some s => s | None => title t end;
     completed := if undone then false else completed t;
     created_at := created_at t;
     due := if clear_due then JNull
            else match due_ with Some s => JStr s | None => due t end;
     completed_at := if undone && completed t then JNull else completed_at t |}.

Definition with_tasks (d : Data) (ts : list Task) : Data :=
  {| next_id := next_id d; tasks := ts; extra := extra d |}.

(** The design document's type of [due]: absent, or a date, of which only
    that it is a non-empty str matters here. *)
Definition due_ok (t : Task) : Prop :=
  due t = JNull \/ exists s, due t = JStr s /\ s <> "".

(** A task is overdue: it is pending, it has a due date, and the date is
    before [today] as a string. *)
Definition is_overdue (today : string) (t : Task) : bool :=
  negb (completed t) &&
  match due t with
  | JStr s => (s <? today)%string
  | _ => false
  end.

(** The tasks the [add_task] calls of a log returned. *)
Fixpoint added (log : list event) : list Task :=
  match log with
  | [] => []
  | ev :: log' =>
      match ev_call ev, ev_response ev with
      | Add _ _, RTask t => t :: added log'
      | _, _ => added log'
      end
  end.

(** *** Orders given by a comparison *)

Record total_cmp {A : Type} (cmp : A -> A -> comparison) : Prop := {
  cmp_eq : forall a b, cmp a b = Eq -> a = b;
  cmp_refl : forall a, cmp a a = Eq;
  cmp_opp : forall a b, cmp b a = CompOpp (cmp a b);
  cmp_trans : forall a b c, cmp a b = Lt -> cmp b c = Lt -> cmp a c = Lt
}.

(** The lexicographic comparison of pairs, which is how Python compares
    tuples. *)
Definition lex {A B : Type} (ca : A -> A -> comparison) (cb : B -> B -> comparison)
  (x y : A * B) : comparison :=
  match ca (fst x) (fst y) with
  | Eq => cb (snd x) (snd y)
  | c => c
  end.

Definition key_cmp : (bool * string) * string -> (bool * string) * string -> comparison :=
  lex (lex Bool.compare String.compare) String.compare.

(** On decorated elements: the key of [q] is not less than that of [p]. *)
Definition key_le {K A : Type} (lt : K -> K -> bool) (p q : K * A) : Prop :=
  lt (fst q) (fst p) = false.

(** [a] may stand before [b] in a list sorted by the key of [list_tasks]:
    the key of [b] is not less than that of [a]. *)
Definition key_order (a b : Task) : Prop :=
  forall ka kb, sort_key_of a = Some ka -> sort_key_of b = Some kb -> key_lt kb ka = false.


(** *** Invariants of the file *)

(** The file holds the collection [d]: there is no file and [d] is empty,
    or the file is what [save_data d] writes. *)
Definition on_disk (d : Data) (fs : file_state) : Prop :=
  (fs = Absent /\ d = empty_data) \/ fs = Doc (encode d).

(** [completed_at] is present exactly when the task is completed. *)
Definition stamp_ok (t : Task) : Prop :=
  completed t = true <-> completed_at t <> JNull.

(** The collection [d] has counter [n]; its ids are strictly increasing in
    stored order and lie between 1 and [n - 1]; its timestamps agree with
    its flags. *)
Definition good (n : Z) (d : Data) : Prop :=
  normal d /\ next_id d = JInt n /\ 1 <= n /\
  StronglySorted Z.lt (map id (tasks d)) /\
  Forall (fun t => 1 <= id t < n) (tasks d) /\
  Forall stamp_ok (tasks d).

(** What a call does to the counter, which is [n] before and [n'] after,
    and what [add_task] answers. *)
Definition step_spec (created_at_default : string) (c : call) (n : Z) (r : response) (n' : Z)
  : Prop :=
  match c with
  | Add ti du =>
      r = RTask {| id := n; title := ti; completed := false;
                   created_at := created_at_default; due := opt_json du;
                   completed_at := JNull |} /\ n' = n + 1
  | Clear mode => if (mode =? "all")%string then n' = 1 else n' = n
  | _ => n' = n
  end.

(** The same, read off an event of a log. *)
Definition issues_ok (ev : event) : Prop :=
  exists n n',
    counter (ev_before ev) = Some n /\ counter (ev_after ev) = Some n' /\
    match ev_call ev with
    | Add _ _ => exists t, ev_response ev = RTask t /\ id t = n /\ n' = n + 1
    | Clear mode =>
        if (mode =? "all")%string
        then n' = 1 /\
             forall dflt ti du, exists t w', add_task dflt ti du (ev_after ev) = Ok t w' /\ id t = 1
        else n' = n
    | _ => n' = n
    end.

(** Each call of the log starts with the counter the call before it left,
    the first with [c0]. *)
Fixpoint linked (c0 : option Z) (log : list event) : Prop :=
  match log with
  | [] => True
  | ev :: log' => counter (ev_before ev) = c0 /\ linked (counter (ev_after ev)) log'
  end.

Definition full_clear (c : call) : bool :=
  match c with
  | Clear mode => (mode =? "all")%string
  | _ => false
  end.

(** The counter the last call of the log left, [c0] for an empty log. *)
Fixpoint end_counter (c0 : option Z) (log : list event) : option Z :=
  match log with
  | [] => c0
  | ev :: log' => end_counter (counter (ev_after ev)) log'
  end.

(** What [add_task] returns, apart from id, title and due date. *)
Definition fresh (created_at_default : string) (t : Task) : Prop :=
  created_at t = created_at_default /\ completed t = false /\ completed_at t = JNull.

Definition no_full_clear (cs : list call) : bool :=
  forallb (fun c => negb (full_clear c)) cs.

(** ** A sample store, on which the statements are exercised *)

(** A clock that shows a later time at each of its first readings. *)
Definition sample_clock (k : nat) : string :=
  match k with
  | O => "2025-09-01T08:00:00"
  | S O => "2025-09-01T09:30:00"
  | S (S O) => "2025-09-02T10:00:00"
  | _ => "2025-09-03T07:15:00"
  end.

(** Stand-ins for the builtins: [int] of a str reads a plain decimal
    literal; the two [repr]s are constant. *)
Definition sample_int_of_str (s : string) : option Z :=
  option_map Z.of_int (NilZero.int_of_string s).

Definition sample_float_repr (f : float) : ascii * string := ("0"%char, ".0").

Definition sample_repr (v : json) : string := "...".

Definition milk : Task :=
  {| id := 1; title := "Buy milk"; completed := false;
     created_at := "2025-08-30T08:00:00Z"; due := JStr "2025-09-03"; completed_at := JNull |}.

Definition rent : Task :=
  {| id := 2; title := "Pay rent"; completed := true;
     created_at := "2025-08-30T08:00:00Z"; due := JNull;
     completed_at := JStr "2025-08-31T18:00:00Z" |}.

Definition call_ann : Task :=
  {| id := 4; title := "Call Ann"; completed := false;
     created_at := "2025-08-31T12:00:00Z"; due := JStr "2025-08-31"; completed_at := JNull |}.

Definition water : Task :=
  {| id := 5; title := "Water plants"; completed := false;
     created_at := "2025-08-31T12:00:00Z"; due := JNull; completed_at := JNull |}.

Definition sample_data : Data :=
  {| next_id := JInt 6; tasks := [milk; rent; call_ann; water]; extra := [] |}.

Definition sample_world : world :=
  {| file := Doc (encode sample_data); ticks := 1; writes := 7 |}.

Definition no_file : world :=
  {| file := Absent; ticks := 0; writes := 0 |}.

(** A file in which the second record has an id that is no number. *)
Definition broken_doc : list (string * json) :=
  [("next_id", JInt 3);
   ("tasks", JArr [asdict milk;
                   JObj [("id", JNull); ("title", JStr "Pay rent")]])].

Definition broken_world : world :=
  {| file := Doc (JObj broken_doc); ticks := 0; writes := 0 |}.





(** Two processes: the first adds three tasks and completes one; the
    second deletes one, clears the completed ones, and adds a fourth. *)
Definition sample_history : list (list call) :=
  [[Add "Buy milk" (Some "2025-09-03"); Add "Pay rent" None; Add "Call Ann" None;
    MarkDone [2; 9]];
   [Delete [1]; Clear "done"; Add "Water plants" None;
    Edit 4 None (Some "2025-09-05") false true]].

(** A process that resets the store and adds again. *)
Definition reset_history : list (list call) :=
  [[Add "Buy milk" None; Add "Pay rent" None; Add "Call Ann" None;
    Clear "all"; Add "Water plants" None]].

(** The scenario of the design document: add a task, complete it, revert
    it, with the statistics after each step. *)
Definition milk_scenario : list (list call) :=
  [[Add "Buy milk" (Some "2099-01-01"); GetStats "2025-09-01";
    MarkDone [1]; GetStats "2025-09-01";
    Edit 1 None None false true; GetStats "2025-09-01"]].

(** ** Vocabulary of the further statements *)

(** World [w'] has the file of [w], and no write lies between them. *)
Definition same_store (w w' : world) : Prop :=
  file w' = file w /\ writes w' = writes w.

(** [completed_at] has its annotated type: absent or a str. *)
Definition stamp_typed (t : Task) : Prop :=
  completed_at t = JNull \/ exists s, completed_at t = JStr s.

(** [a] may stand before [b] in a list sorted by [completed_at or ""],
    descending: the key of [a] is not less than that of [b]. *)
Definition done_order (a b : Task) : Prop :=
  forall ka kb, done_key_of a = Some ka -> done_key_of b = Some kb ->
                (ka <? kb)%string = false.

(** The same on the fields: of two tasks with a completion time the one
    completed earlier does not stand before the other, and a task without
    completion time stands before no task that has one. *)
Definition in_done_order (a b : Task) : Prop :=
  (forall sa sb, completed_at a = JStr sa -> completed_at b = JStr sb ->
                 (sa <? sb)%string = false) /\
  (completed_at a = JNull -> completed_at b = JNull \/ completed_at b = JStr "").

(** A pending task whose [due] is truthy and no str: [stats] cannot
    compare it with today's date. *)
Definition bad_due (t : Task) : Prop :=
  completed t = false /\ truthy (due t) = true /\ forall s, due t <> JStr s.

(** The due dates a call supplies are non-empty, as the two front ends
    guarantee (they pass [None] for an empty one). *)
Definition call_due_ok (c : call) : Prop :=
  match c with
  | Add _ (Some s) => s <> ""
  | Edit _ _ (Some s) _ _ => s <> ""
  | _ => True
  end.

(** The fields [due] and [completed_at] of every task have their types. *)
Definition typed (d : Data) : Prop :=
  Forall due_ok (tasks d) /\ Forall stamp_typed (tasks d).

(** The only call that raises on a well-typed store: [clear_tasks] with a
    mode that is neither "done" nor "all". *)
Definition may_raise (c : call) : Prop :=
  exists mode, c = Clear mode /\ (mode =? "done")%string = false /\
               (mode =? "all")%string = false.

(** The tasks [list_tasks(kind)] selects, before it sorts them. *)
Definition selected (kind : string) (ts : list Task) : list Task :=
  if (kind =? "pending")%string then filter (fun t => negb (completed t)) ts
  else if (kind =? "done")%string then filter completed ts
  else ts.

(** Equality of sort keys. *)
Definition key_eqb (x y : (bool * string) * string) : bool :=
  due_eqb (fst x) (fst y) && (snd x =? snd y)%string.

(** The task [t] has the sort key [k] under the key function [key]. *)
Definition has_key {K} (key : Task -> option K) (eqb : K -> K -> bool) (k : K) (t : Task)
  : bool :=
  match key t with
  | Some k' => eqb k' k
  | None => false
  end.

(** The task has the due date [dv] ([None]: no due date) and was created
    at [c]. *)
Definition due_created_is (dv : option string) (c : string) (t : Task) : bool :=
  match dv, due t with
  | None, JNull => (created_at t =? c)%string
  | Some s, JStr s' => (s' =? s)%string && (created_at t =? c)%string
  | _, _ => false
  end.

(** The task has the completion time [sv] ([None]: none). *)
Definition stamp_is (sv : option string) (t : Task) : bool :=
  match sv, completed_at t with
  | None, JNull => true
  | Some s, JStr s' => (s' =? s)%string
  | _, _ => false
  end.

Section FrontEnd.

(** ** The command line ([format_tasks], [parse_date], [main]) *)

(** [date.fromisoformat(s).isoformat()]: the ISO form of the date that [s]
    denotes, [None] when [fromisoformat] raises. Which strings it accepts
    depends on the version of Python. *)
Variable fromisoformat : string -> option string.

(** [s.strip()] *)
Variable strip : string -> string.

(** [parse_date(s)]: [inl msg] stands for
    [raise argparse.ArgumentTypeError(msg)]. *)
Definition parse_date (s : string) : string + option string :=
  if (s =? "")%string then inr None
  else match fromisoformat s with
       | Some d => inr (Some d)
       | None => inl ("Invalid date '" ++ s ++ "'. Use YYYY-MM-DD (e.g., 2025-09-01).")%string
       end.

(** A byte that continues a UTF-8 sequence: 10xxxxxx. *)
Definition is_continuation (c : ascii) : bool :=
  (128 <=? N_of_ascii c)%N && (N_of_ascii c <? 192)%N.

(** [len(s)] for a str: the number of its code points. *)
Fixpoint cp_len (s : string) : nat :=
  match s with
  | EmptyString => O
  | String c s' => if is_continuation c then cp_len s' else S (cp_len s')
  end.

(** [s * n] *)
Fixpoint times (s : string) (n : nat) : string :=
  match n with
  | O => ""
  | S n' => (s ++ times s n')%string
  end.

(** [s.ljust(w)] *)
Definition ljust (s : string) (w : nat) : string :=
  (s ++ times " " (w - cp_len s))%string.

(** [s.replace(a, b)] for one-character strs [a] and [b]. *)
Fixpoint replace_char (a b : ascii) (s : string) : string :=
  match s with
  | EmptyString => EmptyString
  | String c s' => String (if (c =? a)%char then b else c) (replace_char a b s')
  end.

(** [s.rstrip(c)] for a one-character str [c]. *)
Fixpoint rstrip_char (c : ascii) (s : string) : string :=
  match s with
  | EmptyString => EmptyString
  | String a s' =>
      let r := rstrip_char c s' in
      if (r =? "")%string && (a =? c)%char then EmptyString else String a r
  end.

(** [len(v)] *)
Definition py_len (v : json) : exn + nat :=
  match v with
  | JStr s => inr (cp_len s)
  | JArr l => inr (List.length l)
  | JObj kvs => inr (List.length kvs)
  | _ => inl TypeError
  end.

(** [v.ljust(w)]: only a str has the method; for any other value Python
    raises AttributeError, which [exn] does not have: [Unmodelled]. *)
Definition py_ljust (v : json) (w : nat) : exn + string :=
  match v with
  | JStr s => inr (ljust s w)
  | _ => inl Unmodelled
  end.

Definition headers : list string := ["ID"; "Title"; "Due"; "Status"; "Created"].

(** The row [format_tasks] builds for a task; the cell of [due] is
    [t.due or "-"], whatever [due] holds. *)
Definition row_of (t : Task) : list json :=
  [JStr (str_of_int (id t));
   JStr (title t);
   (if truthy (due t) then due t else JStr "-");
   JStr (if completed t then "done" else "pending");
   JStr (rstrip_char "Z" (replace_char "T" " " (created_at t)))].

(** [for i, cell in enumerate(r): widths[i] = max(widths[i], len(cell))].
    A row has as many cells as there are headers, so the lists end
    together. *)
Fixpoint widen (widths : list nat) (r : list json) : exn + list nat :=
  match widths, r with
  | w :: ws, c :: cs =>
      match py_len c with
      | inl e => inl e
      | inr n => match widen ws cs with
                 | inl e => inl e
                 | inr ws' => inr (Nat.max w n :: ws')
                 end
      end
  | _, _ => inr widths
  end.

(** [for r in rows: ...] *)
Fixpoint widths_of (widths : list nat) (rows : list (list json)) : exn + list nat :=
  match rows with
  | [] => inr widths
  | r :: rows' => match widen widths r with
                  | inl e => inl e
                  | inr ws => widths_of ws rows'
                  end
  end.

(** [[val.ljust(widths[i]) for i, val in enumerate(vals)]], for as many
    values as widths. *)
Fixpoint fmt_cells (vals : list json) (widths : list nat) : exn + list string :=
  match vals, widths with
  | v :: vs, w :: ws =>
      match py_ljust v w with
      | inl e => inl e
      | inr s => match fmt_cells vs ws with
                 | inl e => inl e
                 | inr ss => inr (s :: ss)
                 end
      end
  | _, _ => inr []
  end.

(** [fmt_row(vals)] *)
Definition fmt_row (widths : list nat) (vals : list json) : exn + string :=
  match fmt_cells vals widths with
  | inl e => inl e
  | inr ss => inr (join "  " ss)
  end.

(** [[fmt_row(r) for r in rows]] *)
Fixpoint fmt_rows (widths : list nat) (rows : list (list json)) : exn + list string :=
  match rows with
  | [] => inr []
  | r :: rows' =>
      match fmt_row widths r with
      | inl e => inl e
      | inr s => match fmt_rows widths rows' with
                 | inl e => inl e
                 | inr ss => inr (s :: ss)
                 end
      end
  end.

(** The list [lines] of [format_tasks], for a non-empty list of tasks. *)
Definition format_lines (ts : list Task) : exn + list string :=
  let rows := map row_of ts in
  match widths_of (map cp_len headers) rows with
  | inl e => inl e
  | inr widths =>
      match fmt_row widths (map JStr headers) with
      | inl e => inl e
      | inr h =>
          match fmt_row widths (map (fun w => JStr (times "-" w)) widths) with
          | inl e => inl e
          | inr sep =>
              match fmt_rows widths rows with
              | inl e => inl e
              | inr body => inr (h :: sep :: body)
              end
          end
      end
  end.

Definition newline : string := String "010"%char EmptyString.

(** [format_tasks(tasks)] *)
Definition format_tasks (ts : list Task) : exn + string :=
  match ts with
  | [] => inr "(no tasks)"
  | _ => match format_lines ts with
         | inl e => inl e
         | inr lines => inr (join newline lines)
         end
  end.

(** The namespace [parser.parse_args(argv)] returns, by subcommand. The
    parser makes the subcommand required, and the options of [list], of
    [clear] and [--due]/[--clear-due] of [edit] mutually exclusive. *)
Inductive cli_args : Type :=
| CmdAdd (title_ : string) (due_ : option string)
| CmdList (all_ done_ pending_ : bool)
| CmdDone (ids : list Z)
| CmdDelete (ids : list Z)
| CmdEdit (id_ : Z) (title_ due_ : option string) (clear_due undone : bool)
| CmdClear (done_ all_ : bool)
| CmdStats.

Definition hash_id (t : Task) : string := ("#" ++ str_of_int (id t))%string.

(** [main(argv)] after [parse_args]: the exit code and the lines printed.
    [today] is the date [stats] reads. *)
Definition main (created_at_default today : string) (args : cli_args)
  : M (Z * list string) :=
  match args with
  | CmdAdd ti du =>
      t <- add_task created_at_default ti du ;;
      ret (0, [("Added " ++ hash_id t ++ ": " ++ title t)%string])
  | CmdList all_ done_ pending_ =>
      let kind := if all_ then "all" else if done_ then "done" else "pending" in
      ts <- list_tasks kind ;;
      out <- lift (format_tasks ts) ;;
      ret (0, [out])
  | CmdDone ids =>
      updated <- mark_done ids ;;
      match updated with
      | [] => ret (0, ["No tasks updated. Check IDs or status."])
      | _ => ret (0, [("Marked done: " ++ join ", " (map hash_id updated))%string])
      end
  | CmdDelete ids =>
      n <- delete_tasks ids ;;
      ret (0, [("Deleted " ++ str_of_int n ++ " task(s)")%string])
  | CmdEdit i ti du cd un =>
      o <- edit_task i ti du cd un ;;
      match o with
      | None => ret (1, [("Task #" ++ str_of_int i ++ " not found")%string])
      | Some t => ret (0, [("Updated " ++ hash_id t)%string])
      end
  | CmdClear done_ all_ =>
      n <- clear_tasks (if done_ then "done" else "all") ;;
      ret (0, [("Removed " ++ str_of_int n ++ " task(s)")%string])
  | CmdStats =>
      s <- stats today ;;
      ret (0, [("Total: " ++ str_of_int (total s) ++ " | Pending: " ++ str_of_int (pending s)
                ++ " | Done: " ++ str_of_int (done s) ++ " | Overdue: "
                ++ str_of_int (overdue s))%string])
  end.

(** ** The web front end ([app.py])

    A request is what the handlers read of it; a handler returns the
    messages it flashes, as (message, category), and the page it answers
    with. *)

Record request : Type := {
  is_post : bool;                   (* request.method == "POST" *)
  form_title : option string;       (* request.form.get("title") *)
  form_due : option string;         (* request.form.get("due") *)
  form_clear_due : option string;   (* request.form.get("clear_due") *)
  form_undone : option string;      (* request.form.get("undone") *)
  arg_filter : option string;       (* request.args.get("filter") *)
  arg_act : option string           (* request.args.get("act") *)
}.

Inductive page : Type :=
| RedirectIndex (filter_ : option string)  (* redirect(url_for("index", filter=...)) *)
| RedirectEdit (task_id : Z)               (* redirect(url_for("edit", task_id=...)) *)
| IndexPage (kind : string) (ts : list Task) (s : Stats) (today : string)
| EditPage (t : Task).

Definition or_default (o : option string) (dflt : string) : string :=
  match o with
  | Some s => s
  | None => dflt
  end.

(** [parse_due(value)] *)
Definition parse_due (value : string) : option string :=
  if (value =? "")%string then None else fromisoformat value.

(** [get_task_by_id(task_id)] *)
Fixpoint find_task (task_id : Z) (l : list Task) : M (option Task) :=
  match l with
  | [] => ret None
  | raw :: l' =>
      if id raw =? task_id
      then t <- reread raw ;; ret (Some t)
      else find_task task_id l'
  end.

Definition get_task_by_id (task_id : Z) : M (option Task) :=
  d <- load_data ;;
  find_task task_id (tasks d).

(** [inject_globals()], which Flask calls when it renders a template. *)
Definition inject_globals (today : string) : M Stats := stats today.

(** [redirect(url_for("index", filter=request.args.get("filter", "pending")))] *)
Definition back_to_index (req : request) : page :=
  RedirectIndex (Some (or_default (arg_filter req) "pending")).

Definition known_kind (kind : string) : bool :=
  (kind =? "pending")%string || (kind =? "all")%string || (kind =? "done")%string.

(** [index()]. The three dates are those read by [stats_fn()], by
    [date.today()] in the handler, and by [inject_globals]. *)
Definition index (req : request) (today_stats today_page today_globals : string)
  : M (list (string * string) * page) :=
  let kind0 := or_default (arg_filter req) "pending" in
  let kind := if known_kind kind0 then kind0 else "pending" in
  ts <- list_tasks kind ;;
  s <- stats today_stats ;;
  inject_globals today_globals ;;;
  ret ([], IndexPage kind ts s today_page).

Definition msg_title_missing : string := "タイトルを入力してください".
Definition msg_due_malformed : string := "期日は YYYY-MM-DD 形式で入力してください".
Definition msg_added (t : Task) : string :=
  ("追加しました: #" ++ str_of_int (id t) ++ " " ++ title t)%string.
Definition msg_deleted (task_id : Z) : string :=
  ("削除しました: #" ++ str_of_int task_id)%string.
Definition msg_not_found (task_id : Z) : string :=
  ("見つかりませんでした: #" ++ str_of_int task_id)%string.
Definition msg_updated (t : Task) : string :=
  ("更新しました: #" ++ str_of_int (id t))%string.
Definition msg_update_failed : string := "更新に失敗しました".

(** [add()] *)
Definition add (created_at_default : string) (req : request)
  : M (list (string * string) * page) :=
  let title_ := strip (or_default (form_title req) "") in
  let due_raw := strip (or_default (form_due req) "") in
  let due_ := parse_due due_raw in
  if (title_ =? "")%string
  then ret ([(msg_title_missing, "warning")], back_to_index req)
  else if negb (due_raw =? "")%string
          && match due_ with Some d => (d =? "")%string | None => true end
  then ret ([(msg_due_malformed, "warning")], back_to_index req)
  else t <- add_task created_at_default title_ due_ ;;
       ret ([(msg_added t, "success")], back_to_index req).

(** [toggle(task_id)] *)
Definition toggle (task_id : Z) (req : request) : M (list (string * string) * page) :=
  let act := or_default (arg_act req) "toggle" in
  (if (act =? "done")%string
   then mark_done [task_id] ;;; ret tt
   else if (act =? "undone")%string
   then edit_task task_id None None false true ;;; ret tt
   else o <- get_task_by_id task_id ;;
        match o with
        | Some t => if completed t
                    then edit_task task_id None None false true ;;; ret tt
                    else mark_done [task_id] ;;; ret tt
        | None => mark_done [task_id] ;;; ret tt
        end) ;;;
  ret ([], back_to_index req).

(** [delete(task_id)] *)
Definition delete (task_id : Z) (req : request) : M (list (string * string) * page) :=
  n <- delete_tasks [task_id] ;;
  if n =? 0
  then ret ([(msg_not_found task_id, "warning")], back_to_index req)
  else ret ([(msg_deleted task_id, "info")], back_to_index req).

(** [edit(task_id)] *)
Definition edit (task_id : Z) (req : request) (today_globals : string)
  : M (list (string * string) * page) :=
  o <- get_task_by_id task_id ;;
  match o with
  | None => ret ([(msg_not_found task_id, "warning")], RedirectIndex None)
  | Some task =>
      if is_post req
      then
        let title_ := strip (or_default (form_title req) "") in
        let due_raw := strip (or_default (form_due req) "") in
        let clear_due := match form_clear_due req with
                         | Some v => (v =? "on")%string
                         | None => false
                         end in
        let undone := match form_undone req with
                      | Some v => (v =? "on")%string
                      | None => false
                      end in
        if (title_ =? "")%string
        then ret ([(msg_title_missing, "warning")], RedirectEdit task_id)
        else
          let due_ := parse_due due_raw in
          if negb (due_raw =? "")%string
             && match due_ with Some d => (d =? "")%string | None => true end
             && negb clear_due
          then ret ([(msg_due_malformed, "warning")], RedirectEdit task_id)
          else
            updated <- edit_task task_id (Some title_) due_ clear_due undone ;;
            match updated with
            | Some t => ret ([(msg_updated t, "success")], back_to_index req)
            | None => ret ([(msg_update_failed, "danger")], back_to_index req)
            end
      else inject_globals today_globals ;;; ret ([], EditPage task)
  end.

End FrontEnd.

(** [main] is asked to edit a task that the collection [d] does not
    have. *)
Definition edit_misses (args : cli_args) (d : Data) : Prop :=
  match args with
  | CmdEdit i _ _ _ _ => Forall (fun t => id t <> i) (tasks d)
  | _ => False
  end.

(** Further stand-ins for builtins: a date is accepted when it has the
    shape dddd-dd-dd; [strip] removes nothing. *)
Definition sample_fromisoformat (s : string) : option string :=
  match list_ascii_of_string s with
  | [_; _; _; _; "-"%char; _; _; "-"%char; _; _] => Some s
  | _ => None
  end.

Definition sample_strip (s : string) : string := s.

Definition sample_request : request :=
  {| is_post := true; form_title := Some "Walk the dog"; form_due := Some "2025-09-10";
     form_clear_due := None; form_undone := None;
     arg_filter := Some "all"; arg_act := None |}.

Definition blank_request : request :=
  {| is_post := true; form_title := Some ""; form_due := Some "tomorrow";
     form_clear_due := None; form_undone := None;
     arg_filter := None; arg_act := None |}.

(** The [due] of the task can be printed: it is falsy (printed as "-") or
    a str. *)
Definition due_printable (t : Task) : Prop :=
  truthy (due t) = false \/ exists s, due t = JStr s.

(** The cells [r] are strs no longer than the widths [ws]. *)
Definition fits (ws : list nat) (r : list json) : Prop :=
  Forall2 (fun w c => exists s, c = JStr s /\ (cp_len s <= w)%nat) ws r.

(** The length of a row of cells of the widths [ws], joined by two
    blanks. *)
Fixpoint row_width (ws : list nat) : nat :=
  match ws with
  | [] => O
  | [w] => w
  | w :: ws' => (w + 2 + row_width ws')%nat
  end.

(** A file written by hand in which a pending task has a number as due
    date. *)
Definition odd_task : Task :=
  {| id := 7; title := "Odd"; completed := false;
     created_at := "2025-08-30T08:00:00Z"; due := JInt 5; completed_at := JNull |}.

Definition odd_data : Data :=
  {| next_id := JInt 8; tasks := [milk; odd_task]; extra := [] |}.

Definition odd_world : world :=
  {| file := Doc (encode odd_data); ticks := 0; writes := 0 |}.

(** A store in which the task completed last is stored last. *)
Definition water_done : Task :=
  {| id := 5; title := "Water plants"; completed := true;
     created_at := "2025-08-31T12:00:00Z"; due := JNull;
     completed_at := JStr "2025-09-02T10:00:00Z" |}.

Definition done_data : Data :=
  {| next_id := JInt 6; tasks := [milk; rent; call_ann; water_done]; extra := [] |}.

Definition done_world : world :=
  {| file := Doc (encode done_data); ticks := 1; writes := 9 |}.

(** A task with the sort key of [water], stored after it. *)
Definition plants_again : Task :=
  {| id := 6; title := "Water plants again"; completed := false;
     created_at := "2025-08-31T12:00:00Z"; due := JNull; completed_at := JNull |}.

Definition twin_data : Data :=
  {| next_id := JInt 7; tasks := [milk; rent; call_ann; water; plants_again]; extra := [] |}.

Definition twin_world : world :=
  {| file := Doc (encode twin_data); ticks := 1; writes := 9 |}.

(** ** Basic facts *)

Lemma timestamp_nonempty (k : nat) : timestamp k <> "".
Proof.
  unfold timestamp. destruct (clock k); simpl; discriminate.
Qed.

Lemma str_of_int_nonempty (z : Z) : str_of_int z <> "".
Proof.
  unfold str_of_int. destruct z as [|p|p]; simpl; try discriminate.
  pose proof (Unsigned.to_uint_nonnil p) as Hn.
  destruct (Pos.to_uint p); simpl; try discriminate. now elim Hn.
Qed.

Lemma py_str_truthy (v : json) : truthy v = true -> py_str v <> "".
Proof.
  destruct v as [|b|z|f|s|l|kvs]; simpl; intros H; try discriminate.
  - destruct b; discriminate.
  - apply str_of_int_nonempty.
  - intros ->. discriminate.
Qed.

Lemma from_dict_ok (j : json) (w w' : world) (t : Task) :
  from_dict j w = Ok t w' ->
  created_at t <> "" /\ file w' = file w /\ writes w' = writes w /\ (ticks w <= ticks w')%nat.
Proof.
  unfold from_dict, bind, lift.
  destruct (subscript j "id") as [e|i]; simpl; [discriminate|].
  destruct (py_int i) as [e|n]; simpl; [discriminate|].
  destruct (subscript j "title") as [e|ti]; simpl; [discriminate|].
  destruct (truthy (get j "created_at" JNull)) eqn:Ht; simpl; intros H; inversion H; subst; simpl.
  - repeat split; auto. now apply py_str_truthy.
  - repeat split; auto. apply timestamp_nonempty.
Qed.

Lemma from_dict_id (j : json) (w w' : world) (t : Task) :
  from_dict j w = Ok t w' -> record_id j = inr (id t).
Proof.
  unfold from_dict, record_id, bind, lift.
  destruct (subscript j "id") as [e|i]; simpl; [discriminate|].
  destruct (py_int i) as [e|n]; simpl; [discriminate|].
  destruct (subscript j "title") as [e|ti]; simpl; [discriminate|].
  destruct (truthy (get j "created_at" JNull)); simpl; intros H; inversion H; reflexivity.
Qed.


Lemma from_dict_raise (j : json) (e : exn) (w w' : world) :
  from_dict j w = Raise e w' -> file w' = file w /\ writes w' = writes w.
Proof.
  unfold from_dict, bind, lift.
  destruct (subscript j "id") as [e'|i]; simpl; [intros H; inversion H; auto|].
  destruct (py_int i) as [e'|n]; simpl; [intros H; inversion H; auto|].
  destruct (subscript j "title") as [e'|ti]; simpl; [intros H; inversion H; auto|].
  destruct (truthy (get j "created_at" JNull)); simpl; discriminate.
Qed.

Lemma mapM_from_dict_ok (l : list json) :
  forall (w w' : world) (ts : list Task),
    mapM from_dict l w = Ok ts w' ->
    Forall (fun t => created_at t <> "") ts /\
    Forall2 (fun r t => record_id r = inr (id t)) l ts /\
    file w' = file w /\ writes w' = writes w /\ (ticks w <= ticks w')%nat.
Proof.
  induction l as [|r l IH]; simpl; intros w w' ts H.
  - inversion H; subst. repeat split; auto.
  - unfold bind in H.
    destruct (from_dict r w) as [t w1|e w1] eqn:Hr; [|discriminate].
    fold (@bind (list Task) (list Task)) in H.
    destruct (mapM from_dict l w1) as [ts' w2|e w2] eqn:Hl; [|discriminate].
    inversion H; subst.
    apply from_dict_ok in Hr as Hr'. destruct Hr' as (Hc & Hf & Hw & Ht).
    destruct (IH _ _ _ Hl) as (Hc' & Hi' & Hf' & Hw' & Ht').
    repeat split; try congruence; try lia.
    + constructor; auto.
    + constructor; auto. eapply from_dict_id; eauto.
Qed.


Lemma reread_normal (t : Task) (w : world) :
  created_at t <> "" -> reread t w = Ok t w.
Proof.
  intros H. apply String.eqb_neq in H.
  unfold reread, from_dict, asdict, bind, lift; simpl.
  rewrite H; simpl. destruct t; reflexivity.
Qed.

Lemma mapM_reread (l : list Task) (w : world) :
  Forall (fun t => created_at t <> "") l -> mapM reread l w = Ok l w.
Proof.
  induction 1 as [|t l Ht Hl IH]; simpl; [reflexivity|].
  unfold bind. rewrite (reread_normal _ _ Ht).
  fold (@mapM Task Task). rewrite IH. reflexivity.
Qed.

Lemma mapM_asdict (l : list Task) (w : world) :
  mapM from_dict (map asdict l) w = mapM reread l w.
Proof.
  revert w. induction l as [|t l IH]; simpl; intros w; [reflexivity|].
  unfold bind. fold (reread t). destruct (reread t w); auto.
  fold (@mapM json Task). fold (@mapM Task Task). rewrite IH. reflexivity.
Qed.

Lemma filter_unreserved (kvs : list (string * json)) :
  Forall (fun kv => reserved (fst kv) = false) kvs ->
  filter (fun kv => negb (reserved (fst kv))) kvs = kvs.
Proof.
  induction 1 as [|kv kvs H _ IH]; simpl; [reflexivity|].
  rewrite H; simpl. now rewrite IH.
Qed.

Lemma load_data_ok (w w' : world) (d : Data) :
  load_data w = Ok d w' ->
  normal d /\ file w' = file w /\ writes w' = writes w /\ (ticks w <= ticks w')%nat.
Proof.
  unfold load_data. destruct (file w) as [| | |j] eqn:Hf.
  - intros H; inversion H; subst. unfold normal; simpl. repeat split; auto.
  - discriminate.
  - discriminate.
  - destruct j as [|b|z|f|s|l|kvs]; try discriminate.
    unfold bind, lift.
    destruct (py_iter _) as [e|recs]; simpl; [discriminate|].
    destruct (mapM from_dict recs w) as [ts w1|e w1] eqn:Hm; [|discriminate].
    intros H; inversion H; subst.
    apply mapM_from_dict_ok in Hm. destruct Hm as (Hc & _ & Hf' & Hw & Ht).
    unfold normal; simpl. repeat split; auto; try congruence.
    apply Forall_forall. intros kv Hin. apply filter_In in Hin.
    destruct Hin as [_ Hin]. now apply negb_true_iff in Hin.
Qed.

Lemma load_data_encoded (d : Data) (w : world) :
  normal d -> file w = Doc (encode d) -> load_data w = Ok d w.
Proof.
  intros [Hc He] Hf. unfold load_data. rewrite Hf. unfold encode.
  simpl. unfold bind, lift; simpl.
  rewrite mapM_asdict, (mapM_reread _ _ Hc). unfold ret.
  rewrite (filter_unreserved _ He). destruct d; reflexivity.
Qed.

Lemma load_data_saved (d : Data) (w : world) :
  normal d -> load_data (saved d w) = Ok d (saved d w).
Proof.
  intros H. now apply load_data_encoded.
Qed.

Lemma load_data_absent (w : world) :
  file w = Absent -> load_data w = Ok empty_data w.
Proof.
  intros H. unfold load_data. now rewrite H.
Qed.

(** ** The operations on a loaded collection *)

Lemma normal_with_tasks (d : Data) (ts : list Task) :
  normal d -> Forall nonempty_created ts -> normal (with_tasks d ts).
Proof.
  intros [_ He] Hc. split; assumption.
Qed.

Lemma stored_saved (d : Data) (w : world) :
  normal d -> stored (saved d w) = Some d.
Proof.
  intros H. unfold stored. now rewrite load_data_saved.
Qed.

Lemma add_task_loaded (dflt ti : string) (du : option string) (w w1 : world) (d : Data) (n : Z) :
  load_data w = Ok d w1 -> py_int (next_id d) = inr n ->
  let task := {| id := n; title := ti; completed := false; created_at := dflt;
                 due := opt_json du; completed_at := JNull |} in
  add_task dflt ti du w =
  Ok task (saved {| next_id := JInt (n + 1); tasks := tasks d ++ [task]; extra := extra d |} w1).
Proof.
  intros Hl Hn. unfold add_task, bind. rewrite Hl, Hn. reflexivity.
Qed.

Lemma delete_tasks_loaded (ids : list Z) (w w1 : world) (d : Data) :
  load_data w = Ok d w1 ->
  let ts := filter (fun t => negb (mem (id t) ids)) (tasks d) in
  delete_tasks ids w =
  Ok (Z.of_nat (List.length (tasks d)) - Z.of_nat (List.length ts)) (saved (with_tasks d ts) w1).
Proof.
  intros Hl. unfold delete_tasks, bind. rewrite Hl. reflexivity.
Qed.

Lemma clear_done_loaded (w w1 : world) (d : Data) :
  load_data w = Ok d w1 ->
  let ts := filter (fun t => negb (completed t)) (tasks d) in
  clear_tasks "done" w =
  Ok (Z.of_nat (List.length (tasks d)) - Z.of_nat (List.length ts)) (saved (with_tasks d ts) w1).
Proof.
  intros Hl. unfold clear_tasks, bind. rewrite Hl. reflexivity.
Qed.

Lemma clear_all_loaded (w w1 : world) (d : Data) :
  load_data w = Ok d w1 ->
  clear_tasks "all" w =
  Ok (Z.of_nat (List.length (tasks d)))
     (saved {| next_id := JInt 1; tasks := []; extra := extra d |} w1).
Proof.
  intros Hl. unfold clear_tasks, bind. rewrite Hl. simpl.
  unfold save_data, saved, ret. simpl. now rewrite Z.sub_0_r.
Qed.

Lemma clear_other_loaded (mode : string) (w w1 : world) (d : Data) :
  load_data w = Ok d w1 ->
  (mode =? "done")%string = false -> (mode =? "all")%string = false ->
  clear_tasks mode w = Raise ValueError w1.
Proof.
  intros Hl H1 H2. unfold clear_tasks, bind. rewrite Hl, H1, H2. reflexivity.
Qed.

Lemma apply_edit_edited (ti du : option string) (cd un : bool) (t : Task) :
  apply_edit ti du cd un t = edited ti du cd un t.
Proof.
  unfold apply_edit, edited. destruct t as [i tt c ca d cat].
  destruct ti, cd, du, un, c; reflexivity.
Qed.

Lemma mark_loop_ok (ids : list Z) (l : list Task) :
  Forall nonempty_created l ->
  forall w, exists l' w',
    mark_loop ids l w = Ok (l', changed ids l l') w' /\
    file w' = file w /\ writes w' = writes w /\ (ticks w <= ticks w')%nat /\
    Forall2 (marked ids (ticks w) (ticks w')) l l' /\
    Forall nonempty_created l'.
Proof.
  induction 1 as [|t l Ht Hl IH]; intros w; simpl.
  - exists [], w. repeat split; auto.
  - fold (to_mark ids t). destruct (to_mark ids t) eqn:Hm.
    + unfold bind at 1. unfold now_iso at 1.
      unfold bind at 1. rewrite reread_normal by exact Ht.
      destruct (IH (tick w)) as (l' & w' & Hr & Hf & Hw & Htk & Hall & Hc).
      unfold bind. rewrite Hr. simpl in *.
      exists (set_status true (JStr (timestamp (ticks w))) t :: l'), w'.
      unfold changed; simpl. rewrite Hm; simpl.
      assert (Forall2 (marked ids (ticks w) (ticks w')) (t :: l)
                (set_status true (JStr (timestamp (ticks w))) t :: l')) as HA.
      { constructor.
        - unfold marked. rewrite Hm. exists (ticks w). split; [lia|reflexivity].
        - eapply Forall2_impl; [|exact Hall]. intros a b. unfold marked.
          destruct (to_mark ids a); auto. intros (k & Hk & ->). exists k. split; [lia|auto]. }
      assert (Forall nonempty_created (set_status true (JStr (timestamp (ticks w))) t :: l'))
        as HB by (constructor; auto).
      repeat split; auto; lia.
    + destruct (IH w) as (l' & w' & Hr & Hf & Hw & Htk & Hall & Hc).
      unfold bind. rewrite Hr. simpl.
      exists (t :: l'), w'. unfold changed; simpl. rewrite Hm; simpl.
      assert (Forall2 (marked ids (ticks w) (ticks w')) (t :: l) (t :: l')) as HA.
      { constructor; auto. unfold marked. now rewrite Hm. }
      assert (Forall nonempty_created (t :: l')) as HB by (constructor; auto).
      repeat split; auto.
Qed.

Lemma mark_done_loaded (ids : list Z) (w w1 : world) (d : Data) :
  load_data w = Ok d w1 ->
  exists ts' wm,
    mark_done ids w = Ok (changed ids (tasks d) ts') (saved (with_tasks d ts') wm) /\
    writes wm = writes w /\ (ticks w1 <= ticks wm)%nat /\
    Forall2 (marked ids (ticks w1) (ticks wm)) (tasks d) ts' /\
    Forall nonempty_created ts'.
Proof.
  intros Hl. apply load_data_ok in Hl as Hd. destruct Hd as ([Hc _] & _ & Hw1 & _).
  destruct (mark_loop_ok ids (tasks d) Hc w1) as (ts' & wm & Hr & _ & Hw & Htk & Hall & Hc').
  exists ts', wm. unfold mark_done, bind. rewrite Hl, Hr. simpl.
  repeat split; auto. congruence.
Qed.

Lemma edit_loop_found (id_ : Z) (ti du : option string) (cd un : bool) (d : Data)
  (l1 l2 : list Task) (t : Task) :
  Forall (fun x => id x <> id_) l1 -> id t = id_ -> nonempty_created t ->
  forall seen w,
    edit_loop id_ ti du cd un d seen (l1 ++ t :: l2) w =
    Ok (Some (edited ti du cd un t))
       (saved (with_tasks d (seen ++ l1 ++ edited ti du cd un t :: l2)) w).
Proof.
  intros Hne Hid Hc. induction Hne as [|x l1 Hx _ IH]; intros seen w; simpl.
  - rewrite Hid, Z.eqb_refl. rewrite apply_edit_edited.
    unfold bind, save_data. rewrite reread_normal by exact Hc. reflexivity.
  - apply Z.eqb_neq in Hx. rewrite Hx. rewrite IH. now rewrite <- app_assoc.
Qed.

Lemma edit_loop_missing (id_ : Z) (ti du : option string) (cd un : bool) (d : Data)
  (l : list Task) :
  Forall (fun x => id x <> id_) l ->
  forall seen w, edit_loop id_ ti du cd un d seen l w = Ok None w.
Proof.
  induction 1 as [|x l Hx _ IH]; intros seen w; simpl; [reflexivity|].
  apply Z.eqb_neq in Hx. now rewrite Hx.
Qed.

Lemma length_filter_split {A} (f : A -> bool) (l : list A) :
  Z.of_nat (List.length l) - Z.of_nat (List.length (filter (fun x => negb (f x)) l)) =
  Z.of_nat (List.length (filter f l)).
Proof.
  induction l as [|x l IH]; [reflexivity|].
  cbn [filter]. destruct (f x); cbn [negb List.length]; rewrite ?Nat2Z.inj_succ; lia.
Qed.

Lemma Forall_filter_keep {A} (P : A -> Prop) (f : A -> bool) (l : list A) :
  Forall P l -> Forall P (filter f l).
Proof.
  induction 1 as [|x l Hx _ IH]; simpl; [constructor|].
  destruct (f x); auto.
Qed.

(** ** The operations, one by one *)

(** C2. [clear_tasks("done")] removes exactly the completed tasks and
    leaves [next_id] as it was; [clear_tasks("all")] removes every task
    and sets [next_id] to 1; both return the number of tasks removed; and an
    [add_task] after [clear_tasks("all")] returns a task with id 1. This
    holds for every content of the file that [load_data] accepts. *)
Theorem clear_tasks_spec (w w1 : world) (d : Data) :
  load_data w = Ok d w1 ->
  (exists w2,
      clear_tasks "done" w = Ok (Z.of_nat (List.length (filter completed (tasks d)))) w2 /\
      stored w2 = Some (with_tasks d (filter (fun t => negb (completed t)) (tasks d)))) /\
  (exists w2,
      clear_tasks "all" w = Ok (Z.of_nat (List.length (tasks d))) w2 /\
      stored w2 = Some {| next_id := JInt 1; tasks := []; extra := extra d |} /\
      forall dflt ti du, exists t w3, add_task dflt ti du w2 = Ok t w3 /\ id t = 1).
Proof.
  intros Hl. apply load_data_ok in Hl as Hd. destruct Hd as (Hn & _).
  split.
  - eexists. rewrite (clear_done_loaded _ _ _ Hl); cbv zeta.
    rewrite length_filter_split. split; [reflexivity|].
    apply stored_saved. apply normal_with_tasks; [exact Hn|].
    apply Forall_filter_keep, Hn.
  - assert (normal {| next_id := JInt 1; tasks := []; extra := extra d |}) as Hn'
        by (split; [constructor|apply Hn]).
    eexists. rewrite (clear_all_loaded _ _ _ Hl).
    split; [reflexivity|]. split; [now apply stored_saved|].
    intros dflt ti du. do 2 eexists.
    rewrite (add_task_loaded dflt ti du _ _ _ 1 (load_data_saved _ _ Hn') eq_refl).
    cbv zeta. split; reflexivity.
Qed.

Lemma mem_In (x : Z) (ids : list Z) : mem x ids = true <-> In x ids.
Proof.
  unfold mem. rewrite existsb_exists. split.
  - intros (y & Hy & E). apply Z.eqb_eq in E. now subst.
  - intros H. exists x. split; [exact H|apply Z.eqb_refl].
Qed.

Lemma to_mark_true (ids : list Z) (t : Task) :
  to_mark ids t = true -> In (id t) ids /\ completed t = false.
Proof.
  unfold to_mark. rewrite andb_true_iff, negb_true_iff, mem_In. tauto.
Qed.

Lemma to_mark_false (ids : list Z) (t : Task) :
  to_mark ids t = false -> ~ In (id t) ids \/ completed t = true.
Proof.
  unfold to_mark. rewrite andb_false_iff, negb_false_iff. intros [H|H]; [left|now right].
  intros Hin. apply mem_In in Hin. congruence.
Qed.

Lemma mark_loop_marks (ids : list Z) (l : list Task) :
  Forall nonempty_created l ->
  forall w, exists l' upd w',
    mark_loop ids l w = Ok (l', upd) w' /\
    marks ids (ticks w) l l' upd (ticks w') /\
    writes w' = writes w /\ Forall nonempty_created l'.
Proof.
  induction 1 as [|t l Ht Hl IH]; intros w; simpl.
  - exists [], [], w. repeat split; constructor.
  - fold (to_mark ids t). destruct (to_mark ids t) eqn:Hm.
    + apply to_mark_true in Hm. destruct Hm as [Hin Hp].
      unfold bind at 1. unfold now_iso at 1.
      unfold bind at 1. rewrite reread_normal by exact Ht.
      destruct (IH (tick w)) as (l' & upd & w' & Hr & Hms & Hw & Hc).
      unfold bind. rewrite Hr. simpl in *.
      assert (set_status true (JStr (timestamp (ticks w))) t
              = completed_task (timestamp (ticks w)) t) as E
          by (destruct t; reflexivity).
      rewrite E. do 3 eexists. split; [reflexivity|].
      split; [now apply marks_hit|]. split; [exact Hw|].
      constructor; [exact Ht|exact Hc].
    + apply to_mark_false in Hm.
      destruct (IH w) as (l' & upd & w' & Hr & Hms & Hw & Hc).
      unfold bind. rewrite Hr. simpl.
      do 3 eexists. split; [reflexivity|].
      split; [now apply marks_skip|]. split; [exact Hw|].
      constructor; [exact Ht|exact Hc].
Qed.

(** C4. [mark_done(ids)] changes exactly the stored tasks whose id is in
    [ids] and that are pending: each gets [completed = True] and, as
    [completed_at], the reading of the clock taken for it during the call,
    and keeps its other fields; every other task (already done, or with
    another id) stays as it is, and an id without a task is no error; the
    list returned holds exactly the changed tasks, as changed, in stored
    order; and the file is written once, with the tasks so changed. *)
Theorem mark_done_spec (ids : list Z) (w w1 : world) (d : Data) :
  load_data w = Ok d w1 ->
  exists ts' upd w2,
    mark_done ids w = Ok upd w2 /\
    stored w2 = Some (with_tasks d ts') /\
    marks ids (ticks w1) (tasks d) ts' upd (ticks w2) /\
    writes w2 = S (writes w).
Proof.
  intros Hl. apply load_data_ok in Hl as Hd. destruct Hd as (Hn & _ & Hw1 & _).
  destruct (mark_loop_marks ids (tasks d) (proj1 Hn) w1)
    as (ts' & upd & wm & Hr & Hms & Hw & Hc).
  exists ts', upd, (saved (with_tasks d ts') wm).
  split; [unfold mark_done, bind; rewrite Hl, Hr; reflexivity|].
  split; [apply stored_saved, normal_with_tasks; assumption|].
  split; [exact Hms|]. simpl. congruence.
Qed.

(** C5. [edit_task] on an id that is present (the first stored task with
    that id is [t]): the task is replaced by [edited ... t], that is, a
    given title replaces the title; [clear_due] makes [due] absent even
    when a [due] is given, otherwise a given [due] replaces it; [undone] on
    a completed task makes it pending and [completed_at] absent, and does
    nothing to a pending one; the file is written (once) whether or not a
    field changed, and the task as edited is returned. *)
Theorem edit_task_found (id_ : Z) (ti du : option string) (cd un : bool)
  (w w1 : world) (d : Data) (l1 l2 : list Task) (t : Task) :
  load_data w = Ok d w1 ->
  tasks d = l1 ++ t :: l2 -> Forall (fun x => id x <> id_) l1 -> id t = id_ ->
  exists w2,
    edit_task id_ ti du cd un w = Ok (Some (edited ti du cd un t)) w2 /\
    stored w2 = Some (with_tasks d (l1 ++ edited ti du cd un t :: l2)) /\
    writes w2 = S (writes w).
Proof.
  intros Hl Ht Hne Hid. apply load_data_ok in Hl as Hd. destruct Hd as (Hn & _ & Hw & _).
  assert (Forall nonempty_created (l1 ++ t :: l2)) as Hc by (rewrite <- Ht; apply Hn).
  apply Forall_app in Hc. destruct Hc as [Hc1 Hc2]. apply Forall_cons_iff in Hc2. destruct Hc2 as [Hct Hc3].
  eexists. unfold edit_task, bind. rewrite Hl, Ht.
  rewrite (edit_loop_found id_ ti du cd un d l1 l2 t Hne Hid Hct). simpl.
  split; [reflexivity|]. split; [|simpl; now rewrite Hw].
  apply stored_saved, normal_with_tasks; [exact Hn|].
  apply Forall_app. split; [exact Hc1|]. constructor; [exact Hct|exact Hc3].
Qed.

(** C6. [edit_task] on an id that no stored task has returns [None] and
    does not write: the file is the one [load_data] read. *)
Theorem edit_task_missing (id_ : Z) (ti du : option string) (cd un : bool)
  (w w1 : world) (d : Data) :
  load_data w = Ok d w1 -> Forall (fun x => id x <> id_) (tasks d) ->
  edit_task id_ ti du cd un w = Ok None w1 /\ file w1 = file w /\ writes w1 = writes w.
Proof.
  intros Hl Hne. apply load_data_ok in Hl as Hd. destruct Hd as (_ & Hf & Hw & _).
  split; [|split; assumption].
  unfold edit_task, bind. rewrite Hl. now apply edit_loop_missing.
Qed.

Lemma same_store_refl (w : world) : same_store w w.
Proof. split; reflexivity. Qed.

Lemma same_store_trans (w1 w2 w3 : world) :
  same_store w1 w2 -> same_store w2 w3 -> same_store w1 w3.
Proof. unfold same_store. intros [? ?] [? ?]. split; congruence. Qed.

Lemma from_dict_world (j : json) (w : world) : same_store w (world_of (from_dict j w)).
Proof.
  destruct (from_dict j w) as [t w'|e w'] eqn:H; simpl.
  - apply from_dict_ok in H. split; tauto.
  - apply from_dict_raise in H. exact H.
Qed.

Lemma mapM_from_dict_world (l : list json) (w : world) :
  same_store w (world_of (mapM from_dict l w)).
Proof.
  revert w. induction l as [|r l IH]; intros w; simpl; [apply same_store_refl|].
  unfold bind. pose proof (from_dict_world r w) as Hr.
  destruct (from_dict r w) as [t w1|e w1]; simpl in Hr; [|exact Hr].
  fold (@mapM json Task). pose proof (IH w1) as Hl.
  destruct (mapM from_dict l w1) as [ts w2|e w2]; simpl in *;
    eapply same_store_trans; eauto.
Qed.

Lemma load_data_world (w : world) : same_store w (world_of (load_data w)).
Proof.
  unfold load_data. destruct (file w) as [| | |j] eqn:Hf; try apply same_store_refl.
  destruct j; try apply same_store_refl.
  unfold bind. destruct (py_iter _) as [e|recs]; simpl; [apply same_store_refl|].
  pose proof (mapM_from_dict_world recs w) as H.
  destruct (mapM from_dict recs w); exact H.
Qed.


Lemma compare_refl (s : string) : (s ?= s)%string = Eq.
Proof.
  induction s as [|c s IH]; simpl; [reflexivity|].
  unfold Ascii.compare. now rewrite N.compare_refl.
Qed.

Lemma ltb_irrefl (s : string) : (s <? s)%string = false.
Proof.
  unfold String.ltb. now rewrite compare_refl.
Qed.

Lemma overdue_loop_ok (today : string) (l : list Task) :
  Forall due_ok l ->
  forall acc,
    overdue_loop today l acc =
    inr (acc + Z.of_nat (List.length (filter (is_overdue today) l))).
Proof.
  induction 1 as [|t l Ht _ IH]; intros acc; simpl.
  - f_equal. lia.
  - unfold is_overdue at 1.
    destruct Ht as [Hd|(s & Hd & Hs)]; rewrite Hd; simpl.
    + rewrite andb_false_r. simpl. apply IH.
    + apply String.eqb_neq in Hs. rewrite Hs. simpl. rewrite andb_true_r.
      destruct (completed t); simpl; [apply IH|].
      rewrite IH. destruct (s <? today)%string; cbn [List.length];
        rewrite ?Nat2Z.inj_succ; f_equal; lia.
Qed.

(** C9. [stats()]: for every collection whose due dates are absent or
    dates, and every current date, [total] is the number of tasks, [done]
    the number of completed ones, [pending] is [total - done], and
    [overdue] the number of tasks that are pending, have a due date, and
    whose due date is before today as a string; a task without due date,
    or due today, is not overdue. *)
Theorem stats_spec (today : string) (w w1 : world) (d : Data) :
  load_data w = Ok d w1 -> Forall due_ok (tasks d) ->
  stats today w =
  Ok {| total := Z.of_nat (List.length (tasks d));
        pending := Z.of_nat (List.length (tasks d))
                   - Z.of_nat (List.length (filter completed (tasks d)));
        done := Z.of_nat (List.length (filter completed (tasks d)));
        overdue := Z.of_nat (List.length (filter (is_overdue today) (tasks d))) |} w1 /\
  (forall t, due t = JNull -> is_overdue today t = false) /\
  (forall t, due t = JStr today -> is_overdue today t = false).
Proof.
  intros Hl Hd. split; [|split].
  - unfold stats, bind. rewrite Hl. rewrite (overdue_loop_ok today _ Hd 0). reflexivity.
  - intros t H. unfold is_overdue. rewrite H. apply andb_false_r.
  - intros t H. unfold is_overdue. rewrite H, ltb_irrefl. apply andb_false_r.
Qed.

(** ** Sorting *)

Lemma ascii_total : total_cmp Ascii.compare.
Proof.
  split; unfold Ascii.compare.
  - intros a b H. apply N.compare_eq_iff in H.
    rewrite <- (ascii_N_embedding a), <- (ascii_N_embedding b). now rewrite H.
  - intros a. apply N.compare_refl.
  - intros a b. apply N.compare_antisym.
  - intros a b c. rewrite !N.compare_lt_iff. apply N.lt_trans.
Qed.

Lemma string_total : total_cmp String.compare.
Proof.
  destruct ascii_total as [Aeq Arefl Aopp Atrans]. split.
  - apply String.compare_eq_iff.
  - apply compare_refl.
  - intros a b. apply String.compare_antisym.
  - induction a as [|x a IH]; intros [|y b] [|z c]; simpl; try congruence.
    destruct (Ascii.compare x y) eqn:Hxy; destruct (Ascii.compare y z) eqn:Hyz;
      try discriminate; intros H1 H2.
    + apply Aeq in Hxy, Hyz; subst. rewrite Arefl. eapply IH; eauto.
    + apply Aeq in Hxy; subst. now rewrite Hyz.
    + apply Aeq in Hyz; subst. now rewrite Hxy.
    + now rewrite (Atrans _ _ _ Hxy Hyz).
Qed.

Lemma bool_total : total_cmp Bool.compare.
Proof.
  split.
  - intros [|] [|]; simpl; congruence.
  - intros [|]; reflexivity.
  - intros [|] [|]; reflexivity.
  - intros [|] [|] [|]; simpl; congruence.
Qed.

Lemma lex_total {A B : Type} (ca : A -> A -> comparison) (cb : B -> B -> comparison) :
  total_cmp ca -> total_cmp cb -> total_cmp (lex ca cb).
Proof.
  intros [Aeq Arefl Aopp Atrans] [Beq Brefl Bopp Btrans]. split; unfold lex.
  - intros [a1 b1] [a2 b2]; simpl. destruct (ca a1 a2) eqn:Ha; try discriminate.
    intros Hb. apply Aeq in Ha. apply Beq in Hb. congruence.
  - intros [a b]; simpl. now rewrite Arefl.
  - intros [a1 b1] [a2 b2]; simpl. rewrite (Aopp a1 a2).
    destruct (ca a1 a2); simpl; auto.
  - intros [a1 b1] [a2 b2] [a3 b3]; simpl.
    destruct (ca a1 a2) eqn:H12; destruct (ca a2 a3) eqn:H23; try discriminate; intros H1 H2.
    + apply Aeq in H12, H23; subst. rewrite Arefl. eapply Btrans; eauto.
    + apply Aeq in H12; subst. now rewrite H23.
    + apply Aeq in H23; subst. now rewrite H12.
    + now rewrite (Atrans _ _ _ H12 H23).
Qed.

Lemma key_total : total_cmp key_cmp.
Proof.
  unfold key_cmp. repeat apply lex_total; auto using bool_total, string_total.
Qed.

Lemma eqb_compare (a b : string) :
  (a =? b)%string = match (a ?= b)%string with Eq => true | _ => false end.
Proof.
  destruct (a =? b)%string eqn:H.
  - apply String.eqb_eq in H. subst. now rewrite compare_refl.
  - apply String.eqb_neq in H. destruct (a ?= b)%string eqn:Hc; auto.
    apply String.compare_eq_iff in Hc. contradiction.
Qed.

(** Python's [<] on the keys is the "less" of the lexicographic comparison. *)
Lemma key_lt_cmp (x y : (bool * string) * string) :
  key_lt x y = match key_cmp x y with Lt => true | _ => false end.
Proof.
  destruct x as [[b1 d1] c1], y as [[b2 d2] c2].
  unfold key_lt, key_cmp, lex, due_eqb, due_lt, bool_lt, String.ltb; simpl.
  rewrite eqb_compare.
  destruct b1, b2; simpl; auto; destruct (d1 ?= d2)%string; auto.
Qed.

Section Insertion.
Context {K A : Type} (lt : K -> K -> bool) (cmp : K -> K -> comparison).
Hypothesis cmp_ok : total_cmp cmp.
Hypothesis lt_cmp : forall a b, lt a b = match cmp a b with Lt => true | _ => false end.

Lemma le_of_lt (p q : K * A) : lt (fst p) (fst q) = true -> key_le lt p q.
Proof.
  unfold key_le. rewrite !lt_cmp, (cmp_opp cmp cmp_ok (fst p) (fst q)).
  destruct (cmp (fst p) (fst q)); simpl; congruence.
Qed.

Lemma le_trans (p q r : K * A) : key_le lt p q -> key_le lt q r -> key_le lt p r.
Proof.
  unfold key_le. rewrite !lt_cmp.
  rewrite (cmp_opp cmp cmp_ok (fst p) (fst q)), (cmp_opp cmp cmp_ok (fst q) (fst r)),
    (cmp_opp cmp cmp_ok (fst p) (fst r)).
  destruct (cmp (fst p) (fst q)) eqn:H1; simpl; try discriminate; intros _;
    destruct (cmp (fst q) (fst r)) eqn:H2; simpl; try discriminate; intros _.
  - apply (cmp_eq cmp cmp_ok) in H1. rewrite H1, H2. reflexivity.
  - apply (cmp_eq cmp cmp_ok) in H1. rewrite H1, H2. reflexivity.
  - apply (cmp_eq cmp cmp_ok) in H2. rewrite <- H2, H1. reflexivity.
  - rewrite (cmp_trans cmp cmp_ok _ _ _ H1 H2). reflexivity.
Qed.

Lemma insert_by_perm (x : K * A) (l : list (K * A)) :
  Permutation (x :: l) (insert_by lt x l).
Proof.
  induction l as [|y l IH]; simpl; [reflexivity|].
  destruct (lt (fst y) (fst x)); [|reflexivity].
  rewrite perm_swap. now apply perm_skip.
Qed.

Lemma insert_by_sorted (x : K * A) (l : list (K * A)) :
  StronglySorted (key_le lt) l -> StronglySorted (key_le lt) (insert_by lt x l).
Proof.
  induction 1 as [|y l Hs IH Hy]; simpl.
  - repeat constructor.
  - destruct (lt (fst y) (fst x)) eqn:Hc.
    + constructor; [exact IH|].
      eapply Permutation_Forall; [apply insert_by_perm|].
      constructor; [now apply le_of_lt|exact Hy].
    + constructor; [now constructor|].
      constructor; [exact Hc|].
      eapply Forall_impl; [|exact Hy]. intros z Hz. eapply le_trans; eauto.
Qed.

Lemma sort_perm (l : list (K * A)) :
  Permutation l (fold_right (insert_by lt) [] l).
Proof.
  induction l as [|x l IH]; simpl; [reflexivity|].
  rewrite <- insert_by_perm. now apply perm_skip.
Qed.

Lemma sort_sorted (l : list (K * A)) :
  StronglySorted (key_le lt) (fold_right (insert_by lt) [] l).
Proof.
  induction l as [|x l IH]; simpl; [constructor|].
  now apply insert_by_sorted.
Qed.
End Insertion.

Lemma StronglySorted_map_in {A B : Type} (R : A -> A -> Prop) (R' : B -> B -> Prop)
  (f : A -> B) (l : list A) :
  (forall p q, In p l -> In q l -> R p q -> R' (f p) (f q)) ->
  StronglySorted R l -> StronglySorted R' (map f l).
Proof.
  intros HR Hs. induction Hs as [|a l Hs IH Ha]; simpl; [constructor|].
  constructor.
  - apply IH. intros p q Hp Hq. apply HR; now right.
  - apply Forall_map. rewrite Forall_forall in Ha |- *. intros q Hq.
    apply HR; [now left|now right|now apply Ha].
Qed.

Lemma sort_key_of_ok (t : Task) : due_ok t -> exists k, sort_key_of t = Some k.
Proof.
  unfold sort_key_of. intros [H|(s & H & _)]; rewrite H; simpl; eauto.
Qed.

Lemma decorate_ok (l : list Task) :
  Forall due_ok l ->
  exists kl, decorate sort_key_of l = Some kl /\ map snd kl = l /\
             Forall (fun p => sort_key_of (snd p) = Some (fst p)) kl.
Proof.
  induction 1 as [|t l Ht _ (kl & Hd & Hm & Hk)]; simpl.
  - exists []. repeat split; constructor.
  - destruct (sort_key_of_ok t Ht) as (k & Hkt). rewrite Hkt, Hd.
    exists ((k, t) :: kl). simpl. repeat split; [now rewrite Hm|now constructor].
Qed.


Lemma sort_by_key_ok (l : list Task) :
  Forall due_ok l ->
  exists l', sort_by sort_key_of key_lt l = inr l' /\ Permutation l' l /\
             StronglySorted key_order l'.
Proof.
  intros Hd. destruct (decorate_ok l Hd) as (kl & Hdec & Hm & Hk).
  unfold sort_by. rewrite Hdec. eexists. split; [reflexivity|].
  pose proof (sort_perm key_lt kl) as Hp.
  split.
  - rewrite <- Hm. apply Permutation_map. now symmetry.
  - eapply StronglySorted_map_in;
      [|apply (sort_sorted key_lt key_cmp key_total key_lt_cmp)].
    assert (Forall (fun p => sort_key_of (snd p) = Some (fst p))
              (fold_right (insert_by key_lt) [] kl)) as Hk'
        by (eapply Permutation_Forall; eauto).
    rewrite Forall_forall in Hk'.
    intros p q Hp' Hq' Hle ka kb Hka Hkb.
    rewrite (Hk' _ Hp') in Hka. rewrite (Hk' _ Hq') in Hkb.
    inversion Hka; inversion Hkb; subst. exact Hle.
Qed.

Lemma StronglySorted_weaken {A : Type} (P : A -> Prop) (R R' : A -> A -> Prop) (l : list A) :
  (forall a b, P a -> P b -> R a b -> R' a b) ->
  Forall P l -> StronglySorted R l -> StronglySorted R' l.
Proof.
  intros HR HP Hs. induction Hs as [|a l Hs IH Ha]; [constructor|].
  apply Forall_cons_iff in HP. destruct HP as [Pa Pl].
  constructor; [now apply IH|].
  rewrite Forall_forall in *. intros b Hb. apply HR; auto.
Qed.


(** ** Histories *)

Lemma on_disk_load (d : Data) (w : world) :
  normal d -> on_disk d (file w) -> load_data w = Ok d w.
Proof.
  intros Hn [[Hf ->]|Hf].
  - now apply load_data_absent.
  - now apply load_data_encoded.
Qed.

Lemma sound_counter (w : world) (d : Data) (n : Z) :
  on_disk d (file w) -> good n d -> counter w = Some n /\ stored w = Some d.
Proof.
  intros Hd (Hn & Hi & _). unfold counter, stored.
  rewrite (on_disk_load _ _ Hn Hd), Hi. split; reflexivity.
Qed.

Lemma sorted_snoc (l : list Task) (t : Task) :
  StronglySorted Z.lt (map id l) -> Forall (fun x => id x < id t) l ->
  StronglySorted Z.lt (map id (l ++ [t])).
Proof.
  induction l as [|x l IH]; simpl; intros Hs Hb.
  - repeat constructor.
  - apply StronglySorted_inv in Hs. destruct Hs as [Hs Hx].
    apply Forall_cons_iff in Hb. destruct Hb as [Hxt Hb].
    constructor; [now apply IH|].
    rewrite map_app. apply Forall_app. split; [exact Hx|]. simpl. now repeat constructor.
Qed.

Lemma sorted_filter (f : Task -> bool) (l : list Task) :
  StronglySorted Z.lt (map id l) -> StronglySorted Z.lt (map id (filter f l)).
Proof.
  induction l as [|x l IH]; simpl; intros Hs; [constructor|].
  apply StronglySorted_inv in Hs. destruct Hs as [Hs Hx].
  destruct (f x); simpl; [|now apply IH].
  constructor; [now apply IH|].
  rewrite Forall_forall in *. intros y Hy. apply Hx.
  apply in_map_iff in Hy. destruct Hy as (t & <- & Ht).
  apply filter_In in Ht. apply in_map. tauto.
Qed.

Lemma marked_keeps (ids : list Z) (lo hi : nat) (l l' : list Task) :
  Forall2 (marked ids lo hi) l l' ->
  map id l' = map id l /\ (Forall stamp_ok l -> Forall stamp_ok l').
Proof.
  induction 1 as [|a b l l' Hab _ [IH1 IH2]]; simpl; [split; auto|].
  unfold marked in Hab. split.
  - f_equal; [|exact IH1].
    destruct (to_mark ids a); [destruct Hab as (k & _ & ->); reflexivity|now subst].
  - intros Hs. apply Forall_cons_iff in Hs. destruct Hs as [Ha Hl].
    constructor; [|now apply IH2].
    destruct (to_mark ids a); [|now subst].
    destruct Hab as (k & _ & ->). unfold stamp_ok; simpl. split; [discriminate|reflexivity].
Qed.

Lemma first_match (id_ : Z) (l : list Task) :
  Forall (fun x => id x <> id_) l \/
  exists l1 t l2, l = l1 ++ t :: l2 /\ Forall (fun x => id x <> id_) l1 /\ id t = id_.
Proof.
  induction l as [|x l [IH|(l1 & t & l2 & -> & Hne & Hid)]].
  - left. constructor.
  - destruct (Z.eq_dec (id x) id_) as [E|E].
    + right. exists [], x, l. repeat split; auto.
    + left. now constructor.
  - right. destruct (Z.eq_dec (id x) id_) as [E|E].
    + exists [], x, (l1 ++ t :: l2). repeat split; auto.
    + exists (x :: l1), t, l2. repeat split; auto.
Qed.

Lemma stamp_ok_edited (ti du : option string) (cd un : bool) (t : Task) :
  stamp_ok t -> stamp_ok (edited ti du cd un t).
Proof.
  unfold stamp_ok, edited; simpl. intros [H1 H2].
  destruct un; simpl; [|tauto].
  destruct (completed t) eqn:Hc.
  - split; [discriminate|congruence].
  - split; [discriminate|]. intros Hne. apply H2 in Hne. discriminate.
Qed.

Lemma lift_world {A} (r : exn + A) (w : world) : world_of (lift r w) = w.
Proof. destruct r; reflexivity. Qed.

Lemma list_tasks_world (kind : string) (w : world) (d : Data) :
  normal d -> load_data w = Ok d w -> world_of (list_tasks kind w) = w.
Proof.
  intros [Hc _] Hl. unfold list_tasks, bind. rewrite Hl, (mapM_reread _ _ Hc).
  destruct (_ || _); [apply lift_world|].
  destruct (kind =? "done")%string; [apply lift_world|reflexivity].
Qed.

Lemma stats_world (today : string) (w : world) (d : Data) :
  load_data w = Ok d w -> world_of (stats today w) = w.
Proof.
  intros Hl. unfold stats, bind. rewrite Hl.
  destruct (overdue_loop today (tasks d) 0); reflexivity.
Qed.

Lemma exec_good (dflt : string) (c : call) (w : world) (d : Data) (n : Z) :
  dflt <> "" -> on_disk d (file w) -> good n d ->
  exists d' n',
    on_disk d' (file (snd (exec dflt c w))) /\ good n' d' /\
    step_spec dflt c n (fst (exec dflt c w)) n'.
Proof.
  intros Hdf Hd Hg. pose proof Hg as (Hn & Hi & H1 & Hs & Hb & Hst).
  pose proof (on_disk_load _ _ Hn Hd) as Hl.
  assert (py_int (next_id d) = inr n) as Hpi by (rewrite Hi; reflexivity).
  destruct c as [ti du|ids|ids|i ti du cd un|mode|kind|today]; unfold exec, answer.
  - (* add_task *)
    rewrite (add_task_loaded dflt ti du w w d n Hl Hpi). cbv zeta. simpl.
    set (task := {| id := n; title := ti; completed := false; created_at := dflt;
                    due := opt_json du; completed_at := JNull |}).
    exists {| next_id := JInt (n + 1); tasks := tasks d ++ [task]; extra := extra d |}, (n + 1).
    split; [now right|]. split; [|split; reflexivity].
    unfold good; simpl. destruct Hn as [Hc He].
    repeat split; auto; try lia.
    + apply Forall_app. split; [exact Hc|]. now repeat constructor.
    + apply sorted_snoc; [exact Hs|]. simpl.
      eapply Forall_impl; [|exact Hb]. simpl. intros; lia.
    + apply Forall_app. split.
      * eapply Forall_impl; [|exact Hb]. simpl. intros; lia.
      * repeat constructor; simpl; lia.
    + apply Forall_app. split; [exact Hst|].
      repeat constructor; unfold stamp_ok; simpl; [discriminate|congruence].
  - (* mark_done *)
    destruct (mark_done_loaded ids w w d Hl) as (ts' & wm & Hm & _ & _ & Hall & Hc').
    rewrite Hm. simpl.
    destruct (marked_keeps _ _ _ _ _ Hall) as [Hid Hst'].
    exists (with_tasks d ts'), n. split; [now right|]. split; [|reflexivity].
    unfold good; simpl. repeat split; auto; try apply Hn.
    + now rewrite Hid.
    + apply Forall_forall. intros t Ht.
      assert (In (id t) (map id (tasks d))) as Hin by (rewrite <- Hid; now apply in_map).
      apply in_map_iff in Hin. destruct Hin as (t0 & E & Ht0).
      rewrite Forall_forall in Hb. rewrite <- E. now apply Hb.
  - (* delete_tasks *)
    rewrite (delete_tasks_loaded ids w w d Hl). cbv zeta. simpl.
    eexists (with_tasks d _), n. split; [right; reflexivity|]. split; [|reflexivity].
    unfold good; simpl. destruct Hn as [Hc He].
    split; [split; [apply Forall_filter_keep, Hc|exact He]|].
    repeat split; auto; try lia; try (now apply sorted_filter);
      now apply Forall_filter_keep.
  - (* edit_task *)
    destruct (first_match i (tasks d)) as [Hne|(l1 & t & l2 & Ht & Hne & Hid)].
    + unfold edit_task, bind. rewrite Hl.
      rewrite (edit_loop_missing i ti du cd un d (tasks d) Hne). simpl.
      exists d, n. split; [exact Hd|]. split; [exact Hg|reflexivity].
    + assert (nonempty_created t) as Hct.
      { destruct Hn as [Hc _]. rewrite Ht in Hc. apply Forall_app in Hc.
        destruct Hc as [_ Hc]. now apply Forall_cons_iff in Hc. }
      unfold edit_task, bind. rewrite Hl, Ht.
      rewrite (edit_loop_found i ti du cd un d l1 l2 t Hne Hid Hct). simpl.
      exists (with_tasks d (l1 ++ edited ti du cd un t :: l2)), n.
      split; [now right|]. split; [|reflexivity].
      rewrite Ht in Hs, Hb, Hst. destruct Hn as [Hc Hx]. rewrite Ht in Hc.
      unfold good; simpl. repeat split; auto.
      * apply Forall_app in Hc. destruct Hc as [Hc1 Hc2].
        apply Forall_cons_iff in Hc2. apply Forall_app. split; [exact Hc1|].
        constructor; [apply Hc2|apply Hc2].
      * rewrite map_app in *. exact Hs.
      * apply Forall_app in Hb. destruct Hb as [Hb1 Hb2].
        apply Forall_cons_iff in Hb2. apply Forall_app. split; [exact Hb1|].
        constructor; [apply Hb2|apply Hb2].
      * apply Forall_app in Hst. destruct Hst as [Hs1 Hs2].
        apply Forall_cons_iff in Hs2. apply Forall_app. split; [exact Hs1|].
        constructor; [apply stamp_ok_edited, Hs2|apply Hs2].
  - (* clear_tasks *)
    simpl. destruct (mode =? "all")%string eqn:Hall.
    + apply String.eqb_eq in Hall. subst mode.
      rewrite (clear_all_loaded w w d Hl). simpl.
      exists {| next_id := JInt 1; tasks := []; extra := extra d |}, 1.
      split; [now right|]. split; [|reflexivity].
      unfold good, normal; simpl. repeat split; auto; try constructor; try lia. apply Hn.
    + destruct (mode =? "done")%string eqn:Hdone.
      * apply String.eqb_eq in Hdone. subst mode.
        rewrite (clear_done_loaded w w d Hl). cbv zeta. simpl.
        eexists (with_tasks d _), n. split; [right; reflexivity|]. split; [|reflexivity].
        unfold good; simpl. destruct Hn as [Hc He].
        split; [split; [apply Forall_filter_keep, Hc|exact He]|].
        repeat split; auto; try lia; try (now apply sorted_filter);
          now apply Forall_filter_keep.
      * rewrite (clear_other_loaded mode w w d Hl Hdone Hall). simpl.
        exists d, n. split; [exact Hd|]. split; [exact Hg|reflexivity].
  - (* list_tasks *)
    pose proof (list_tasks_world kind w d Hn Hl) as Hw.
    destruct (list_tasks kind w); simpl in *; subst;
      exists d, n; (split; [exact Hd|]); (split; [exact Hg|reflexivity]).
  - (* stats *)
    pose proof (stats_world today w d Hl) as Hw.
    destruct (stats today w); simpl in *; subst;
      exists d, n; (split; [exact Hd|]); (split; [exact Hg|reflexivity]).
Qed.

Lemma issues_ok_step (dflt : string) (c : call) (w : world) (d d' : Data) (n n' : Z) :
  on_disk d (file w) -> good n d ->
  on_disk d' (file (snd (exec dflt c w))) -> good n' d' ->
  step_spec dflt c n (fst (exec dflt c w)) n' ->
  issues_ok {| ev_call := c; ev_before := w; ev_response := fst (exec dflt c w);
               ev_after := snd (exec dflt c w) |}.
Proof.
  intros Hd Hg Hd' Hg' Hs. exists n, n'. simpl.
  split; [eapply sound_counter; eauto|]. split; [eapply sound_counter; eauto|].
  destruct c; simpl in *; auto.
  - destruct Hs as [-> ->]. eexists. repeat split.
  - destruct (mode =? "all")%string; [|exact Hs]. split; [exact Hs|]. subst n'.
    intros dflt' ti du. do 2 eexists.
    destruct Hg' as (Hn' & Hi' & _).
    rewrite (add_task_loaded dflt' ti du _ _ d' 1 (on_disk_load _ _ Hn' Hd'));
      [|rewrite Hi'; reflexivity].
    split; reflexivity.
Qed.

Lemma sorted_app_bounds (l1 l2 : list Task) (m : Z) :
  StronglySorted Z.lt (map id l1) -> StronglySorted Z.lt (map id l2) ->
  Forall (fun t => id t < m) l1 -> Forall (fun t => m <= id t) l2 ->
  StronglySorted Z.lt (map id (l1 ++ l2)).
Proof.
  induction l1 as [|x l1 IH]; simpl; intros H1 H2 B1 B2; [exact H2|].
  apply StronglySorted_inv in H1. destruct H1 as [H1 Hx].
  apply Forall_cons_iff in B1. destruct B1 as [Bx B1].
  constructor; [now apply IH|].
  rewrite map_app. apply Forall_app. split; [exact Hx|].
  apply Forall_map. eapply Forall_impl; [|exact B2]. simpl. intros; lia.
Qed.

Lemma run_calls_good (dflt : string) (cs : list call) :
  dflt <> "" ->
  forall w d n,
    on_disk d (file w) -> good n d ->
    exists d' n',
      on_disk d' (file (snd (run_calls dflt cs w))) /\ good n' d' /\
      Forall issues_ok (fst (run_calls dflt cs w)) /\
      linked (Some n) (fst (run_calls dflt cs w)) /\
      end_counter (Some n) (fst (run_calls dflt cs w)) = Some n' /\
      Forall (fresh dflt) (added (fst (run_calls dflt cs w))) /\
      (no_full_clear cs = true ->
       n <= n' /\
       StronglySorted Z.lt (map id (added (fst (run_calls dflt cs w)))) /\
       Forall (fun t => n <= id t < n') (added (fst (run_calls dflt cs w)))).
Proof.
  intros Hdf. induction cs as [|c cs IH]; intros w d n Hd Hg; simpl.
  - exists d, n. split; [exact Hd|]. split; [exact Hg|]. split; [constructor|].
    split; [exact I|]. split; [reflexivity|]. split; [constructor|].
    intros _. split; [lia|]. split; constructor.
  - destruct (exec_good dflt c w d n Hdf Hd Hg) as (d1 & n1 & Hd1 & Hg1 & Hs).
    destruct (IH _ _ _ Hd1 Hg1) as (d' & n' & Hd' & Hg' & Hi & Hli & He & Hfr & Hnc).
    pose proof (issues_ok_step dflt c w d d1 n n1 Hd Hg Hd1 Hg1 Hs) as Hev.
    destruct (sound_counter _ _ _ Hd Hg) as [Hc0 _].
    destruct (sound_counter _ _ _ Hd1 Hg1) as [Hc1 _].
    exists d', n'. split; [exact Hd'|]. split; [exact Hg'|].
    split; [constructor; assumption|].
    split; [split; [exact Hc0|now rewrite Hc1]|].
    split; [now rewrite Hc1|].
    split.
    + destruct c; simpl in *; auto.
      destruct Hs as [-> _]. constructor; [now repeat split|exact Hfr].
    + intros Hno. apply andb_true_iff in Hno. destruct Hno as [Hc Hno].
      destruct (Hnc Hno) as (Hle & Hso & Hbd).
      destruct c; simpl in *; subst; auto.
      * destruct Hs as [-> ->]. split; [lia|]. split.
        -- constructor; [exact Hso|]. apply Forall_map.
           eapply Forall_impl; [|exact Hbd]. simpl. intros; lia.
        -- constructor; [simpl; lia|].
           eapply Forall_impl; [|exact Hbd]. simpl. intros; lia.
      * destruct (mode =? "all")%string; [discriminate|]. subst. auto.
Qed.

Lemma added_app (l1 l2 : list event) : added (l1 ++ l2) = added l1 ++ added l2.
Proof.
  induction l1 as [|ev l1 IH]; simpl; [reflexivity|].
  destruct (ev_call ev); auto. destruct (ev_response ev); auto.
  simpl. now rewrite IH.
Qed.

Lemma linked_app (c0 : option Z) (l1 l2 : list event) :
  linked c0 l1 -> linked (end_counter c0 l1) l2 -> linked c0 (l1 ++ l2).
Proof.
  revert c0. induction l1 as [|ev l1 IH]; simpl; intros c0; [auto|].
  intros [H1 H2] H3. split; auto.
Qed.

Lemma end_counter_app (c0 : option Z) (l1 l2 : list event) :
  end_counter c0 (l1 ++ l2) = end_counter (end_counter c0 l1) l2.
Proof.
  revert c0. induction l1 as [|ev l1 IH]; simpl; auto.
Qed.

Lemma run_history_good (ps : list (list call)) :
  forall w d n,
    on_disk d (file w) -> good n d ->
    exists d' n',
      on_disk d' (file (snd (run_history ps w))) /\ good n' d' /\
      Forall issues_ok (fst (run_history ps w)) /\
      linked (Some n) (fst (run_history ps w)) /\
      end_counter (Some n) (fst (run_history ps w)) = Some n' /\
      Forall (fun t => completed t = false /\ completed_at t = JNull)
             (added (fst (run_history ps w))) /\
      (forallb no_full_clear ps = true ->
       n <= n' /\
       StronglySorted Z.lt (map id (added (fst (run_history ps w)))) /\
       Forall (fun t => n <= id t < n') (added (fst (run_history ps w)))).
Proof.
  induction ps as [|cs ps IH]; intros w d n Hd Hg; simpl.
  - exists d, n. split; [exact Hd|]. split; [exact Hg|]. split; [constructor|].
    split; [exact I|]. split; [reflexivity|]. split; [constructor|].
    intros _. split; [lia|]. split; constructor.
  - unfold run_process, import_todo, now_iso.
    destruct (run_calls_good (timestamp (ticks w)) cs (timestamp_nonempty _) (tick w) d n Hd Hg)
      as (d1 & n1 & Hd1 & Hg1 & Hi1 & Hl1 & He1 & Hf1 & Hn1).
    destruct (IH _ _ _ Hd1 Hg1) as (d' & n' & Hd' & Hg' & Hi2 & Hl2 & He2 & Hf2 & Hn2).
    exists d', n'. split; [exact Hd'|]. split; [exact Hg'|].
    split; [apply Forall_app; split; assumption|].
    split; [apply linked_app; [exact Hl1|now rewrite He1]|].
    split; [now rewrite end_counter_app, He1|].
    split.
    + rewrite added_app. apply Forall_app. split; [|exact Hf2].
      eapply Forall_impl; [|exact Hf1]. intros t (_ & H1 & H2). now split.
    + intros Hno. apply andb_true_iff in Hno. destruct Hno as [Hc Hno].
      destruct (Hn1 Hc) as (Hle1 & Hso1 & Hb1). destruct (Hn2 Hno) as (Hle2 & Hso2 & Hb2).
      split; [lia|]. rewrite added_app. split.
      * apply sorted_app_bounds with (m := n1); auto.
        -- eapply Forall_impl; [|exact Hb1]. simpl. intros; lia.
        -- eapply Forall_impl; [|exact Hb2]. simpl. intros; lia.
      * apply Forall_app. split.
        -- eapply Forall_impl; [|exact Hb1]. simpl. intros; lia.
        -- eapply Forall_impl; [|exact Hb2]. simpl. intros; lia.
Qed.

Lemma good_empty : good 1 empty_data.
Proof.
  unfold good, normal; simpl. repeat split; try constructor; lia.
Qed.

Lemma on_disk_absent (w : world) : file w = Absent -> on_disk empty_data (file w).
Proof. intros H. left. now split. Qed.

(** C1. In every history of calls (adds, deletes, mark-done, edits,
    clears, and the queries) that starts without a file: each [add_task]
    issues the id that the counter [next_id] shows and leaves the counter
    one higher; no other call changes the counter, except
    [clear_tasks("all")], which sets it to 1, after which an [add_task]
    issues id 1; each call starts with the counter the call before it left;
    the ids of the stored tasks are strictly increasing in stored order, so
    distinct; and in a history without [clear_tasks("all")] the ids issued
    are strictly increasing in call order, so none is issued twice. *)
Theorem ids_unique_monotone (ps : list (list call)) (w0 : world) :
  file w0 = Absent ->
  Forall issues_ok (fst (run_history ps w0)) /\
  linked (Some 1) (fst (run_history ps w0)) /\
  (exists ts, stored_tasks (snd (run_history ps w0)) = Some ts /\
              StronglySorted Z.lt (map id ts)) /\
  (forallb no_full_clear ps = true ->
   StronglySorted Z.lt (map id (added (fst (run_history ps w0))))).
Proof.
  intros H0.
  destruct (run_history_good ps w0 empty_data 1 (on_disk_absent _ H0) good_empty)
    as (d & n & Hd & Hg & Hi & Hl & _ & _ & Hn).
  split; [exact Hi|]. split; [exact Hl|]. split.
  - exists (tasks d). destruct (sound_counter _ _ _ Hd Hg) as [_ Hs].
    unfold stored_tasks. rewrite Hs. split; [reflexivity|apply Hg].
  - intros Hno. now apply Hn.
Qed.

(** C7. In every collection reached from no file by a history of calls,
    every task has [completed_at] present if and only if it is completed;
    and every task [add_task] returned is pending with [completed_at]
    absent. *)
Theorem completed_at_iff_completed (ps : list (list call)) (w0 : world) :
  file w0 = Absent ->
  (exists ts, stored_tasks (snd (run_history ps w0)) = Some ts /\ Forall stamp_ok ts) /\
  Forall (fun t => completed t = false /\ completed_at t = JNull)
         (added (fst (run_history ps w0))).
Proof.
  intros H0.
  destruct (run_history_good ps w0 empty_data 1 (on_disk_absent _ H0) good_empty)
    as (d & n & Hd & Hg & _ & _ & _ & Hf & _).
  split; [|exact Hf].
  exists (tasks d). destruct (sound_counter _ _ _ Hd Hg) as [_ Hs].
  unfold stored_tasks. rewrite Hs. split; [reflexivity|apply Hg].
Qed.

Lemma add_task_created_at (dflt ti : string) (du : option string) (w w' : world) (t : Task) :
  add_task dflt ti du w = Ok t w' -> created_at t = dflt.
Proof.
  unfold add_task, bind, save_data, ret.
  destruct (load_data w) as [d w1|e w1]; [|discriminate].
  destruct (lift (py_int (next_id d)) w1) as [n w2|e w2]; [|discriminate].
  intros H. inversion H. reflexivity.
Qed.

Lemma run_calls_created_at (dflt : string) (cs : list call) (w : world) :
  Forall (fun t => created_at t = dflt) (added (fst (run_calls dflt cs w))).
Proof.
  revert w. induction cs as [|c cs IH]; intros w; simpl; [constructor|].
  destruct c; simpl; auto. unfold answer.
  destruct (add_task dflt title_ due_ w) as [t w1|e w1] eqn:Ha; simpl; auto.
  constructor; [eapply add_task_created_at; eauto|apply IH].
Qed.

(** C10. Every task that [add_task] creates in one process has the same
    [created_at]: the timestamp read when the process imported the module
    (the class statement of [Task] evaluates the default once), whatever
    the clock shows when the calls are made. *)
Theorem created_at_fixed_at_import (cs : list call) (w : world) :
  Forall (fun t => created_at t = timestamp (ticks w)) (added (fst (run_process cs w))) /\
  (forall t1 t2,
      In t1 (added (fst (run_process cs w))) -> In t2 (added (fst (run_process cs w))) ->
      created_at t1 = created_at t2).
Proof.
  assert (Forall (fun t => created_at t = timestamp (ticks w))
                 (added (fst (run_process cs w)))) as H
      by (unfold run_process, import_todo, now_iso; apply run_calls_created_at).
  split; [exact H|]. rewrite Forall_forall in H.
  intros t1 t2 H1 H2. rewrite (H _ H1), (H _ H2). reflexivity.
Qed.

(** ** Further properties of the store *)

Lemma list_tasks_any_world (kind : string) (w : world) :
  same_store w (world_of (list_tasks kind w)).
Proof.
  unfold list_tasks, bind. pose proof (load_data_world w) as Hl.
  destruct (load_data w) as [d w1|e w1] eqn:Hd; simpl in Hl; [|exact Hl].
  apply load_data_ok in Hd. destruct Hd as ([Hc _] & _).
  rewrite (mapM_reread _ _ Hc).
  destruct (_ || _); [now rewrite lift_world|].
  destruct (kind =? "done")%string; [now rewrite lift_world|exact Hl].
Qed.

Lemma stats_any_world (today : string) (w : world) :
  same_store w (world_of (stats today w)).
Proof.
  unfold stats, bind. pose proof (load_data_world w) as Hl.
  destruct (load_data w) as [d w1|e w1]; simpl in Hl; [|exact Hl].
  destruct (overdue_loop today (tasks d) 0); exact Hl.
Qed.

(** X1. Saving the collection that [load_data] returned and loading it
    again returns the same collection, without reading the clock: what
    [save_data] writes is already normalised. *)
Theorem save_load_round_trip (w w1 : world) (d : Data) :
  load_data w = Ok d w1 ->
  exists w2, save_data d w1 = Ok tt w2 /\ load_data w2 = Ok d w2.
Proof.
  intros Hl. apply load_data_ok in Hl. destruct Hl as (Hn & _).
  exists (saved d w1). split; [reflexivity|]. now apply load_data_saved.
Qed.

(** X2. The queries never write: whatever the file holds, and whether
    they return or raise, [load_data], [list_tasks] and [stats] leave the
    file as it is. *)
Theorem queries_never_write (kind today : string) (w : world) :
  same_store w (world_of (load_data w)) /\
  same_store w (world_of (list_tasks kind w)) /\
  same_store w (world_of (stats today w)).
Proof.
  split; [apply load_data_world|].
  split; [apply list_tasks_any_world|apply stats_any_world].
Qed.

(** X3. [Task.from_dict(asdict(t))] is [t] and reads no clock when
    [created_at] is not empty; when it is empty, [from_dict] replaces it by
    the current timestamp. *)
Theorem from_dict_asdict (t : Task) (w : world) :
  from_dict (asdict t) w =
  if (created_at t =? "")%string
  then Ok {| id := id t; title := title t; completed := completed t;
             created_at := timestamp (ticks w); due := due t;
             completed_at := completed_at t |} (tick w)
  else Ok t w.
Proof.
  destruct (created_at t =? "")%string eqn:E.
  - unfold from_dict, asdict, bind, lift; simpl. rewrite E. reflexivity.
  - apply String.eqb_neq in E. now apply reread_normal.
Qed.

(** X4. The edge cases of [Task.from_dict]: anything but a dict raises
    TypeError; a dict without "id" raises KeyError("id"), and one with an
    integer id but without "title" KeyError("title"); a dict that has only
    an integer id and a title gets the defaults: pending, no due date, no
    completion time, and the current timestamp as [created_at]. *)
Theorem from_dict_edges (w : world) :
  (forall j, (forall kvs, j <> JObj kvs) -> from_dict j w = Raise TypeError w) /\
  (forall kvs, dict_get "id" kvs = None ->
               from_dict (JObj kvs) w = Raise (KeyError "id") w) /\
  (forall kvs i, dict_get "id" kvs = Some (JInt i) -> dict_get "title" kvs = None ->
                 from_dict (JObj kvs) w = Raise (KeyError "title") w) /\
  (forall i s,
      from_dict (JObj [("id", JInt i); ("title", JStr s)]) w =
      Ok {| id := i; title := s; completed := false; created_at := timestamp (ticks w);
            due := JNull; completed_at := JNull |} (tick w)).
Proof.
  repeat split.
  - intros j Hj. unfold from_dict, bind, lift.
    destruct j; try reflexivity. now elim (Hj kvs).
  - intros kvs H. unfold from_dict, bind, lift; simpl. now rewrite H.
  - intros kvs i H1 H2. unfold from_dict, bind, lift; simpl. now rewrite H1, H2.
Qed.

Lemma filter_filter_same {A} (f : A -> bool) (l : list A) :
  filter f (filter f l) = filter f l.
Proof.
  induction l as [|x l IH]; simpl; [reflexivity|].
  destruct (f x) eqn:E; simpl; [rewrite E|]; now rewrite ?IH.
Qed.

(** X5. [delete_tasks(ids)] returns the number of stored tasks whose id is
    in [ids], keeps the others in their order, leaves [next_id] as it is,
    and writes the file once, also when no task matched. *)
Theorem delete_tasks_spec (ids : list Z) (w w1 : world) (d : Data) :
  load_data w = Ok d w1 ->
  exists w2,
    delete_tasks ids w
    = Ok (Z.of_nat (List.length (filter (fun t => mem (id t) ids) (tasks d)))) w2 /\
    stored w2 = Some (with_tasks d (filter (fun t => negb (mem (id t) ids)) (tasks d))) /\
    writes w2 = S (writes w).
Proof.
  intros Hl. apply load_data_ok in Hl as Hd. destruct Hd as (Hn & _ & Hw & _).
  eexists. rewrite (delete_tasks_loaded ids _ _ _ Hl). cbv zeta.
  rewrite (length_filter_split (fun t => mem (id t) ids)).
  split; [reflexivity|]. split; [|simpl; now rewrite Hw].
  apply stored_saved, normal_with_tasks; [exact Hn|]. apply Forall_filter_keep, Hn.
Qed.

(** X6. Deleting the same ids a second time removes nothing: it returns
    0 and leaves the stored collection as the first call left it. *)
Theorem delete_tasks_twice (ids : list Z) (w w1 : world) (d : Data) :
  load_data w = Ok d w1 ->
  exists k w2 w3,
    delete_tasks ids w = Ok k w2 /\
    delete_tasks ids w2 = Ok 0 w3 /\
    stored w3 = stored w2.
Proof.
  intros Hl. apply load_data_ok in Hl as Hd. destruct Hd as (Hn & _).
  set (ts := filter (fun t => negb (mem (id t) ids)) (tasks d)).
  assert (normal (with_tasks d ts)) as Hn'
      by (apply normal_with_tasks; [exact Hn|apply Forall_filter_keep, Hn]).
  assert (filter (fun t => negb (mem (id t) ids)) ts = ts) as Hff
      by apply filter_filter_same.
  do 3 eexists. rewrite (delete_tasks_loaded ids _ _ _ Hl). cbv zeta. fold ts.
  split; [reflexivity|].
  rewrite (delete_tasks_loaded ids _ _ _ (load_data_saved _ _ Hn')). cbv zeta.
  simpl tasks. rewrite Hff, Z.sub_diag. split; [reflexivity|].
  unfold with_tasks at 1; simpl. fold (with_tasks d ts).
  rewrite !stored_saved; auto.
Qed.

Lemma mark_loop_none (ids : list Z) (l : list Task) (w : world) :
  Forall (fun t => to_mark ids t = false) l -> mark_loop ids l w = Ok (l, []) w.
Proof.
  induction 1 as [|t l Ht _ IH]; simpl; [reflexivity|].
  unfold to_mark in Ht. rewrite Ht. unfold bind. rewrite IH. reflexivity.
Qed.

Lemma marked_settled (ids : list Z) (lo hi : nat) (l l' : list Task) :
  Forall2 (marked ids lo hi) l l' -> Forall (fun t => to_mark ids t = false) l'.
Proof.
  induction 1 as [|a b l l' Hab _ IH]; constructor; auto.
  unfold marked in Hab. destruct (to_mark ids a) eqn:E.
  - destruct Hab as (k & _ & ->). unfold to_mark; simpl. apply andb_false_r.
  - now subst.
Qed.

(** X7. [mark_done] is idempotent: a second call with the same ids
    changes nothing and returns the empty list; it reads no clock, so the
    completion times of the first call stay; it still writes the file. *)
Theorem mark_done_twice (ids : list Z) (w w1 : world) (d : Data) :
  load_data w = Ok d w1 ->
  exists l w2 w3,
    mark_done ids w = Ok l w2 /\
    mark_done ids w2 = Ok [] w3 /\
    stored w3 = stored w2 /\ ticks w3 = ticks w2 /\ writes w3 = S (writes w2).
Proof.
  intros Hl. apply load_data_ok in Hl as Hd. destruct Hd as (Hn & _).
  destruct (mark_done_loaded ids _ _ _ Hl) as (ts' & wm & Hm & _ & _ & Hall & Hc).
  assert (normal (with_tasks d ts')) as Hn' by (now apply normal_with_tasks).
  exists (changed ids (tasks d) ts'), (saved (with_tasks d ts') wm).
  exists (saved (with_tasks d ts') (saved (with_tasks d ts') wm)).
  split; [exact Hm|].
  split.
  - unfold mark_done, bind. rewrite (load_data_saved _ _ Hn'). simpl tasks.
    rewrite (mark_loop_none _ _ _ (marked_settled _ _ _ _ _ Hall)). reflexivity.
  - rewrite !stored_saved; auto.
Qed.



Lemma length_pending (l : list Task) :
  Z.of_nat (List.length l) - Z.of_nat (List.length (filter completed l)) =
  Z.of_nat (List.length (filter (fun t => negb (completed t)) l)).
Proof.
  induction l as [|x l IH]; [reflexivity|].
  cbn [filter]. destruct (completed x); cbn [negb List.length]; rewrite ?Nat2Z.inj_succ; lia.
Qed.

Lemma overdue_loop_bound (today : string) (l : list Task) :
  forall acc r,
    overdue_loop today l acc = inr r ->
    acc <= r <= acc + Z.of_nat (List.length (filter (fun t => negb (completed t)) l)).
Proof.
  induction l as [|t l IH]; intros acc r H.
  - inversion H. simpl. lia.
  - cbn [overdue_loop filter] in *. destruct (completed t); cbn [negb andb] in *.
    + apply IH in H. lia.
    + cbn [List.length]. rewrite Nat2Z.inj_succ. destruct (truthy (due t)).
      * destruct (lt_str (due t) today) as [e|b]; [discriminate|].
        apply IH in H. destruct b; lia.
      * apply IH in H. lia.
Qed.

(** X9. Whenever [stats] returns, whatever the file holds: [pending] and
    [done] add up to [total], none is negative, and [overdue] lies between
    0 and [pending]. *)
Theorem stats_counts_consistent (today : string) (w w' : world) (s : Stats) :
  stats today w = Ok s w' ->
  pending s + done s = total s /\ 0 <= done s /\ 0 <= pending s /\
  0 <= overdue s <= pending s.
Proof.
  unfold stats, bind. destruct (load_data w) as [d w1|e w1]; [|discriminate].
  destruct (overdue_loop today (tasks d) 0) as [e|r] eqn:Ho; simpl; [discriminate|].
  intros H. inversion H; subst; simpl. apply overdue_loop_bound in Ho.
  pose proof (length_pending (tasks d)). lia.
Qed.

Lemma overdue_loop_bad (today : string) (l : list Task) :
  Exists bad_due l -> forall acc, overdue_loop today l acc = inl TypeError.
Proof.
  induction l as [|t l IH]; intros Hex acc; [inversion Hex|]. simpl.
  destruct (negb (completed t) && truthy (due t)) eqn:Hc.
  - destruct (due t) eqn:Hd; simpl; try reflexivity.
    apply IH. apply Exists_cons in Hex. destruct Hex as [(_ & _ & Hb)|Hex]; [|exact Hex].
    now elim (Hb s).
  - apply IH. apply Exists_cons in Hex. destruct Hex as [(H1 & H2 & _)|Hex]; [|exact Hex].
    rewrite H1, H2 in Hc. discriminate.
Qed.

(** X10. If some pending task has a due value that is truthy and not a
    str (possible only in a file written by hand), [stats] raises
    TypeError, and writes nothing. *)
Theorem stats_type_error (today : string) (w w1 : world) (d : Data) :
  load_data w = Ok d w1 -> Exists bad_due (tasks d) ->
  stats today w = Raise TypeError w1 /\ same_store w w1.
Proof.
  intros Hl Hex. split.
  - unfold stats, bind. rewrite Hl. now rewrite (overdue_loop_bad today _ Hex 0).
  - apply load_data_ok in Hl. split; tauto.
Qed.

Lemma decorate_snd {K} (key : Task -> option K) (l : list Task) (kl : list (K * Task)) :
  decorate key l = Some kl ->
  map snd kl = l /\ Forall (fun p => key (snd p) = Some (fst p)) kl.
Proof.
  revert kl. induction l as [|t l IH]; simpl; intros kl H.
  - inversion H. split; constructor.
  - destruct (key t) as [k|] eqn:Hk; [|discriminate].
    destruct (decorate key l) as [kl'|]; [|discriminate].
    inversion H; subst. destruct (IH _ eq_refl) as [H1 H2]. simpl.
    split; [now rewrite H1|]. constructor; auto.
Qed.

Lemma sort_by_perm {K} (key : Task -> option K) (lt : K -> K -> bool) (l l' : list Task) :
  sort_by key lt l = inr l' -> Permutation l' l.
Proof.
  unfold sort_by. destruct (decorate key l) as [kl|] eqn:Hd; [|discriminate].
  intros H. inversion H; subst. apply decorate_snd in Hd. destruct Hd as [Hm _].
  rewrite <- Hm. apply Permutation_map. symmetry. apply sort_perm.
Qed.

Lemma list_tasks_loaded (kind : string) (w w1 : world) (d : Data) :
  load_data w = Ok d w1 ->
  list_tasks kind w =
  (if (kind =? "pending")%string || (kind =? "all")%string
   then lift (sort_by sort_key_of key_lt (selected kind (tasks d)))
   else if (kind =? "done")%string
        then lift (sort_by done_key_of (fun a b => (b <? a)%string) (selected kind (tasks d)))
        else ret (selected kind (tasks d))) w1.
Proof.
  intros Hl. apply load_data_ok in Hl as Hd. destruct Hd as ([Hc _] & _).
  unfold list_tasks, bind. rewrite Hl, (mapM_reread _ _ Hc). reflexivity.
Qed.

Lemma list_tasks_perm (kind : string) (w w1 w' : world) (d : Data) (l : list Task) :
  load_data w = Ok d w1 -> list_tasks kind w = Ok l w' ->
  Permutation l (selected kind (tasks d)).
Proof.
  intros Hl. rewrite (list_tasks_loaded kind _ _ _ Hl).
  destruct (_ || _).
  - destruct (sort_by _ _ _) eqn:Hs; simpl; [discriminate|].
    intros H; inversion H; subst. eapply sort_by_perm; eauto.
  - destruct (kind =? "done")%string.
    + destruct (sort_by _ _ _) eqn:Hs; simpl; [discriminate|].
      intros H; inversion H; subst. eapply sort_by_perm; eauto.
    + intros H; inversion H; subst. reflexivity.
Qed.

Lemma partition_perm (l : list Task) :
  Permutation (filter (fun t => negb (completed t)) l ++ filter completed l) l.
Proof.
  induction l as [|t l IH]; simpl; [constructor|].
  destruct (completed t); simpl.
  - rewrite <- Permutation_middle. now constructor.
  - now constructor.
Qed.


Lemma flip_total {A} (cmp : A -> A -> comparison) :
  total_cmp cmp -> total_cmp (fun a b => cmp b a).
Proof.
  intros [Ceq Crefl Copp Ctrans]. split.
  - intros a b H. symmetry. now apply Ceq.
  - intros a. apply Crefl.
  - intros a b. apply Copp.
  - intros a b c H1 H2. eapply Ctrans; eauto.
Qed.

Lemma done_key_of_ok (t : Task) : stamp_typed t -> exists k, done_key_of t = Some k.
Proof.
  unfold done_key_of. intros [H|(s & H)]; rewrite H; simpl; eauto.
Qed.

Lemma decorate_total {K} (key : Task -> option K) (l : list Task) :
  Forall (fun t => exists k, key t = Some k) l -> exists kl, decorate key l = Some kl.
Proof.
  induction 1 as [|t l (k & Hk) _ (kl & Hkl)]; simpl; [eauto|].
  rewrite Hk, Hkl. eauto.
Qed.

Lemma list_tasks_returns (kind : string) (w w1 : world) (d : Data) :
  load_data w = Ok d w1 -> typed d ->
  exists l, list_tasks kind w = Ok l w1 /\ Permutation l (selected kind (tasks d)).
Proof.
  intros Hl [Hd Hs].
  assert (exists l, list_tasks kind w = Ok l w1) as (l & H).
  { rewrite (list_tasks_loaded kind _ _ _ Hl).
    assert (Forall due_ok (selected kind (tasks d)) /\
            Forall stamp_typed (selected kind (tasks d))) as [Hd' Hs'].
    { unfold selected. destruct (kind =? "pending")%string;
        [|destruct (kind =? "done")%string]; auto using Forall_filter_keep. }
    destruct (_ || _).
    - destruct (sort_by_key_ok _ Hd') as (l & H & _). rewrite H. simpl. eauto.
    - destruct (kind =? "done")%string; [|simpl; eauto].
      destruct (decorate_total done_key_of (selected kind (tasks d))) as (kl & Hkl).
      { eapply Forall_impl; [|exact Hs']. apply done_key_of_ok. }
      unfold sort_by. rewrite Hkl. simpl. eauto. }
  exists l. split; [exact H|]. eapply list_tasks_perm; eauto.
Qed.

(** X11. The views partition the collection. On a collection whose due
    dates are absent or non-empty strs and whose completion times are
    absent or strs, the three views return, and the tasks of
    [list_tasks("pending")] and of [list_tasks("done")] together are
    exactly the tasks of [list_tasks("all")], which are the stored tasks,
    each once; the first are pending, the second completed. *)
Theorem list_tasks_partition (w w1 : world) (d : Data) :
  load_data w = Ok d w1 -> typed d ->
  exists lp ld la,
    list_tasks "pending" w = Ok lp w1 /\
    list_tasks "done" w = Ok ld w1 /\
    list_tasks "all" w = Ok la w1 /\
    Permutation (lp ++ ld) la /\ Permutation la (tasks d) /\
    Forall (fun t => completed t = false) lp /\
    Forall (fun t => completed t = true) ld.
Proof.
  intros Hl Ht.
  destruct (list_tasks_returns "pending" w w1 d Hl Ht) as (lp & Hp & Pp).
  destruct (list_tasks_returns "done" w w1 d Hl Ht) as (ld & Hd & Pd).
  destruct (list_tasks_returns "all" w w1 d Hl Ht) as (la & Ha & Pa).
  exists lp, ld, la. unfold selected in *; simpl in *.
  split; [exact Hp|]. split; [exact Hd|]. split; [exact Ha|].
  split; [rewrite Pp, Pd, Pa; apply partition_perm|]. split; [exact Pa|]. split.
  - eapply Permutation_Forall; [symmetry; exact Pp|].
    apply Forall_forall. intros t Hin. apply filter_In in Hin.
    destruct Hin as [_ Hin]. now apply negb_true_iff in Hin.
  - eapply Permutation_Forall; [symmetry; exact Pd|].
    apply Forall_forall. intros t Hin. apply filter_In in Hin. tauto.
Qed.

Lemma done_order_fields (a b : Task) :
  stamp_typed a -> stamp_typed b -> done_order a b -> in_done_order a b.
Proof.
  unfold done_order, in_done_order, done_key_of.
  intros [Ha|(sa & Ha)] [Hb|(sb & Hb)] H; rewrite Ha, Hb in *; simpl in H.
  - split; [discriminate|now left].
  - specialize (H _ _ eq_refl eq_refl). split; [discriminate|]. intros _. right.
    destruct sb; [reflexivity|discriminate].
  - split; discriminate.
  - specialize (H _ _ eq_refl eq_refl). split; [|discriminate].
    intros x y Hx Hy. inversion Hx; inversion Hy; subst. exact H.
Qed.

Lemma list_tasks_done_sorted (w w1 : world) (d : Data) :
  load_data w = Ok d w1 -> Forall stamp_typed (tasks d) ->
  exists l,
    list_tasks "done" w = Ok l w1 /\
    Permutation l (filter completed (tasks d)) /\
    StronglySorted done_order l.
Proof.
  intros Hl Ht. rewrite (list_tasks_loaded "done" _ _ _ Hl). unfold selected; simpl.
  set (sel := filter completed (tasks d)).
  assert (Forall stamp_typed sel) as Hsel by (apply Forall_filter_keep, Ht).
  destruct (decorate_total done_key_of sel) as (kl & Hkl).
  { eapply Forall_impl; [|exact Hsel]. apply done_key_of_ok. }
  unfold sort_by. rewrite Hkl. simpl. eexists. split; [reflexivity|].
  destruct (decorate_snd _ _ _ Hkl) as [Hm Hk].
  split.
  - rewrite <- Hm. apply Permutation_map. symmetry. apply sort_perm.
  - eapply StronglySorted_map_in;
      [|apply (sort_sorted (fun a b => (b <? a)%string) (fun a b => String.compare b a)
                 (flip_total _ string_total))].
    + assert (Forall (fun p => done_key_of (snd p) = Some (fst p))
                (fold_right (insert_by (fun a b => (b <? a)%string)) [] kl)) as Hk'
          by (eapply Permutation_Forall; [apply sort_perm|exact Hk]).
      rewrite Forall_forall in Hk'.
      intros p q Hp Hq Hle ka kb Hka Hkb.
      rewrite (Hk' _ Hp) in Hka. rewrite (Hk' _ Hq) in Hkb.
      inversion Hka; inversion Hkb; subst. exact Hle.
    + intros a b. reflexivity.
Qed.

(** X12. [list_tasks("done")], on a collection whose completion times
    are absent or strs, returns the completed tasks, each once, sorted
    descending by [completed_at or ""]: of two tasks of the result that
    have a completion time, the one completed later stands first (there is
    no earlier time before a later one), and a completed task without a
    time stands after all that have one. *)
Theorem list_tasks_done_order (w w1 : world) (d : Data) :
  load_data w = Ok d w1 -> Forall stamp_typed (tasks d) ->
  exists l,
    list_tasks "done" w = Ok l w1 /\
    Permutation l (filter completed (tasks d)) /\
    StronglySorted done_order l /\
    StronglySorted in_done_order l.
Proof.
  intros Hl Ht. destruct (list_tasks_done_sorted w w1 d Hl Ht) as (l & H1 & H2 & H3).
  exists l. split; [exact H1|]. split; [exact H2|]. split; [exact H3|].
  eapply StronglySorted_weaken with (P := stamp_typed); [| |exact H3].
  - intros a b. apply done_order_fields.
  - eapply Permutation_Forall; [symmetry; exact H2|]. now apply Forall_filter_keep.
Qed.

Lemma insert_by_stable {K A} (lt : K -> K -> bool) (P : K * A -> bool)
  (x : K * A) (l : list (K * A)) :
  (forall y, P x = true -> P y = true -> lt (fst y) (fst x) = false) ->
  filter P (insert_by lt x l) = filter P (x :: l).
Proof.
  intros Hirr. induction l as [|y l IH]; [reflexivity|].
  cbn [insert_by]. destruct (lt (fst y) (fst x)) eqn:Hlt; [|reflexivity].
  cbn [filter] in *. rewrite IH.
  destruct (P x) eqn:Px; [|reflexivity].
  destruct (P y) eqn:Py; [|reflexivity].
  rewrite (Hirr y eq_refl Py) in Hlt. discriminate.
Qed.

Lemma sort_stable {K A} (lt : K -> K -> bool) (P : K * A -> bool) (l : list (K * A)) :
  (forall x y, P x = true -> P y = true -> lt (fst y) (fst x) = false) ->
  filter P (fold_right (insert_by lt) [] l) = filter P l.
Proof.
  intros Hirr. induction l as [|x l IH]; [reflexivity|].
  cbn [fold_right]. rewrite insert_by_stable by (intros y; apply Hirr).
  cbn [filter]. now rewrite IH.
Qed.

Lemma filter_has_key {K} (key : Task -> option K) (eqb : K -> K -> bool) (k : K)
  (kl : list (K * Task)) :
  Forall (fun p => key (snd p) = Some (fst p)) kl ->
  filter (has_key key eqb k) (map snd kl) = map snd (filter (fun p => eqb (fst p) k) kl).
Proof.
  induction 1 as [|p kl Hp _ IH]; [reflexivity|].
  cbn [map filter]. unfold has_key at 1. rewrite Hp.
  destruct (eqb (fst p) k); cbn [map]; now rewrite IH.
Qed.

Lemma sort_by_stable {K} (key : Task -> option K) (lt eqb : K -> K -> bool) (k : K)
  (l l' : list Task) :
  (forall a b, eqb a k = true -> eqb b k = true -> lt b a = false) ->
  sort_by key lt l = inr l' ->
  filter (has_key key eqb k) l' = filter (has_key key eqb k) l.
Proof.
  intros Hirr. unfold sort_by.
  destruct (decorate key l) as [kl|] eqn:Hd; [|discriminate].
  intros H. inversion H; subst. destruct (decorate_snd _ _ _ Hd) as [Hm Hk].
  rewrite filter_has_key
    by (eapply Permutation_Forall; [apply sort_perm|exact Hk]).
  rewrite sort_stable by (intros x y; apply Hirr).
  rewrite <- (filter_has_key key eqb k kl Hk). now rewrite Hm.
Qed.

Lemma key_eqb_eq (a b : (bool * string) * string) : key_eqb a b = true -> a = b.
Proof.
  destruct a as [[b1 d1] c1], b as [[b2 d2] c2]. unfold key_eqb, due_eqb; simpl.
  rewrite !andb_true_iff. intros [[H1 H2] H3].
  apply Bool.eqb_prop in H1. apply String.eqb_eq in H2, H3. congruence.
Qed.

Lemma key_lt_irrefl (a : (bool * string) * string) : key_lt a a = false.
Proof.
  rewrite key_lt_cmp, (cmp_refl key_cmp key_total). reflexivity.
Qed.

Lemma list_tasks_stable_keys (kind : string) (w w1 w' : world) (d : Data) (l : list Task) :
  load_data w = Ok d w1 -> list_tasks kind w = Ok l w' ->
  (kind = "pending" \/ kind = "all" ->
   forall k, filter (has_key sort_key_of key_eqb k) l
             = filter (has_key sort_key_of key_eqb k) (selected kind (tasks d))) /\
  (kind = "done" ->
   forall k, filter (has_key done_key_of String.eqb k) l
             = filter (has_key done_key_of String.eqb k) (selected kind (tasks d))).
Proof.
  intros Hl. rewrite (list_tasks_loaded kind _ _ _ Hl). intros H. split.
  - intros Hk k.
    assert ((kind =? "pending")%string || (kind =? "all")%string = true) as E
        by (destruct Hk as [-> | ->]; reflexivity).
    rewrite E in H. destruct (sort_by _ _ _) eqn:Hs; simpl in H; [discriminate|].
    inversion H; subst. eapply sort_by_stable; [|exact Hs].
    intros a b Ha Hb. apply key_eqb_eq in Ha, Hb. subst. apply key_lt_irrefl.
  - intros -> k. simpl in H.
    destruct (sort_by _ _ _) eqn:Hs; simpl in H; [discriminate|].
    inversion H; subst. eapply sort_by_stable; [|exact Hs].
    intros a b Ha Hb. apply String.eqb_eq in Ha, Hb. subst. apply ltb_irrefl.
Qed.

Lemma filter_filter_imp {A} (P Q : A -> bool) (l : list A) :
  (forall x, P x = true -> Q x = true) -> filter P (filter Q l) = filter P l.
Proof.
  intros H. induction l as [|x l IH]; [reflexivity|]. cbn [filter].
  destruct (Q x) eqn:Hq; cbn [filter]; rewrite IH; [reflexivity|].
  destruct (P x) eqn:Hp; [|reflexivity]. rewrite (H x Hp) in Hq. discriminate.
Qed.

Lemma filter_through {A} (P Q : A -> bool) (l l' : list A) :
  (forall x, P x = true -> Q x = true) ->
  filter Q l' = filter Q l -> filter P l' = filter P l.
Proof.
  intros H E. rewrite <- (filter_filter_imp P Q l' H), <- (filter_filter_imp P Q l H).
  now rewrite E.
Qed.

Lemma due_created_key (dv : option string) (c : string) (t : Task) :
  due_created_is dv c t = true ->
  has_key sort_key_of key_eqb
    (match dv with
     | None => ((true, sentinel), c)
     | Some s => ((false, if (s =? "")%string then sentinel else s), c)
     end) t = true.
Proof.
  unfold due_created_is, has_key, sort_key_of, key_eqb, due_eqb.
  destruct dv as [s|], (due t) as [|b|z|f|s'|l|kvs]; try discriminate; simpl.
  - rewrite andb_true_iff. intros [E1 E2]. apply String.eqb_eq in E1. subst s'.
    rewrite E2, andb_true_r. destruct s as [|a s]; [reflexivity|].
    exact (String.eqb_refl (String a s)).
  - intros E. now rewrite E.
Qed.

Lemma stamp_key (sv : option string) (t : Task) :
  stamp_is sv t = true ->
  has_key done_key_of String.eqb (match sv with None => "" | Some s => s end) t = true.
Proof.
  unfold stamp_is, has_key, done_key_of.
  destruct sv as [s|], (completed_at t) as [|b|z|f|s'|l|kvs]; try discriminate; simpl;
    auto.
Qed.

(** X13. The sort of [list_tasks] is stable. On a collection whose due
    dates are absent or non-empty strs and whose completion times are
    absent or strs, the views return, and the tasks that the sort cannot
    tell apart stand in the result in the order in which they are stored:
    for "pending" and "all" the tasks with one and the same due date (or
    all without) and the same [created_at], for "done" (where the sort is
    reversed) the tasks with one and the same completion time. *)
Theorem list_tasks_stable (w w1 : world) (d : Data) :
  load_data w = Ok d w1 -> typed d ->
  exists lp la ld,
    list_tasks "pending" w = Ok lp w1 /\
    list_tasks "all" w = Ok la w1 /\
    list_tasks "done" w = Ok ld w1 /\
    (forall dv c, filter (due_created_is dv c) lp
                  = filter (due_created_is dv c)
                           (filter (fun t => negb (completed t)) (tasks d))) /\
    (forall dv c, filter (due_created_is dv c) la
                  = filter (due_created_is dv c) (tasks d)) /\
    (forall sv, filter (stamp_is sv) ld
                = filter (stamp_is sv) (filter completed (tasks d))).
Proof.
  intros Hl Ht.
  destruct (list_tasks_returns "pending" w w1 d Hl Ht) as (lp & Hp & _).
  destruct (list_tasks_returns "all" w w1 d Hl Ht) as (la & Ha & _).
  destruct (list_tasks_returns "done" w w1 d Hl Ht) as (ld & Hd & _).
  exists lp, la, ld. split; [exact Hp|]. split; [exact Ha|]. split; [exact Hd|].
  destruct (list_tasks_stable_keys _ _ _ _ _ _ Hl Hp) as [Sp _].
  destruct (list_tasks_stable_keys _ _ _ _ _ _ Hl Ha) as [Sa _].
  destruct (list_tasks_stable_keys _ _ _ _ _ _ Hl Hd) as [_ Sd].
  split; [|split].
  - intros dv c. eapply filter_through; [apply due_created_key|].
    apply (Sp (or_introl eq_refl)).
  - intros dv c. eapply filter_through; [apply due_created_key|].
    apply (Sa (or_intror eq_refl)).
  - intros sv. eapply filter_through; [apply stamp_key|]. apply (Sd eq_refl).
Qed.

Lemma filter_drop_new (n : Z) (l : list Task) (t : Task) :
  Forall (fun x => id x <> n) l -> id t = n ->
  filter (fun x => negb (mem (id x) [n])) (l ++ [t]) = l /\
  filter (fun x => mem (id x) [n]) (l ++ [t]) = [t].
Proof.
  intros Hne Hid.
  assert (forall x, mem (id x) [n] = (id x =? n)) as Hm
      by (intros x; unfold mem; simpl; apply orb_false_r).
  induction Hne as [|x l Hx _ [IH1 IH2]]; cbn [app filter]; rewrite !Hm.
  - rewrite Hid, Z.eqb_refl. split; reflexivity.
  - apply Z.eqb_neq in Hx. rewrite Hx. cbn [negb]. rewrite IH1, IH2. split; reflexivity.
Qed.

(** X14. Deleting the task that [add_task] has just created restores
    the task list but not the counter: when no stored task has the id the
    counter shows, after [add_task] and [delete_tasks] of the new id the
    tasks are those before, and [next_id] is still one higher, so the id is
    not issued again. *)
Theorem add_then_delete (dflt ti : string) (du : option string) (w w1 : world)
  (d : Data) (n : Z) :
  dflt <> "" ->
  load_data w = Ok d w1 -> py_int (next_id d) = inr n ->
  Forall (fun x => id x <> n) (tasks d) ->
  exists t w2 w3,
    add_task dflt ti du w = Ok t w2 /\ id t = n /\
    delete_tasks [id t] w2 = Ok 1 w3 /\
    stored w3 = Some {| next_id := JInt (n + 1); tasks := tasks d; extra := extra d |}.
Proof.
  intros Hdf Hl Hn Hne. apply load_data_ok in Hl as Hd. destruct Hd as ([Hc He] & _).
  set (task := {| id := n; title := ti; completed := false; created_at := dflt;
                  due := opt_json du; completed_at := JNull |}).
  set (d1 := {| next_id := JInt (n + 1); tasks := tasks d ++ [task]; extra := extra d |}).
  assert (normal d1) as Hn1.
  { split; [|exact He]. simpl. apply Forall_app. split; [exact Hc|]. now repeat constructor. }
  destruct (filter_drop_new n (tasks d) task Hne eq_refl) as [F1 F2].
  exists task, (saved d1 w1). eexists.
  split; [exact (add_task_loaded dflt ti du _ _ _ _ Hl Hn)|]. split; [reflexivity|].
  rewrite (delete_tasks_loaded [id task] _ _ _ (load_data_saved d1 w1 Hn1)). cbv zeta.
  rewrite (length_filter_split (fun t => mem (id t) [id task])).
  simpl tasks. simpl id. rewrite F1, F2. split; [reflexivity|].
  apply stored_saved. split; assumption.
Qed.

Lemma asdict_inj (a b : Task) : asdict a = asdict b -> a = b.
Proof.
  destruct a, b. unfold asdict; simpl. intros H. inversion H. reflexivity.
Qed.

Lemma map_asdict_inj (l1 l2 : list Task) : map asdict l1 = map asdict l2 -> l1 = l2.
Proof.
  revert l2. induction l1 as [|a l1 IH]; intros [|b l2] H; cbn [map] in H;
    try discriminate.
  - reflexivity.
  - apply (f_equal (List.hd JNull)) in H as Ha. cbn [hd] in Ha.
    apply (f_equal (@List.tl json)) in H. cbn [tl] in H.
    f_equal; [now apply asdict_inj|now apply IH].
Qed.

Lemma on_disk_unique (d1 d2 : Data) (fs : file_state) :
  on_disk d1 fs -> on_disk d2 fs -> d1 = d2.
Proof.
  intros [[H1 ->]|H1] [[H2 ->]|H2]; try congruence.
  rewrite H1 in H2. unfold encode in H2.
  injection H2 as Hn Ht He.
  apply map_asdict_inj in Ht. destruct d1, d2; simpl in *. congruence.
Qed.

Lemma marked_typed (ids : list Z) (lo hi : nat) (l l' : list Task) :
  Forall2 (marked ids lo hi) l l' ->
  (Forall due_ok l -> Forall due_ok l') /\ (Forall stamp_typed l -> Forall stamp_typed l').
Proof.
  induction 1 as [|a b l l' Hab _ [IH1 IH2]]; [split; auto|].
  unfold marked in Hab. split; intros Hs; apply Forall_cons_iff in Hs;
    destruct Hs as [Ha Hl]; (constructor; [|auto]).
  - destruct (to_mark ids a); [destruct Hab as (k & _ & ->); exact Ha|now subst].
  - destruct (to_mark ids a); [|now subst].
    destruct Hab as (k & _ & ->). right. eexists. reflexivity.
Qed.

Lemma edited_typed (ti du : option string) (cd un : bool) (t : Task) :
  match du with Some s => s <> "" | None => True end ->
  due_ok t -> stamp_typed t ->
  due_ok (edited ti du cd un t) /\ stamp_typed (edited ti du cd un t).
Proof.
  intros Hdu Hd Hs. unfold due_ok, stamp_typed, edited; simpl. split.
  - destruct cd; [now left|]. destruct du as [s|]; [right; eauto|exact Hd].
  - destruct (un && completed t); [now left|exact Hs].
Qed.

Lemma list_tasks_typed (kind : string) (w : world) (d : Data) :
  normal d -> typed d -> load_data w = Ok d w -> exists l, list_tasks kind w = Ok l w.
Proof.
  intros Hn [Hd Hs] Hl. rewrite (list_tasks_loaded kind _ _ _ Hl).
  assert (Forall due_ok (selected kind (tasks d)) /\
          Forall stamp_typed (selected kind (tasks d))) as [Hd' Hs'].
  { unfold selected. destruct (kind =? "pending")%string;
      [|destruct (kind =? "done")%string]; auto using Forall_filter_keep. }
  destruct (_ || _).
  - destruct (sort_by_key_ok _ Hd') as (l & H & _). rewrite H. simpl. eauto.
  - destruct (kind =? "done")%string; [|simpl; eauto].
    destruct (decorate_total done_key_of (selected kind (tasks d))) as (kl & Hkl).
    { eapply Forall_impl; [|exact Hs']. apply done_key_of_ok. }
    unfold sort_by. rewrite Hkl. simpl. eauto.
Qed.

Lemma exec_typed (dflt : string) (c : call) (w : world) (d : Data) (n : Z) :
  dflt <> "" -> call_due_ok c -> on_disk d (file w) -> good n d -> typed d ->
  exists d' n',
    on_disk d' (file (snd (exec dflt c w))) /\ good n' d' /\ typed d' /\
    (forall e, fst (exec dflt c w) = RRaised e -> may_raise c).
Proof.
  intros Hdf Hc Hd Hg [Hdu Hst].
  destruct (exec_good dflt c w d n Hdf Hd Hg) as (d' & n' & Hd' & Hg' & _).
  exists d', n'. split; [exact Hd'|]. split; [exact Hg'|].
  pose proof Hg as (Hn & Hi & _).
  pose proof (on_disk_load _ _ Hn Hd) as Hl.
  assert (py_int (next_id d) = inr n) as Hpi by (rewrite Hi; reflexivity).
  revert Hd'. destruct c as [ti du|ids|ids|i ti du cd un|mode|kind|today];
    unfold exec, answer.
  - rewrite (add_task_loaded dflt ti du w w d n Hl Hpi). cbv zeta. simpl. intros Hd'.
    split; [|discriminate].
    rewrite (on_disk_unique _ _ _ Hd' (or_intror eq_refl)). split; simpl.
    + apply Forall_app. split; [exact Hdu|]. constructor; [|constructor].
      destruct du as [s|]; [right; exists s; split; [reflexivity|exact Hc]|now left].
    + apply Forall_app. split; [exact Hst|]. constructor; [now left|constructor].
  - destruct (mark_done_loaded ids w w d Hl) as (ts' & wm & Hm & _ & _ & Hall & _).
    rewrite Hm. simpl. intros Hd'. split; [|discriminate].
    rewrite (on_disk_unique _ _ _ Hd' (or_intror eq_refl)).
    destruct (marked_typed _ _ _ _ _ Hall) as [H1 H2]. split; simpl; auto.
  - rewrite (delete_tasks_loaded ids w w d Hl). cbv zeta. simpl. intros Hd'.
    split; [|discriminate].
    rewrite (on_disk_unique _ _ _ Hd' (or_intror eq_refl)).
    split; simpl; now apply Forall_filter_keep.
  - unfold edit_task, bind. rewrite Hl.
    destruct (first_match i (tasks d)) as [Hne|(l1 & t & l2 & Ht & Hne & Hid)].
    + rewrite (edit_loop_missing i ti du cd un d (tasks d) Hne). simpl. intros Hd'.
      split; [|discriminate]. rewrite (on_disk_unique _ _ _ Hd' Hd). now split.
    + assert (nonempty_created t) as Hct.
      { destruct Hn as [Hcr _]. rewrite Ht in Hcr. apply Forall_app in Hcr.
        destruct Hcr as [_ Hcr]. now apply Forall_cons_iff in Hcr. }
      rewrite Ht. rewrite (edit_loop_found i ti du cd un d l1 l2 t Hne Hid Hct). simpl.
      intros Hd'. split; [|discriminate].
      rewrite (on_disk_unique _ _ _ Hd' (or_intror eq_refl)).
      rewrite Ht in Hdu, Hst.
      apply Forall_app in Hdu. destruct Hdu as [Hd1 Hd2]. apply Forall_cons_iff in Hd2.
      apply Forall_app in Hst. destruct Hst as [Hs1 Hs2]. apply Forall_cons_iff in Hs2.
      assert (match du with Some s => s <> "" | None => True end) as Hdu'
          by (destruct du; exact Hc || exact I).
      destruct (edited_typed ti du cd un t Hdu' (proj1 Hd2) (proj1 Hs2)) as [E1 E2].
      split; simpl; apply Forall_app; (split; [assumption|]); constructor; tauto.
  - destruct (mode =? "all")%string eqn:Hall.
    + apply String.eqb_eq in Hall. subst mode.
      rewrite (clear_all_loaded w w d Hl). simpl. intros Hd'. split; [|discriminate].
      rewrite (on_disk_unique _ _ _ Hd' (or_intror eq_refl)). split; constructor.
    + destruct (mode =? "done")%string eqn:Hdone.
      * apply String.eqb_eq in Hdone. subst mode.
        rewrite (clear_done_loaded w w d Hl). cbv zeta. simpl. intros Hd'.
        split; [|discriminate].
        rewrite (on_disk_unique _ _ _ Hd' (or_intror eq_refl)).
        split; simpl; now apply Forall_filter_keep.
      * rewrite (clear_other_loaded mode w w d Hl Hdone Hall). simpl. intros Hd'.
        rewrite (on_disk_unique _ _ _ Hd' Hd). split; [now split|].
        intros e _. exists mode. auto.
  - destruct (list_tasks_typed kind w d Hn (conj Hdu Hst) Hl) as (l & H). rewrite H. simpl.
    intros Hd'. rewrite (on_disk_unique _ _ _ Hd' Hd). split; [now split|discriminate].
  - unfold stats, bind. rewrite Hl, (overdue_loop_ok today _ Hdu 0). simpl.
    intros Hd'. rewrite (on_disk_unique _ _ _ Hd' Hd). split; [now split|discriminate].
Qed.

Lemma run_calls_typed (dflt : string) (cs : list call) :
  dflt <> "" -> Forall call_due_ok cs ->
  forall w d n,
    on_disk d (file w) -> good n d -> typed d ->
    exists d' n',
      on_disk d' (file (snd (run_calls dflt cs w))) /\ good n' d' /\ typed d' /\
      Forall (fun ev => forall e, ev_response ev = RRaised e -> may_raise (ev_call ev))
             (fst (run_calls dflt cs w)).
Proof.
  intros Hdf Hcs. induction Hcs as [|c cs Hc _ IH]; intros w d n Hd Hg Ht; simpl.
  - exists d, n. repeat split; try apply Hg; try apply Ht; auto.
  - destruct (exec_typed dflt c w d n Hdf Hc Hd Hg Ht) as (d1 & n1 & Hd1 & Hg1 & Ht1 & Hr).
    destruct (IH _ _ _ Hd1 Hg1 Ht1) as (d' & n' & Hd' & Hg' & Ht' & Hf).
    exists d', n'. repeat split; try apply Hg'; try apply Ht'; auto.
Qed.

Lemma run_history_typed (ps : list (list call)) :
  Forall (Forall call_due_ok) ps ->
  forall w d n,
    on_disk d (file w) -> good n d -> typed d ->
    exists d' n',
      on_disk d' (file (snd (run_history ps w))) /\ good n' d' /\ typed d' /\
      Forall (fun ev => forall e, ev_response ev = RRaised e -> may_raise (ev_call ev))
             (fst (run_history ps w)).
Proof.
  induction 1 as [|cs ps Hcs _ IH]; intros w d n Hd Hg Ht; simpl.
  - exists d, n. repeat split; try apply Hg; try apply Ht; auto.
  - unfold run_process, import_todo, now_iso.
    destruct (run_calls_typed (timestamp (ticks w)) cs (timestamp_nonempty _) Hcs
                (tick w) d n Hd Hg Ht) as (d1 & n1 & Hd1 & Hg1 & Ht1 & Hf1).
    destruct (IH _ _ _ Hd1 Hg1 Ht1) as (d' & n' & Hd' & Hg' & Ht' & Hf2).
    exists d', n'. repeat split; try apply Hg'; try apply Ht'; auto.
    apply Forall_app. split; assumption.
Qed.

(** X15. In every history that starts without a file and in which the
    titles and due dates supplied are strs that UTF-8 can encode (the strs
    of this development) and the due dates supplied to [add_task] and
    [edit_task] are not empty (the two front ends supply no others), every
    stored [due] is absent or a non-empty str and every [completed_at]
    absent or a str; so no call raises, except [clear_tasks] with a mode
    that is neither "done" nor "all": in particular [list_tasks] and
    [stats] always return. *)
Theorem typed_histories_do_not_raise (ps : list (list call)) (w0 : world) :
  file w0 = Absent -> Forall (Forall call_due_ok) ps ->
  Forall (fun ev => forall e, ev_response ev = RRaised e -> may_raise (ev_call ev))
         (fst (run_history ps w0)) /\
  exists d, stored (snd (run_history ps w0)) = Some d /\ typed d.
Proof.
  intros H0 Hps.
  assert (typed empty_data) as Ht0 by (split; constructor).
  destruct (run_history_typed ps Hps w0 empty_data 1 (on_disk_absent _ H0) good_empty Ht0)
    as (d & n & Hd & Hg & Ht & Hf).
  split; [exact Hf|]. exists d. split; [|exact Ht].
  now destruct (sound_counter _ _ _ Hd Hg).
Qed.

(** ** The front ends *)

Lemma find_task_loaded (i : Z) (l : list Task) (w : world) :
  Forall nonempty_created l ->
  find_task i l w = Ok (find (fun t => id t =? i) l) w.
Proof.
  induction 1 as [|t l Ht _ IH]; simpl; [reflexivity|].
  destruct (id t =? i); [|exact IH].
  unfold bind. now rewrite (reread_normal _ _ Ht).
Qed.

Lemma get_task_by_id_loaded (i : Z) (w w1 : world) (d : Data) :
  load_data w = Ok d w1 ->
  get_task_by_id i w = Ok (find (fun t => id t =? i) (tasks d)) w1.
Proof.
  intros Hl. apply load_data_ok in Hl as Hd. destruct Hd as ([Hc _] & _).
  unfold get_task_by_id, bind. rewrite Hl. now apply find_task_loaded.
Qed.

Lemma find_missing (i : Z) (l : list Task) :
  Forall (fun t => id t <> i) l -> find (fun t => id t =? i) l = None.
Proof.
  induction 1 as [|t l Ht _ IH]; simpl; [reflexivity|].
  apply Z.eqb_neq in Ht. now rewrite Ht.
Qed.

Lemma find_first (i : Z) (l1 l2 : list Task) (t : Task) :
  Forall (fun x => id x <> i) l1 -> id t = i ->
  find (fun x => id x =? i) (l1 ++ t :: l2) = Some t.
Proof.
  intros Hne Hid. induction Hne as [|x l1 Hx _ IH]; simpl.
  - now rewrite Hid, Z.eqb_refl.
  - apply Z.eqb_neq in Hx. now rewrite Hx.
Qed.

Lemma not_all_differ (i : Z) (l1 l2 : list Task) (t : Task) :
  id t = i -> ~ Forall (fun x => id x <> i) (l1 ++ t :: l2).
Proof.
  intros Hid H. apply Forall_app in H. destruct H as [_ H].
  apply Forall_cons_iff in H. now destruct H.
Qed.

Lemma length_zero_iff (i : Z) (l : list Task) :
  (Z.of_nat (List.length (filter (fun t => mem (id t) [i]) l)) =? 0) = true <->
  Forall (fun t => id t <> i) l.
Proof.
  assert (forall x, mem (id x) [i] = (id x =? i)) as Hm
      by (intros x; unfold mem; simpl; apply orb_false_r).
  induction l as [|t l IH]; cbn [filter List.length]; [split; [constructor|reflexivity]|].
  rewrite Hm. destruct (id t =? i) eqn:E.
  - cbn [List.length]. rewrite Nat2Z.inj_succ. split.
    + intros H. apply Z.eqb_eq in H. lia.
    + intros H. apply Forall_cons_iff in H. apply Z.eqb_eq in E. tauto.
  - rewrite IH. apply Z.eqb_neq in E. split; [now constructor|].
    intros H. now apply Forall_cons_iff in H.
Qed.

(** X18. The route [delete]: it always redirects to the listing with the
    current filter, writes the file once, and flashes one message, of
    category "warning" when no stored task has the id and of category
    "info" otherwise. *)
Theorem delete_route_reports (i : Z) (req : request) (w w1 : world) (d : Data) :
  load_data w = Ok d w1 ->
  exists msg cat w2,
    delete i req w = Ok ([(msg, cat)], back_to_index req) w2 /\
    writes w2 = S (writes w) /\
    (Forall (fun t => id t <> i) (tasks d) -> cat = "warning") /\
    (~ Forall (fun t => id t <> i) (tasks d) -> cat = "info").
Proof.
  intros Hl. apply load_data_ok in Hl as Hd. destruct Hd as (_ & _ & Hw & _).
  unfold delete, bind. rewrite (delete_tasks_loaded [i] _ _ _ Hl). cbv zeta.
  rewrite (length_filter_split (fun t => mem (id t) [i])).
  pose proof (length_zero_iff i (tasks d)) as Hz.
  destruct (_ =? 0) eqn:E.
  - do 3 eexists. split; [reflexivity|]. split; [simpl; now rewrite Hw|].
    split; [reflexivity|]. intros Hn. elim Hn. now apply Hz.
  - do 3 eexists. split; [reflexivity|]. split; [simpl; now rewrite Hw|].
    split; [|reflexivity]. intros Hn. apply Hz in Hn. discriminate.
Qed.

Lemma index_never_writes (req : request) (t1 t2 t3 : string) (w : world) :
  same_store w (world_of (index req t1 t2 t3 w)).
Proof.
  unfold index, inject_globals, bind.
  set (kind0 := or_default (arg_filter req) "pending").
  set (kind := if known_kind kind0 then kind0 else "pending").
  pose proof (list_tasks_any_world kind w) as H1.
  destruct (list_tasks kind w) as [ts w1|e w1] eqn:Hlt; simpl in H1; [|exact H1].
  pose proof (stats_any_world t1 w1) as H2.
  destruct (stats t1 w1) as [s w2|e w2]; simpl in H2;
    [|eapply same_store_trans; eauto].
  pose proof (stats_any_world t3 w2) as H3.
  destruct (stats t3 w2) as [s' w3|e w3]; simpl in H3;
    (eapply same_store_trans; [|exact H3]; eapply same_store_trans; eauto).
Qed.

Lemma stats_returns (today : string) (w w1 : world) (d : Data) :
  load_data w = Ok d w1 -> Forall due_ok (tasks d) -> exists s, stats today w = Ok s w1.
Proof.
  intros Hl Hd. unfold stats, bind. rewrite Hl, (overdue_loop_ok today _ Hd 0).
  simpl. eauto.
Qed.

(** X19. The route [index]: it never writes, whether it answers or
    fails. On a normalised file (every record has its [created_at], as in
    any file the program wrote) whose due dates are absent or non-empty
    strs and whose completion times are absent or strs, it answers: it
    flashes nothing and shows the view of a known kind, the one asked for
    if that is "pending", "all" or "done" and "pending" otherwise (also
    when no filter is given), with the tasks [list_tasks] returns for that
    kind and the statistics [stats] returns. *)
Theorem index_view (req : request) (t1 t2 t3 : string) (w : world) :
  same_store w (world_of (index req t1 t2 t3 w)) /\
  forall d,
    load_data w = Ok d w -> typed d ->
    exists kind ts s,
      index req t1 t2 t3 w = Ok ([], IndexPage kind ts s t2) w /\
      known_kind kind = true /\
      list_tasks kind w = Ok ts w /\ stats t1 w = Ok s w /\
      (known_kind (or_default (arg_filter req) "pending") = true ->
       kind = or_default (arg_filter req) "pending") /\
      (known_kind (or_default (arg_filter req) "pending") = false -> kind = "pending").
Proof.
  split; [apply index_never_writes|]. intros d Hl Ht.
  set (kind0 := or_default (arg_filter req) "pending").
  set (kind := if known_kind kind0 then kind0 else "pending").
  assert (known_kind kind = true) as Hk
      by (unfold kind; destruct (known_kind kind0) eqn:E; [exact E|reflexivity]).
  destruct (list_tasks_returns kind w w d Hl Ht) as (ts & Hlt & _).
  destruct (stats_returns t1 w w d Hl (proj1 Ht)) as (s & Hs).
  destruct (stats_returns t3 w w d Hl (proj1 Ht)) as (s' & Hs').
  exists kind, ts, s. split.
  { unfold index, inject_globals, bind. fold kind0. fold kind.
    rewrite Hlt, Hs, Hs'. reflexivity. }
  split; [exact Hk|]. split; [exact Hlt|]. split; [exact Hs|].
  unfold kind. split; intros E; now rewrite E.
Qed.

Lemma to_mark_other (i : Z) (l : list Task) :
  Forall (fun x => id x <> i) l -> Forall (fun x => to_mark [i] x = false) l.
Proof.
  intros H. eapply Forall_impl; [|exact H]. intros x Hx. unfold to_mark, mem; simpl.
  apply Z.eqb_neq in Hx. now rewrite Hx.
Qed.

Lemma mark_loop_app_none (ids : list Z) (l1 l : list Task) (w : world) :
  Forall (fun t => to_mark ids t = false) l1 ->
  mark_loop ids (l1 ++ l) w =
  match mark_loop ids l w with
  | Ok r w' => Ok (l1 ++ fst r, snd r) w'
  | Raise e w' => Raise e w'
  end.
Proof.
  induction 1 as [|t l1 Ht _ IH]; cbn [app].
  - destruct (mark_loop ids l w) as [[a b] w'|]; reflexivity.
  - cbn [mark_loop]. unfold to_mark in Ht. rewrite Ht. unfold bind. rewrite IH.
    destruct (mark_loop ids l w) as [[a b] w'|]; reflexivity.
Qed.

Lemma mark_done_one (i : Z) (w : world) (d : Data) (l1 l2 : list Task) (t : Task) :
  load_data w = Ok d w -> tasks d = l1 ++ t :: l2 -> id t = i -> completed t = false ->
  Forall (fun x => id x <> i) l1 -> Forall (fun x => id x <> i) l2 ->
  mark_done [i] w =
  Ok [set_status true (JStr (timestamp (ticks w))) t]
     (saved (with_tasks d (l1 ++ set_status true (JStr (timestamp (ticks w))) t :: l2))
            (tick w)).
Proof.
  intros Hl Ht Hid Hc H1 H2. apply load_data_ok in Hl as Hd. destruct Hd as ([Hcr _] & _).
  rewrite Ht in Hcr. apply Forall_app in Hcr. destruct Hcr as [_ Hcr].
  apply Forall_cons_iff in Hcr. destruct Hcr as [Hct _].
  unfold mark_done, bind. rewrite Hl, Ht.
  rewrite (mark_loop_app_none _ _ _ _ (to_mark_other i l1 H1)).
  assert (mem (id t) [i] && negb (completed t) = true) as Hm
      by (unfold mem; cbn [existsb]; rewrite Hid, Z.eqb_refl, Hc; reflexivity).
  cbn [mark_loop]. rewrite Hm.
  unfold bind, now_iso. rewrite reread_normal by exact Hct.
  rewrite (mark_loop_none _ _ _ (to_mark_other i l2 H2)). reflexivity.
Qed.

Lemma toggle_once (i : Z) (req : request) (w : world) (d : Data)
  (l1 l2 : list Task) (t : Task) :
  load_data w = Ok d w ->
  tasks d = l1 ++ t :: l2 -> id t = i ->
  Forall (fun x => id x <> i) l1 -> Forall (fun x => id x <> i) l2 ->
  (or_default (arg_act req) "toggle" =? "done")%string = false ->
  (or_default (arg_act req) "toggle" =? "undone")%string = false ->
  exists w2,
    toggle i req w = Ok ([], back_to_index req) w2 /\
    load_data w2 =
    Ok (with_tasks d
          (l1 ++ (if completed t
                  then set_status false JNull t
                  else set_status true (JStr (timestamp (ticks w))) t) :: l2)) w2.
Proof.
  intros Hl Ht Hid H1 H2 Ea Eb. apply load_data_ok in Hl as Hd.
  destruct Hd as ([Hcr He] & _).
  assert (Forall nonempty_created (l1 ++ t :: l2)) as Hall by (rewrite <- Ht; exact Hcr).
  apply Forall_app in Hall. destruct Hall as [Hc1 Hc2].
  apply Forall_cons_iff in Hc2. destruct Hc2 as [Hct Hc2].
  unfold toggle. rewrite Ea, Eb. unfold bind at 1. unfold bind at 1.
  rewrite (get_task_by_id_loaded i _ _ _ Hl), Ht, (find_first i l1 l2 t H1 Hid).
  destruct (completed t) eqn:Hc.
  - unfold edit_task, bind. rewrite Hl, Ht.
    rewrite (edit_loop_found i None None false true d l1 l2 t H1 Hid Hct). simpl.
    assert (edited None None false true t = set_status false JNull t) as E
        by (unfold edited, set_status; rewrite Hc; reflexivity).
    rewrite E. eexists. split; [reflexivity|].
    apply load_data_saved. split; [|exact He]. simpl.
    apply Forall_app. split; [exact Hc1|]. constructor; [exact Hct|exact Hc2].
  - unfold bind. rewrite (mark_done_one i w d l1 l2 t Hl Ht Hid Hc H1 H2).
    eexists. split; [reflexivity|].
    apply load_data_saved. split; [|exact He]. simpl.
    apply Forall_app. split; [exact Hc1|]. constructor; [exact Hct|exact Hc2].
Qed.

(** X22. The route [toggle] without [act] (or with one that is neither
    "done" nor "undone") flips the status of the task: on a normalised
    file (every record has its [created_at], as in any file the program
    wrote) in which exactly one task has the id, a completed
    task becomes pending and loses its [completed_at], a pending task
    becomes completed with the time of the call as [completed_at]; its
    other fields, and the other tasks, stay as they are, and the handler
    redirects to the index. *)
Theorem toggle_flips (i : Z) (req : request) (w : world) (d : Data)
  (l1 l2 : list Task) (t : Task) :
  load_data w = Ok d w ->
  tasks d = l1 ++ t :: l2 -> id t = i ->
  Forall (fun x => id x <> i) l1 -> Forall (fun x => id x <> i) l2 ->
  (or_default (arg_act req) "toggle" =? "done")%string = false ->
  (or_default (arg_act req) "toggle" =? "undone")%string = false ->
  exists w2,
    toggle i req w = Ok ([], back_to_index req) w2 /\
    load_data w2 =
    Ok (with_tasks d
          (l1 ++ {| id := id t; title := title t; completed := negb (completed t);
                    created_at := created_at t; due := due t;
                    completed_at := if completed t then JNull
                                    else JStr (timestamp (ticks w)) |} :: l2)) w2.
Proof.
  intros Hl Ht Hid H1 H2 Ea Eb.
  destruct (toggle_once i req w d l1 l2 t Hl Ht Hid H1 H2 Ea Eb) as (w2 & Ha & Hb).
  exists w2. split; [exact Ha|]. rewrite Hb. do 3 f_equal.
  destruct t as [ti tt c ca du cat]. destruct c; reflexivity.
Qed.

(** ** The table of [format_tasks] *)

Lemma cp_len_app (a b : string) : cp_len (a ++ b) = (cp_len a + cp_len b)%nat.
Proof.
  induction a as [|c a IH]; simpl; [reflexivity|].
  destruct (is_continuation c); simpl; now rewrite IH.
Qed.

Lemma cp_len_times (c : ascii) (n : nat) :
  is_continuation c = false -> cp_len (times (String c "") n) = n.
Proof.
  intros Hc. induction n as [|n IH]; simpl; [reflexivity|]. now rewrite Hc, IH.
Qed.

Lemma cp_len_ljust (s : string) (w : nat) :
  (cp_len s <= w)%nat -> cp_len (ljust s w) = w.
Proof.
  intros H. unfold ljust. rewrite cp_len_app, (cp_len_times " "%char) by reflexivity. lia.
Qed.

Lemma cp_len_join (ws : list nat) (ss : list string) :
  Forall2 (fun w s => cp_len s = w) ws ss -> cp_len (join "  " ss) = row_width ws.
Proof.
  induction 1 as [|w s ws ss Hs Hf IH]; [reflexivity|].
  destruct Hf as [|w' s' ws' ss' Hs' Hf']; [exact Hs|].
  change (join "  " (s :: s' :: ss')) with (s ++ "  " ++ join "  " (s' :: ss'))%string.
  change (row_width (w :: w' :: ws')) with (w + 2 + row_width (w' :: ws'))%nat.
  rewrite !cp_len_app, IH, Hs. simpl. lia.
Qed.

Lemma fits_mono (ws ws' : list nat) (r : list json) :
  Forall2 le ws ws' -> fits ws r -> fits ws' r.
Proof.
  unfold fits. intros Hle. revert r.
  induction Hle as [|w w' ws ws' Hw _ IH]; intros r Hr; inversion Hr; subst; constructor.
  - destruct H1 as (s & -> & Hs). exists s. split; [reflexivity|lia].
  - now apply IH.
Qed.

Lemma Forall2_le_refl (ws : list nat) : Forall2 le ws ws.
Proof. induction ws; constructor; auto. Qed.

Lemma Forall2_le_trans (a b c : list nat) :
  Forall2 le a b -> Forall2 le b c -> Forall2 le a c.
Proof.
  intros H. revert c. induction H as [|x y a b Hxy _ IH]; intros c Hc;
    inversion Hc; subst; constructor; [lia|now apply IH].
Qed.

Lemma widen_fits (r : list json) :
  Forall (fun c => exists s, c = JStr s) r ->
  forall ws, List.length ws = List.length r ->
  exists ws', widen ws r = inr ws' /\ Forall2 le ws ws' /\ fits ws' r.
Proof.
  induction 1 as [|c r (s & ->) _ IH]; intros [|w ws] Hlen; simpl in Hlen; try discriminate.
  - exists []. repeat split; constructor.
  - destruct (IH ws) as (ws' & Hw & Hle & Hfit); [lia|].
    exists (Nat.max w (cp_len s) :: ws'). simpl. rewrite Hw.
    split; [reflexivity|]. split; constructor; auto; try lia.
    exists s. split; [reflexivity|lia].
Qed.

Lemma Forall2_le_length (a b : list nat) : Forall2 le a b -> List.length b = List.length a.
Proof. induction 1; simpl; congruence. Qed.

Lemma widths_of_fits (rows : list (list json)) :
  forall ws,
    Forall (fun r => Forall (fun c => exists s, c = JStr s) r /\
                     List.length r = List.length ws) rows ->
    exists W, widths_of ws rows = inr W /\ Forall2 le ws W /\ Forall (fits W) rows.
Proof.
  induction rows as [|r rows IH]; intros ws Hrows; simpl.
  - exists ws. repeat split; auto using Forall2_le_refl.
  - apply Forall_cons_iff in Hrows. destruct Hrows as [[Hr Hlen] Hrows].
    destruct (widen_fits r Hr ws (eq_sym Hlen)) as (ws1 & Hw & Hle & Hfit). rewrite Hw.
    destruct (IH ws1) as (W & HW & Hle' & Hfits).
    { eapply Forall_impl; [|exact Hrows]. intros r' [H1 H2]. split; [exact H1|].
      rewrite (Forall2_le_length _ _ Hle). exact H2. }
    exists W. split; [exact HW|]. split; [eapply Forall2_le_trans; eauto|].
    constructor; [eapply fits_mono; eauto|exact Hfits].
Qed.

Lemma fmt_row_fits (W : list nat) (vals : list json) :
  fits W vals -> exists s, fmt_row W vals = inr s /\ cp_len s = row_width W.
Proof.
  intros Hf.
  assert (exists ss, fmt_cells vals W = inr ss /\ Forall2 (fun w s => cp_len s = w) W ss)
    as (ss & Hc & Hss).
  { induction Hf as [|w c W vals (s & -> & Hs) _ (ss & Hc & Hss)]; simpl.
    - exists []. split; [reflexivity|constructor].
    - rewrite Hc. exists (ljust s w :: ss). split; [reflexivity|].
      constructor; [now apply cp_len_ljust|exact Hss]. }
  unfold fmt_row. rewrite Hc. eexists. split; [reflexivity|]. now apply cp_len_join.
Qed.

Lemma fmt_rows_fits (W : list nat) (rows : list (list json)) :
  Forall (fits W) rows ->
  exists ss, fmt_rows W rows = inr ss /\ List.length ss = List.length rows /\
             Forall (fun s => cp_len s = row_width W) ss.
Proof.
  induction 1 as [|r rows Hr _ (ss & Hs & Hlen & Hall)]; simpl.
  - exists []. repeat split; constructor.
  - destruct (fmt_row_fits W r Hr) as (s & Hf & Hw). rewrite Hf, Hs.
    exists (s :: ss). simpl. repeat split; [now rewrite Hlen|now constructor].
Qed.

Lemma row_of_strs (t : Task) :
  due_printable t ->
  Forall (fun c => exists s, c = JStr s) (row_of t) /\ List.length (row_of t) = 5%nat.
Proof.
  intros Hd. split; [|reflexivity]. unfold row_of.
  repeat (constructor; [eexists; reflexivity|]).
  constructor; [|repeat (constructor; [eexists; reflexivity|]); constructor].
  destruct Hd as [H|(s & H)].
  - rewrite H. eexists. reflexivity.
  - rewrite H. destruct (truthy (JStr s)); eexists; reflexivity.
Qed.

Lemma fits_self (ws : list nat) (f : nat -> string) :
  (forall w, cp_len (f w) = w) -> fits ws (map (fun w => JStr (f w)) ws).
Proof.
  intros Hf. induction ws as [|w ws IH]; constructor; [|exact IH].
  exists (f w). split; [reflexivity|]. rewrite Hf. lia.
Qed.

Lemma format_lines_table (ts : list Task) :
  Forall due_printable ts ->
  exists lines n, format_lines ts = inr lines /\
                  List.length lines = (2 + List.length ts)%nat /\
                  Forall (fun l => cp_len l = n) lines.
Proof.
  intros Hd.
  unfold format_lines.
  destruct (widths_of_fits (map row_of ts) (map cp_len headers)) as (W & HW & Hle & Hfits).
  { apply Forall_map. eapply Forall_impl; [|exact Hd]. intros t Ht.
    destruct (row_of_strs t Ht) as [H1 H2]. split; [exact H1|exact H2]. }
  rewrite HW.
  assert (fits W (map JStr headers)) as Hh.
  { eapply fits_mono; [exact Hle|]. unfold headers; simpl.
    repeat (constructor; [eexists; split; [reflexivity|apply Nat.le_refl]|]). constructor. }
  destruct (fmt_row_fits W _ Hh) as (h & Hfh & Hwh). rewrite Hfh.
  destruct (fmt_row_fits W _ (fits_self W (times "-")
                                (fun w => cp_len_times "-"%char w eq_refl)))
    as (sep & Hfs & Hws).
  rewrite Hfs.
  destruct (fmt_rows_fits W _ Hfits) as (body & Hb & Hbl & Hba). rewrite Hb.
  exists (h :: sep :: body), (row_width W). split; [reflexivity|].
  split; [simpl; now rewrite Hbl, length_map|].
  repeat constructor; assumption.
Qed.

(** X24. [format_tasks]: for no task the text is "(no tasks)"; for tasks
    whose [due] is falsy or a str it is a table of one line of headers, one
    of dashes and one line per task, joined by newlines, and all its lines
    have the same number of characters: the columns are aligned. *)
Theorem format_tasks_table (ts : list Task) :
  Forall due_printable ts ->
  match ts with
  | [] => format_tasks ts = inr "(no tasks)"
  | _ =>
      exists lines n,
        format_tasks ts = inr (join newline lines) /\
        List.length lines = (2 + List.length ts)%nat /\
        Forall (fun l => cp_len l = n) lines
  end.
Proof.
  intros Hd. destruct ts as [|t0 ts0]; [reflexivity|].
  set (ts := t0 :: ts0) in *.
  destruct (format_lines_table ts Hd) as (lines & n & Hl & Hlen & Hall).
  exists lines, n. unfold format_tasks. fold ts. unfold ts at 1. rewrite Hl. auto.
Qed.

Lemma format_tasks_returns (ts : list Task) :
  Forall due_printable ts -> exists out, format_tasks ts = inr out.
Proof.
  intros Hd. destruct ts as [|t0 ts0]; [simpl; eauto|].
  destruct (format_lines_table (t0 :: ts0) Hd) as (lines & n & Hl & _).
  unfold format_tasks. rewrite Hl. eauto.
Qed.

Lemma due_ok_printable (t : Task) : due_ok t -> due_printable t.
Proof.
  intros [H|(s & H & _)]; [left; now rewrite H|right; eauto].
Qed.

(** X17. The command line, [main] after the parser, on a loadable file
    whose counter is a number, whose due dates are absent or non-empty
    strs and whose completion times are absent or strs: every command
    returns after one call of [print] (for [list], of the whole table,
    which has several lines); the exit code is 1 if the command is [edit] and no stored
    task has the id, in which case nothing was written, and 0 in every
    other case. *)
Theorem main_exit_code (dflt today : string) (args : cli_args) (w w1 : world)
  (d : Data) (n : Z) :
  load_data w = Ok d w1 -> typed d -> py_int (next_id d) = inr n ->
  exists code out w',
    main dflt today args w = Ok (code, [out]) w' /\
    (edit_misses args d -> code = 1 /\ same_store w w') /\
    (~ edit_misses args d -> code = 0).
Proof.
  intros Hl Ht Hn. apply load_data_ok in Hl as Hd. destruct Hd as ([Hc _] & Hf & Hw & _).
  destruct args as [ti du|a dn p|ids|ids|i ti du cd un|dn a|]; unfold main, bind.
  - rewrite (add_task_loaded dflt ti du w w1 d n Hl Hn). cbv zeta.
    do 3 eexists. split; [reflexivity|]. simpl. tauto.
  - set (kind := if a then "all" else if dn then "done" else "pending").
    destruct (list_tasks_returns kind w w1 d Hl Ht) as (l & Hlt & Hp). rewrite Hlt.
    assert (Forall due_printable l) as Hpr.
    { eapply Permutation_Forall; [symmetry; exact Hp|].
      eapply Forall_impl; [apply due_ok_printable|].
      unfold selected. destruct (kind =? "pending")%string;
        [|destruct (kind =? "done")%string]; destruct Ht; auto using Forall_filter_keep. }
    destruct (format_tasks_returns l Hpr) as (out & Ho). rewrite Ho. simpl.
    do 3 eexists. split; [reflexivity|]. simpl. tauto.
  - destruct (mark_done_loaded ids w w1 d Hl) as (ts' & wm & Hm & _). rewrite Hm.
    destruct (changed ids (tasks d) ts'); do 3 eexists; (split; [reflexivity|]);
      simpl; tauto.
  - rewrite (delete_tasks_loaded ids w w1 d Hl). cbv zeta.
    do 3 eexists. split; [reflexivity|]. simpl. tauto.
  - unfold edit_task, bind. rewrite Hl.
    destruct (first_match i (tasks d)) as [Hne|(l1 & t & l2 & Ht' & Hne & Hid)].
    + rewrite (edit_loop_missing i ti du cd un d (tasks d) Hne).
      do 3 eexists. split; [reflexivity|]. simpl.
      split; [intros _; split; [reflexivity|split; assumption]|]. intros Hm. now elim Hm.
    + assert (nonempty_created t) as Hct.
      { rewrite Ht' in Hc. apply Forall_app in Hc. destruct Hc as [_ Hc].
        now apply Forall_cons_iff in Hc. }
      rewrite Ht', (edit_loop_found i ti du cd un d l1 l2 t Hne Hid Hct).
      do 3 eexists. split; [reflexivity|]. simpl. rewrite Ht'.
      split; [|intros _; reflexivity]. intros Hm.
      now elim (not_all_differ i l1 l2 t Hid).
  - destruct dn.
    + rewrite (clear_done_loaded w w1 d Hl). cbv zeta.
      do 3 eexists. split; [reflexivity|]. simpl. tauto.
    + rewrite (clear_all_loaded w w1 d Hl).
      do 3 eexists. split; [reflexivity|]. simpl. tauto.
  - unfold stats, bind. rewrite Hl, (overdue_loop_ok today _ (proj1 Ht) 0).
    do 3 eexists. split; [reflexivity|]. simpl. tauto.
Qed.

(** X25. Two toggles restore a pending task: on a normalised file in
    which exactly one task has the id, and that task is pending with no
    completion time, [toggle] twice leaves the collection exactly as it
    was. *)
Theorem toggle_twice_pending (i : Z) (req : request) (w : world) (d : Data)
  (l1 l2 : list Task) (t : Task) :
  load_data w = Ok d w ->
  tasks d = l1 ++ t :: l2 -> id t = i ->
  Forall (fun x => id x <> i) l1 -> Forall (fun x => id x <> i) l2 ->
  completed t = false -> completed_at t = JNull ->
  (or_default (arg_act req) "toggle" =? "done")%string = false ->
  (or_default (arg_act req) "toggle" =? "undone")%string = false ->
  exists w2 w3,
    toggle i req w = Ok ([], back_to_index req) w2 /\
    toggle i req w2 = Ok ([], back_to_index req) w3 /\
    load_data w3 = Ok d w3.
Proof.
  intros Hl Ht Hid H1 H2 Hc Hca Ea Eb.
  destruct (toggle_once i req w d l1 l2 t Hl Ht Hid H1 H2 Ea Eb) as (w2 & T1 & L2).
  rewrite Hc in L2.
  set (t1 := set_status true (JStr (timestamp (ticks w))) t) in *.
  destruct (toggle_once i req w2 (with_tasks d (l1 ++ t1 :: l2)) l1 l2 t1 L2 eq_refl Hid
              H1 H2 Ea Eb) as (w3 & T2 & L3).
  exists w2, w3. split; [exact T1|]. split; [exact T2|].
  rewrite L3. f_equal. simpl.
  assert (set_status false JNull t1 = t) as E
      by (destruct t; simpl in *; subst; reflexivity).
  rewrite E. destruct d; simpl in *. now rewrite Ht.
Qed.

(** X27. [get_task_by_id] returns the first stored task with the id, and
    [None] when no stored task has it; it only reads the file. *)
Theorem get_task_by_id_spec (i : Z) (w w1 : world) (d : Data) :
  load_data w = Ok d w1 ->
  (Forall (fun t => id t <> i) (tasks d) -> get_task_by_id i w = Ok None w1) /\
  (forall l1 t l2,
      tasks d = l1 ++ t :: l2 -> Forall (fun x => id x <> i) l1 -> id t = i ->
      get_task_by_id i w = Ok (Some t) w1) /\
  same_store w w1.
Proof.
  intros Hl. pose proof (get_task_by_id_loaded i _ _ _ Hl) as Hg.
  apply load_data_ok in Hl. destruct Hl as (_ & Hf & Hw & _).
  split; [|split; [|now split]].
  - intros Hne. now rewrite Hg, (find_missing _ _ Hne).
  - intros l1 t l2 Ht Hne Hid. now rewrite Hg, Ht, (find_first i l1 l2 t Hne Hid).
Qed.

(** ** The validation of the front ends *)

Section FrontEndFacts.

Variable fromisoformat : string -> option string.
Variable strip : string -> string.

(** X16. The two front ends validate a due date alike: where
    [parse_date] of the command line returns, [parse_due] of the web form
    returns the same; where [parse_date] raises, the argument is not empty
    and [parse_due] returns [None]. *)
Theorem parse_due_parse_date (s : string) :
  match parse_date fromisoformat s with
  | inr r => parse_due fromisoformat s = r
  | inl _ => parse_due fromisoformat s = None /\ s <> ""
  end.
Proof.
  unfold parse_date, parse_due. destruct (s =? "")%string eqn:E; [reflexivity|].
  destruct (fromisoformat s); [reflexivity|].
  split; [reflexivity|]. now apply String.eqb_neq.
Qed.

(** X20. The route [add] rejects a blank title, and a due date that is
    given but not accepted by [parse_due], before it touches the store: it
    flashes one warning and redirects to the listing, and the file is
    neither written nor read. *)
Theorem add_route_rejects (dflt : string) (req : request) (w : world) :
  strip (or_default (form_title req) "") = "" \/
  (strip (or_default (form_due req) "") <> "" /\
   parse_due fromisoformat (strip (or_default (form_due req) "")) = None) ->
  exists msg, add fromisoformat strip dflt req w = Ok ([(msg, "warning")], back_to_index req) w.
Proof.
  intros H. unfold add.
  destruct (strip (or_default (form_title req) "") =? "")%string eqn:Et; [eexists; reflexivity|].
  destruct H as [H|[Hr Hp]]; [apply String.eqb_eq in H; congruence|].
  apply String.eqb_neq in Hr. rewrite Hr, Hp. simpl. eexists. reflexivity.
Qed.

(** X21. The route [add] on valid input: with a title that is not blank
    after [strip], and a due date that is blank or accepted, it stores one
    new task at the end, with the counter as id, the stripped title and the
    date in ISO form (absent when blank), flashes "success" and redirects
    to the listing. *)
Theorem add_route_accepts (dflt : string) (req : request) (w w1 : world) (d : Data) (n : Z) :
  dflt <> "" ->
  strip (or_default (form_title req) "") <> "" ->
  (strip (or_default (form_due req) "") = "" \/
   exists s, parse_due fromisoformat (strip (or_default (form_due req) "")) = Some s /\ s <> "") ->
  load_data w = Ok d w1 -> py_int (next_id d) = inr n ->
  exists t w2,
    add fromisoformat strip dflt req w = Ok ([(msg_added t, "success")], back_to_index req) w2 /\
    id t = n /\ title t = strip (or_default (form_title req) "") /\
    due t = opt_json (parse_due fromisoformat (strip (or_default (form_due req) ""))) /\
    completed t = false /\
    stored w2 = Some {| next_id := JInt (n + 1); tasks := tasks d ++ [t]; extra := extra d |}.
Proof.
  intros Hdf Ht Hdue Hl Hn. apply load_data_ok in Hl as Hd. destruct Hd as ([Hc He] & _).
  apply String.eqb_neq in Ht. unfold add. rewrite Ht.
  set (title_ := strip (or_default (form_title req) "")).
  set (due_raw := strip (or_default (form_due req) "")) in *.
  assert (negb (due_raw =? "")%string
          && match parse_due fromisoformat due_raw with Some d0 => (d0 =? "")%string | None => true end
          = false) as Hv.
  { destruct Hdue as [E|(s & E & Hs)].
    - rewrite E. reflexivity.
    - rewrite E. apply String.eqb_neq in Hs. rewrite Hs. apply andb_false_r. }
  rewrite Hv. unfold bind.
  rewrite (add_task_loaded dflt title_ (parse_due fromisoformat due_raw) _ _ _ _ Hl Hn). cbv zeta.
  do 2 eexists. split; [reflexivity|]. simpl. repeat split.
  apply stored_saved. split; [|exact He]. simpl.
  apply Forall_app. split; [exact Hc|]. now repeat constructor.
Qed.

(** X23. The route [edit] rejects without writing: for an id that no
    stored task has (whatever the method), and for a POST with a blank title
    or with a due date that is given, not accepted and not cleared, it
    flashes one warning and redirects, to the listing in the first case and
    back to the edit form in the others; the file is only read. *)
Theorem edit_route_rejects (i : Z) (req : request) (today : string) (w w1 : world)
  (d : Data) :
  load_data w = Ok d w1 ->
  Forall (fun t => id t <> i) (tasks d) \/
  (is_post req = true /\ strip (or_default (form_title req) "") = "") \/
  (is_post req = true /\ strip (or_default (form_due req) "") <> "" /\
   parse_due fromisoformat (strip (or_default (form_due req) "")) = None /\
   form_clear_due req <> Some "on") ->
  exists msg pg,
    edit fromisoformat strip i req today w = Ok ([(msg, "warning")], pg) w1 /\
    (pg = RedirectIndex None \/ pg = RedirectEdit i) /\
    same_store w w1.
Proof.
  intros Hl H. apply load_data_ok in Hl as Hd. destruct Hd as (_ & Hf & Hw & _).
  unfold edit, bind. rewrite (get_task_by_id_loaded i _ _ _ Hl).
  destruct (find (fun t => id t =? i) (tasks d)) as [task|] eqn:Hfind.
  - destruct H as [H|[[Hp Ht]|(Hp & Hr & Hd & Hcl)]].
    + rewrite (find_missing _ _ H) in Hfind. discriminate.
    + rewrite Hp, Ht. simpl. do 2 eexists. repeat split; eauto.
    + rewrite Hp.
      destruct (strip (or_default (form_title req) "") =? "")%string;
        [do 2 eexists; repeat split; eauto|].
      apply String.eqb_neq in Hr. rewrite Hr, Hd.
      assert (match form_clear_due req with Some v => (v =? "on")%string | None => false end
              = false) as Ec.
      { destruct (form_clear_due req) as [v|]; [|reflexivity].
        apply String.eqb_neq. intros ->. now elim Hcl. }
      rewrite Ec. simpl. do 2 eexists. repeat split; eauto.
  - do 2 eexists. repeat split; eauto.
Qed.

(** X26. The route [edit] on valid input: a POST for the first stored
    task with the id, with a title that is not blank after [strip] and a
    due date that is blank, accepted or cleared, replaces the task by the
    edited one (the stripped title, the accepted date unless cleared or
    blank, pending again if "undone" is checked), flashes "success" and
    redirects to the listing. *)
Theorem edit_route_accepts (i : Z) (req : request) (today : string) (w : world)
  (d : Data) (l1 l2 : list Task) (t : Task) :
  load_data w = Ok d w ->
  tasks d = l1 ++ t :: l2 -> id t = i -> Forall (fun x => id x <> i) l1 ->
  is_post req = true ->
  strip (or_default (form_title req) "") <> "" ->
  (strip (or_default (form_due req) "") = "" \/
   (exists s, parse_due fromisoformat (strip (or_default (form_due req) "")) = Some s /\ s <> "") \/
   form_clear_due req = Some "on") ->
  exists t' w2,
    t' = edited (Some (strip (or_default (form_title req) "")))
                (parse_due fromisoformat (strip (or_default (form_due req) "")))
                (match form_clear_due req with Some v => (v =? "on")%string | None => false end)
                (match form_undone req with Some v => (v =? "on")%string | None => false end)
                t /\
    edit fromisoformat strip i req today w = Ok ([(msg_updated t', "success")], back_to_index req) w2 /\
    load_data w2 = Ok (with_tasks d (l1 ++ t' :: l2)) w2.
Proof.
  intros Hl Ht Hid H1 Hp Hti Hdue. apply load_data_ok in Hl as Hd.
  destruct Hd as ([Hcr He] & _).
  assert (Forall nonempty_created (l1 ++ t :: l2)) as Hall by (rewrite <- Ht; exact Hcr).
  apply Forall_app in Hall. destruct Hall as [Hc1 Hc2].
  apply Forall_cons_iff in Hc2. destruct Hc2 as [Hct Hc2].
  apply String.eqb_neq in Hti.
  unfold edit. unfold bind at 1.
  rewrite (get_task_by_id_loaded i _ _ _ Hl), Ht, (find_first i l1 l2 t H1 Hid), Hp, Hti.
  set (title_ := strip (or_default (form_title req) "")).
  set (due_raw := strip (or_default (form_due req) "")) in *.
  set (cd := match form_clear_due req with Some v => (v =? "on")%string | None => false end).
  set (un := match form_undone req with Some v => (v =? "on")%string | None => false end).
  assert (negb (due_raw =? "")%string
          && match parse_due fromisoformat due_raw with Some d0 => (d0 =? "")%string | None => true end
          && negb cd = false) as Hv.
  { destruct Hdue as [E|[(s & E & Hs)|E]].
    - rewrite E. reflexivity.
    - rewrite E. apply String.eqb_neq in Hs. rewrite Hs. now rewrite andb_false_r.
    - unfold cd. rewrite E. simpl. apply andb_false_r. }
  rewrite Hv. unfold edit_task, bind. rewrite Hl, Ht.
  rewrite (edit_loop_found i (Some title_) (parse_due fromisoformat due_raw) cd un d l1 l2 t H1 Hid Hct).
  simpl. do 2 eexists. split; [reflexivity|]. split; [reflexivity|].
  apply load_data_saved. split; [|exact He]. simpl.
  apply Forall_app. split; [exact Hc1|]. constructor; [exact Hct|exact Hc2].
Qed.

End FrontEndFacts.

End Todo.

(** ** The statements on the sample store *)

Example load_sample :
  load_data sample_clock sample_int_of_str sample_float_repr sample_repr sample_world
  = Ok sample_data sample_world.
Proof. reflexivity. Qed.

Example load_broken :
  load_data sample_clock sample_int_of_str sample_float_repr sample_repr broken_world
  = Raise TypeError broken_world.
Proof. reflexivity. Qed.

Example list_pending_sample :
  list_tasks sample_clock sample_int_of_str sample_float_repr sample_repr "pending" sample_world
  = Ok [call_ann; milk; water] sample_world.
Proof. reflexivity. Qed.

Example list_all_sample :
  list_tasks sample_clock sample_int_of_str sample_float_repr sample_repr "all" sample_world
  = Ok [call_ann; milk; rent; water] sample_world.
Proof. reflexivity. Qed.

Example stats_sample :
  stats sample_clock sample_int_of_str sample_float_repr sample_repr "2025-09-01" sample_world
  = Ok {| total := 4; pending := 3; done := 1; overdue := 1 |} sample_world.
Proof. reflexivity. Qed.

Example reset_sample :
  map id (added (fst (run_history sample_clock sample_int_of_str sample_float_repr sample_repr
                        reset_history no_file)))
  = [1; 2; 3; 1].
Proof. reflexivity. Qed.

Example milk_scenario_sample :
  map ev_response
      (fst (run_history sample_clock sample_int_of_str sample_float_repr sample_repr
              milk_scenario no_file))
  = [RTask {| id := 1; title := "Buy milk"; completed := false;
              created_at := "2025-09-01T08:00:00Z"; due := JStr "2099-01-01";
              completed_at := JNull |};
     RStats {| total := 1; pending := 1; done := 0; overdue := 0 |};
     RTasks [{| id := 1; title := "Buy milk"; completed := true;
                created_at := "2025-09-01T08:00:00Z"; due := JStr "2099-01-01";
                completed_at := JStr "2025-09-01T09:30:00Z" |}];
     RStats {| total := 1; pending := 0; done := 1; overdue := 0 |};
     RFound (Some {| id := 1; title := "Buy milk"; completed := false;
                     created_at := "2025-09-01T08:00:00Z"; due := JStr "2099-01-01";
                     completed_at := JNull |});
     RStats {| total := 1; pending := 1; done := 0; overdue := 0 |}].
Proof. reflexivity. Qed.

Example delete_on_empty_sample :
  delete_tasks sample_clock sample_int_of_str sample_float_repr sample_repr [999] no_file
  = Ok 0 {| file := Doc (encode empty_data); ticks := 0; writes := 1 |}.
Proof. reflexivity. Qed.

Example int_of_float_sample :
  int_of_float 2.5%float = inr 2 /\ int_of_float (-2.5)%float = inr (-2) /\
  int_of_float infinity = inl OverflowError /\ int_of_float nan = inl ValueError.
Proof. repeat split; reflexivity. Qed.

Lemma ids_unique_monotone_witness :
  file no_file = Absent /\
  StronglySorted Z.lt
    (map id (added (fst (run_history sample_clock sample_int_of_str sample_float_repr
                           sample_repr sample_history no_file)))).
Proof.
  split; [reflexivity|].
  destruct (ids_unique_monotone sample_clock sample_int_of_str sample_float_repr sample_repr
              sample_history no_file eq_refl) as (_ & _ & _ & H).
  apply H. reflexivity.
Defined.

Lemma clear_tasks_spec_witness :
  load_data sample_clock sample_int_of_str sample_float_repr sample_repr sample_world
  = Ok sample_data sample_world /\
  exists w2,
    clear_tasks sample_clock sample_int_of_str sample_float_repr sample_repr "all" sample_world
    = Ok 4 w2 /\
    stored sample_clock sample_int_of_str sample_float_repr sample_repr w2
    = Some {| next_id := JInt 1; tasks := []; extra := [] |}.
Proof.
  split; [reflexivity|].
  destruct (clear_tasks_spec sample_clock sample_int_of_str sample_float_repr sample_repr
              sample_world sample_world sample_data eq_refl) as [_ (w2 & H1 & H2 & _)].
  exists w2. split; [exact H1|exact H2].
Defined.



Lemma mark_done_spec_witness :
  load_data sample_clock sample_int_of_str sample_float_repr sample_repr sample_world
  = Ok sample_data sample_world /\
  exists ts' upd w2,
    mark_done sample_clock sample_int_of_str sample_float_repr sample_repr [1; 2; 5; 77]
      sample_world = Ok upd w2 /\
    upd = [ {| id := 1; title := "Buy milk"; completed := true;
               created_at := "2025-08-30T08:00:00Z"; due := JStr "2025-09-03";
               completed_at := JStr "2025-09-01T09:30:00Z" |};
            {| id := 5; title := "Water plants"; completed := true;
               created_at := "2025-08-31T12:00:00Z"; due := JNull;
               completed_at := JStr "2025-09-02T10:00:00Z" |} ] /\
    stored sample_clock sample_int_of_str sample_float_repr sample_repr w2
    = Some (with_tasks sample_data ts') /\
    ts' = [ {| id := 1; title := "Buy milk"; completed := true;
               created_at := "2025-08-30T08:00:00Z"; due := JStr "2025-09-03";
               completed_at := JStr "2025-09-01T09:30:00Z" |};
            rent; call_ann;
            {| id := 5; title := "Water plants"; completed := true;
               created_at := "2025-08-31T12:00:00Z"; due := JNull;
               completed_at := JStr "2025-09-02T10:00:00Z" |} ] /\
    ticks w2 = 3%nat /\ writes w2 = 8%nat.
Proof.
  split; [reflexivity|].
  destruct (mark_done_spec sample_clock sample_int_of_str sample_float_repr sample_repr
              [1; 2; 5; 77] sample_world sample_world sample_data eq_refl)
    as (ts' & upd & w2 & H1 & H2 & _ & H4).
  exists ts', upd, w2.
  assert (mark_done sample_clock sample_int_of_str sample_float_repr sample_repr
            [1; 2; 5; 77] sample_world
          = Ok [completed_task "2025-09-01T09:30:00Z" milk;
                completed_task "2025-09-02T10:00:00Z" water]
               (saved (with_tasks sample_data
                         [completed_task "2025-09-01T09:30:00Z" milk; rent; call_ann;
                          completed_task "2025-09-02T10:00:00Z" water])
                      {| file := file sample_world; ticks := 3; writes := 7 |})) as E
      by reflexivity.
  rewrite E in H1. injection H1 as Hu Hw. subst upd w2.
  split; [exact E|]. split; [reflexivity|]. split; [exact H2|].
  split; [|split; [reflexivity|exact H4]].
  vm_compute in H2. injection H2 as H2. rewrite <- H2. reflexivity.
Defined.

Lemma edit_task_found_witness :
  exists w2,
    edit_task sample_clock sample_int_of_str sample_float_repr sample_repr
      4 (Some "Call Ann back") (Some "2025-09-09") true false sample_world
    = Ok (Some {| id := 4; title := "Call Ann back"; completed := false;
                  created_at := "2025-08-31T12:00:00Z"; due := JNull;
                  completed_at := JNull |}) w2 /\
    writes w2 = 8%nat.
Proof.
  assert (Forall (fun x => id x <> 4) [milk; rent]) as Hne
      by (repeat constructor; discriminate).
  destruct (edit_task_found sample_clock sample_int_of_str sample_float_repr sample_repr
              4 (Some "Call Ann back") (Some "2025-09-09") true false
              sample_world sample_world sample_data [milk; rent] [water] call_ann
              eq_refl eq_refl Hne eq_refl) as (w2 & H1 & _ & H2).
  exists w2. split; [exact H1|exact H2].
Defined.

Lemma edit_task_missing_witness :
  edit_task sample_clock sample_int_of_str sample_float_repr sample_repr
    3 (Some "Nothing") None false true sample_world
  = Ok None sample_world.
Proof.
  assert (Forall (fun x => id x <> 3) (tasks sample_data)) as Hne
      by (repeat constructor; discriminate).
  apply (edit_task_missing sample_clock sample_int_of_str sample_float_repr sample_repr
           3 (Some "Nothing") None false true sample_world sample_world sample_data
           eq_refl Hne).
Defined.

Lemma completed_at_iff_completed_witness :
  file no_file = Absent /\
  exists ts,
    stored_tasks sample_clock sample_int_of_str sample_float_repr sample_repr
      (snd (run_history sample_clock sample_int_of_str sample_float_repr sample_repr
              sample_history no_file)) = Some ts /\
    Forall stamp_ok ts.
Proof.
  split; [reflexivity|].
  apply (completed_at_iff_completed sample_clock sample_int_of_str sample_float_repr
           sample_repr sample_history no_file eq_refl).
Defined.

Lemma sample_due_ok : Forall due_ok (tasks sample_data).
Proof.
  unfold sample_data; simpl.
  constructor; [right; exists "2025-09-03"; split; [reflexivity|discriminate]|].
  constructor; [now left|].
  constructor; [right; exists "2025-08-31"; split; [reflexivity|discriminate]|].
  constructor; [now left|constructor].
Defined.


Lemma stats_spec_witness :
  stats sample_clock sample_int_of_str sample_float_repr sample_repr "2025-09-01" sample_world
  = Ok {| total := 4; pending := 3; done := 1; overdue := 1 |} sample_world.
Proof.
  apply (stats_spec sample_clock sample_int_of_str sample_float_repr sample_repr
           "2025-09-01" sample_world sample_world sample_data eq_refl sample_due_ok).
Defined.

Lemma created_at_fixed_at_import_witness :
  Forall (fun t => created_at t = "2025-09-01T08:00:00Z")
    (added (fst (run_process sample_clock sample_int_of_str sample_float_repr sample_repr
                   [Add "Buy milk" None; MarkDone [1]; Add "Pay rent" None] no_file))).
Proof.
  apply (created_at_fixed_at_import sample_clock sample_int_of_str sample_float_repr
           sample_repr [Add "Buy milk" None; MarkDone [1]; Add "Pay rent" None] no_file).
Defined.

(** ** The further statements on the sample store *)

Example format_sample :
  format_tasks [rent]
  = inr ("ID  Title     Due  Status  Created            " ++ newline ++
         "--  --------  ---  ------  -------------------" ++ newline ++
         "2   Pay rent  -    done    2025-08-30 08:00:00")%string.
Proof. reflexivity. Qed.

Example main_edit_missing_sample :
  main sample_clock sample_int_of_str sample_float_repr sample_repr
    "2025-09-01T08:00:00Z" "2025-09-01" (CmdEdit 3 None None false false) sample_world
  = Ok (1, ["Task #3 not found"]) sample_world.
Proof. reflexivity. Qed.

Example main_stats_sample :
  main sample_clock sample_int_of_str sample_float_repr sample_repr
    "2025-09-01T08:00:00Z" "2025-09-01" CmdStats sample_world
  = Ok (0, ["Total: 4 | Pending: 3 | Done: 1 | Overdue: 1"]) sample_world.
Proof. reflexivity. Qed.

Lemma save_load_round_trip_witness :
  exists w2,
    save_data sample_data sample_world = Ok tt w2 /\
    load_data sample_clock sample_int_of_str sample_float_repr sample_repr w2
    = Ok sample_data w2.
Proof.
  apply (save_load_round_trip sample_clock sample_int_of_str sample_float_repr sample_repr
           sample_world sample_world sample_data eq_refl).
Defined.

Lemma delete_tasks_spec_witness :
  exists w2,
    delete_tasks sample_clock sample_int_of_str sample_float_repr sample_repr [2; 4; 9]
      sample_world = Ok 2 w2 /\
    writes w2 = 8%nat.
Proof.
  destruct (delete_tasks_spec sample_clock sample_int_of_str sample_float_repr sample_repr
              [2; 4; 9] sample_world sample_world sample_data eq_refl) as (w2 & H1 & _ & H2).
  exists w2. split; [exact H1|exact H2].
Defined.

Lemma delete_tasks_twice_witness :
  exists k w2 w3,
    delete_tasks sample_clock sample_int_of_str sample_float_repr sample_repr [2; 4; 9]
      sample_world = Ok k w2 /\
    delete_tasks sample_clock sample_int_of_str sample_float_repr sample_repr [2; 4; 9] w2
    = Ok 0 w3.
Proof.
  destruct (delete_tasks_twice sample_clock sample_int_of_str sample_float_repr sample_repr
              [2; 4; 9] sample_world sample_world sample_data eq_refl)
    as (k & w2 & w3 & H1 & H2 & _).
  exists k, w2, w3. split; [exact H1|exact H2].
Defined.

Lemma mark_done_twice_witness :
  exists l w2 w3,
    mark_done sample_clock sample_int_of_str sample_float_repr sample_repr [1; 2] sample_world
    = Ok l w2 /\
    mark_done sample_clock sample_int_of_str sample_float_repr sample_repr [1; 2] w2
    = Ok [] w3 /\
    ticks w3 = ticks w2.
Proof.
  destruct (mark_done_twice sample_clock sample_int_of_str sample_float_repr sample_repr
              [1; 2] sample_world sample_world sample_data eq_refl)
    as (l & w2 & w3 & H1 & H2 & _ & H3 & _).
  exists l, w2, w3. split; [exact H1|]. split; [exact H2|exact H3].
Defined.


Lemma stats_counts_consistent_witness :
  3 + 1 = 4 /\ 0 <= 1 /\ 0 <= 3 /\ 0 <= 1 <= 3.
Proof.
  apply (stats_counts_consistent sample_clock sample_int_of_str sample_float_repr sample_repr
           "2025-09-01" sample_world sample_world
           {| total := 4; pending := 3; done := 1; overdue := 1 |}).
  reflexivity.
Defined.

Lemma stats_type_error_witness :
  stats sample_clock sample_int_of_str sample_float_repr sample_repr "2025-09-01" odd_world
  = Raise TypeError odd_world.
Proof.
  assert (Exists bad_due (tasks odd_data)) as Hex.
  { right. left. unfold bad_due; simpl. repeat split; discriminate. }
  apply (stats_type_error sample_clock sample_int_of_str sample_float_repr sample_repr
           "2025-09-01" odd_world odd_world odd_data eq_refl Hex).
Defined.

Lemma sample_stamp_typed : Forall stamp_typed (tasks sample_data).
Proof.
  unfold sample_data; simpl.
  constructor; [now left|].
  constructor; [right; eexists; reflexivity|].
  constructor; [now left|].
  constructor; [now left|constructor].
Defined.

Lemma list_tasks_partition_witness :
  list_tasks sample_clock sample_int_of_str sample_float_repr sample_repr "pending"
    sample_world = Ok [call_ann; milk; water] sample_world /\
  list_tasks sample_clock sample_int_of_str sample_float_repr sample_repr "done"
    sample_world = Ok [rent] sample_world /\
  list_tasks sample_clock sample_int_of_str sample_float_repr sample_repr "all"
    sample_world = Ok [call_ann; milk; rent; water] sample_world /\
  Permutation ([call_ann; milk; water] ++ [rent]) [call_ann; milk; rent; water].
Proof.
  destruct (list_tasks_partition sample_clock sample_int_of_str sample_float_repr sample_repr
              sample_world sample_world sample_data eq_refl
              (conj sample_due_ok sample_stamp_typed))
    as (lp & ld & la & Hp & Hd & Ha & P & _).
  assert (list_tasks sample_clock sample_int_of_str sample_float_repr sample_repr "pending"
            sample_world = Ok [call_ann; milk; water] sample_world) as Ep by reflexivity.
  assert (list_tasks sample_clock sample_int_of_str sample_float_repr sample_repr "done"
            sample_world = Ok [rent] sample_world) as Ed by reflexivity.
  assert (list_tasks sample_clock sample_int_of_str sample_float_repr sample_repr "all"
            sample_world = Ok [call_ann; milk; rent; water] sample_world) as Ea
      by reflexivity.
  rewrite Ep in Hp. rewrite Ed in Hd. rewrite Ea in Ha.
  injection Hp as <-. injection Hd as <-. injection Ha as <-.
  split; [exact Ep|]. split; [exact Ed|]. split; [exact Ea|exact P].
Defined.


Lemma done_stamp_typed : Forall stamp_typed (tasks done_data).
Proof.
  unfold done_data; simpl.
  constructor; [now left|].
  constructor; [right; eexists; reflexivity|].
  constructor; [now left|].
  constructor; [right; eexists; reflexivity|constructor].
Defined.

Lemma list_tasks_done_order_witness :
  list_tasks sample_clock sample_int_of_str sample_float_repr sample_repr "done" done_world
  = Ok [ {| id := 5; title := "Water plants"; completed := true;
            created_at := "2025-08-31T12:00:00Z"; due := JNull;
            completed_at := JStr "2025-09-02T10:00:00Z" |};
         {| id := 2; title := "Pay rent"; completed := true;
            created_at := "2025-08-30T08:00:00Z"; due := JNull;
            completed_at := JStr "2025-08-31T18:00:00Z" |} ] done_world /\
  in_done_order water_done rent.
Proof.
  destruct (list_tasks_done_order sample_clock sample_int_of_str sample_float_repr sample_repr
              done_world done_world done_data eq_refl done_stamp_typed)
    as (l & H1 & _ & _ & H2).
  assert (list_tasks sample_clock sample_int_of_str sample_float_repr sample_repr "done"
            done_world = Ok [water_done; rent] done_world) as E by reflexivity.
  rewrite E in H1. injection H1 as <-. split; [exact E|].
  apply StronglySorted_inv in H2. destruct H2 as [_ H2].
  apply Forall_inv in H2. exact H2.
Defined.

Lemma twin_typed : typed twin_data.
Proof.
  split; unfold twin_data; simpl.
  - constructor; [right; eexists; split; [reflexivity|discriminate]|].
    constructor; [now left|].
    constructor; [right; eexists; split; [reflexivity|discriminate]|].
    constructor; [now left|]. constructor; [now left|constructor].
  - constructor; [now left|].
    constructor; [right; eexists; reflexivity|].
    constructor; [now left|].
    constructor; [now left|]. constructor; [now left|constructor].
Defined.

Lemma list_tasks_stable_witness :
  list_tasks sample_clock sample_int_of_str sample_float_repr sample_repr "pending"
    twin_world = Ok [call_ann; milk; water; plants_again] twin_world /\
  filter (due_created_is None "2025-08-31T12:00:00Z") [call_ann; milk; water; plants_again]
  = [water; plants_again].
Proof.
  destruct (list_tasks_stable sample_clock sample_int_of_str sample_float_repr sample_repr
              twin_world twin_world twin_data eq_refl twin_typed)
    as (lp & la & ld & Hp & _ & _ & Sp & _).
  assert (list_tasks sample_clock sample_int_of_str sample_float_repr sample_repr "pending"
            twin_world = Ok [call_ann; milk; water; plants_again] twin_world) as Ep
      by reflexivity.
  rewrite Ep in Hp. injection Hp as <-. split; [exact Ep|].
  rewrite (Sp None "2025-08-31T12:00:00Z"). reflexivity.
Defined.

Lemma add_then_delete_witness :
  exists t w2 w3,
    add_task sample_clock sample_int_of_str sample_float_repr sample_repr
      "2025-09-01T08:00:00Z" "Walk the dog" None sample_world = Ok t w2 /\
    id t = 6 /\
    delete_tasks sample_clock sample_int_of_str sample_float_repr sample_repr [id t] w2
    = Ok 1 w3 /\
    stored sample_clock sample_int_of_str sample_float_repr sample_repr w3
    = Some {| next_id := JInt 7; tasks := tasks sample_data; extra := [] |}.
Proof.
  assert ("2025-09-01T08:00:00Z" <> "") as Hd by discriminate.
  assert (Forall (fun x => id x <> 6) (tasks sample_data)) as Hne
      by (repeat constructor; discriminate).
  apply (add_then_delete sample_clock sample_int_of_str sample_float_repr sample_repr
           "2025-09-01T08:00:00Z" "Walk the dog" None sample_world sample_world
           sample_data 6 Hd eq_refl eq_refl Hne).
Defined.

Lemma sample_history_due_ok : Forall (Forall call_due_ok) sample_history.
Proof.
  unfold sample_history.
  repeat (constructor; [repeat (constructor; [simpl; try exact I; discriminate|]);
                        constructor|]).
  constructor.
Defined.

Lemma typed_histories_do_not_raise_witness :
  exists d,
    stored sample_clock sample_int_of_str sample_float_repr sample_repr
      (snd (run_history sample_clock sample_int_of_str sample_float_repr sample_repr
              sample_history no_file)) = Some d /\
    typed d.
Proof.
  apply (typed_histories_do_not_raise sample_clock sample_int_of_str sample_float_repr
           sample_repr sample_history no_file eq_refl sample_history_due_ok).
Defined.

Lemma done_typed : typed done_data.
Proof.
  split; [|exact done_stamp_typed]. unfold done_data; simpl.
  constructor; [right; eexists; split; [reflexivity|discriminate]|].
  constructor; [now left|].
  constructor; [right; eexists; split; [reflexivity|discriminate]|].
  constructor; [now left|constructor].
Defined.

Lemma main_exit_code_witness :
  (exists out w',
     main sample_clock sample_int_of_str sample_float_repr sample_repr
       "2025-09-01T08:00:00Z" "2025-09-01" (CmdEdit 3 None None false false) sample_world
     = Ok (1, [out]) w' /\ same_store sample_world w') /\
  (exists out w',
     main sample_clock sample_int_of_str sample_float_repr sample_repr
       "2025-09-01T08:00:00Z" "2025-09-01" (CmdList false true false) done_world
     = Ok (0, [out]) w').
Proof.
  split.
  - assert (Forall (fun t => id t <> 3) (tasks sample_data)) as Hne
        by (repeat constructor; discriminate).
    destruct (main_exit_code sample_clock sample_int_of_str sample_float_repr sample_repr
                "2025-09-01T08:00:00Z" "2025-09-01" (CmdEdit 3 None None false false)
                sample_world sample_world sample_data 6 eq_refl
                (conj sample_due_ok sample_stamp_typed) eq_refl)
      as (code & out & w' & Hm & H1 & _).
    destruct (H1 Hne) as [-> Hs]. exists out, w'. split; [exact Hm|exact Hs].
  - destruct (main_exit_code sample_clock sample_int_of_str sample_float_repr sample_repr
                "2025-09-01T08:00:00Z" "2025-09-01" (CmdList false true false)
                done_world done_world done_data 6 eq_refl done_typed eq_refl)
      as (code & out & w' & Hm & _ & H0).
    rewrite (H0 (fun H => H)) in Hm. exists out, w'. exact Hm.
Defined.

Example main_list_done :
  main sample_clock sample_int_of_str sample_float_repr sample_repr
    "2025-09-01T08:00:00Z" "2025-09-01" (CmdList false true false) done_world
  = Ok (0, [join newline
              ["ID  Title         Due  Status  Created            ";
               "--  ------------  ---  ------  -------------------";
               "5   Water plants  -    done    2025-08-31 12:00:00";
               "2   Pay rent      -    done    2025-08-30 08:00:00"]]) done_world.
Proof. reflexivity. Qed.

Lemma delete_route_reports_witness :
  exists msg cat w2,
    delete sample_clock sample_int_of_str sample_float_repr sample_repr 3 sample_request
      sample_world = Ok ([(msg, cat)], back_to_index sample_request) w2 /\
    cat = "warning".
Proof.
  assert (Forall (fun t => id t <> 3) (tasks sample_data)) as Hne
      by (repeat constructor; discriminate).
  destruct (delete_route_reports sample_clock sample_int_of_str sample_float_repr sample_repr
              3 sample_request sample_world sample_world sample_data eq_refl)
    as (msg & cat & w2 & H1 & _ & H2 & _).
  exists msg, cat, w2. split; [exact H1|exact (H2 Hne)].
Defined.

Lemma add_route_rejects_witness :
  exists msg,
    add sample_clock sample_int_of_str sample_float_repr sample_repr sample_fromisoformat
      sample_strip "2025-09-01T08:00:00Z" blank_request sample_world
    = Ok ([(msg, "warning")], back_to_index blank_request) sample_world.
Proof.
  apply (add_route_rejects sample_clock sample_int_of_str sample_float_repr sample_repr
           sample_fromisoformat sample_strip "2025-09-01T08:00:00Z" blank_request
           sample_world).
  left. reflexivity.
Defined.

Lemma add_route_accepts_witness :
  exists t w2,
    add sample_clock sample_int_of_str sample_float_repr sample_repr sample_fromisoformat
      sample_strip "2025-09-01T08:00:00Z" sample_request sample_world
    = Ok ([(msg_added t, "success")], back_to_index sample_request) w2 /\
    id t = 6 /\ title t = "Walk the dog" /\ due t = JStr "2025-09-10".
Proof.
  assert ("2025-09-01T08:00:00Z" <> "") as Hd by discriminate.
  assert (sample_strip (or_default (form_title sample_request) "") <> "") as Ht
      by discriminate.
  assert (sample_strip (or_default (form_due sample_request) "") = "" \/
          exists s, parse_due sample_fromisoformat
                      (sample_strip (or_default (form_due sample_request) "")) = Some s /\
                    s <> "") as Hdue
      by (right; exists "2025-09-10"; split; [reflexivity|discriminate]).
  destruct (add_route_accepts sample_clock sample_int_of_str sample_float_repr sample_repr
              sample_fromisoformat sample_strip "2025-09-01T08:00:00Z" sample_request
              sample_world sample_world sample_data 6 Hd Ht Hdue eq_refl eq_refl)
    as (t & w2 & H1 & H2 & H3 & H4 & _).
  exists t, w2. repeat split; assumption.
Defined.

Lemma toggle_flips_witness :
  (exists w2,
     toggle sample_clock sample_int_of_str sample_float_repr sample_repr 4 sample_request
       sample_world = Ok ([], back_to_index sample_request) w2 /\
     stored_tasks sample_clock sample_int_of_str sample_float_repr sample_repr w2
     = Some [milk; rent;
             {| id := 4; title := "Call Ann"; completed := true;
                created_at := "2025-08-31T12:00:00Z"; due := JStr "2025-08-31";
                completed_at := JStr "2025-09-01T09:30:00Z" |};
             water]) /\
  (exists w2,
     toggle sample_clock sample_int_of_str sample_float_repr sample_repr 2 sample_request
       sample_world = Ok ([], back_to_index sample_request) w2 /\
     stored_tasks sample_clock sample_int_of_str sample_float_repr sample_repr w2
     = Some [milk;
             {| id := 2; title := "Pay rent"; completed := false;
                created_at := "2025-08-30T08:00:00Z"; due := JNull;
                completed_at := JNull |};
             call_ann; water]).
Proof.
  split.
  - assert (Forall (fun x => id x <> 4) [milk; rent]) as H1
        by (repeat constructor; discriminate).
    assert (Forall (fun x => id x <> 4) [water]) as H2
        by (repeat constructor; discriminate).
    destruct (toggle_flips sample_clock sample_int_of_str sample_float_repr sample_repr
                4 sample_request sample_world sample_data [milk; rent] [water] call_ann
                eq_refl eq_refl eq_refl H1 H2 eq_refl eq_refl) as (w2 & Ha & Hb).
    exists w2. split; [exact Ha|]. unfold stored_tasks, stored. rewrite Hb. reflexivity.
  - assert (Forall (fun x => id x <> 2) [milk]) as H1
        by (repeat constructor; discriminate).
    assert (Forall (fun x => id x <> 2) [call_ann; water]) as H2
        by (repeat constructor; discriminate).
    destruct (toggle_flips sample_clock sample_int_of_str sample_float_repr sample_repr
                2 sample_request sample_world sample_data [milk] [call_ann; water] rent
                eq_refl eq_refl eq_refl H1 H2 eq_refl eq_refl) as (w2 & Ha & Hb).
    exists w2. split; [exact Ha|]. unfold stored_tasks, stored. rewrite Hb. reflexivity.
Defined.

Lemma toggle_twice_pending_witness :
  exists w2 w3,
    toggle sample_clock sample_int_of_str sample_float_repr sample_repr 4 sample_request
      sample_world = Ok ([], back_to_index sample_request) w2 /\
    toggle sample_clock sample_int_of_str sample_float_repr sample_repr 4 sample_request w2
    = Ok ([], back_to_index sample_request) w3 /\
    load_data sample_clock sample_int_of_str sample_float_repr sample_repr w3
    = Ok sample_data w3.
Proof.
  assert (Forall (fun x => id x <> 4) [milk; rent]) as H1 by (repeat constructor; discriminate).
  assert (Forall (fun x => id x <> 4) [water]) as H2 by (repeat constructor; discriminate).
  apply (toggle_twice_pending sample_clock sample_int_of_str sample_float_repr sample_repr
           4 sample_request sample_world sample_data [milk; rent] [water] call_ann
           eq_refl eq_refl eq_refl H1 H2 eq_refl eq_refl eq_refl eq_refl).
Defined.

Lemma edit_route_rejects_witness :
  exists msg pg,
    edit sample_clock sample_int_of_str sample_float_repr sample_repr sample_fromisoformat
      sample_strip 4 blank_request "2025-09-01" sample_world
    = Ok ([(msg, "warning")], pg) sample_world.
Proof.
  destruct (edit_route_rejects sample_clock sample_int_of_str sample_float_repr sample_repr
              sample_fromisoformat sample_strip 4 blank_request "2025-09-01"
              sample_world sample_world sample_data eq_refl
              (or_intror (or_introl (conj eq_refl eq_refl))))
    as (msg & pg & H & _).
  exists msg, pg. exact H.
Defined.

Lemma edit_route_accepts_witness :
  exists t' w2,
    edit sample_clock sample_int_of_str sample_float_repr sample_repr sample_fromisoformat
      sample_strip 4 sample_request "2025-09-01" sample_world
    = Ok ([(msg_updated t', "success")], back_to_index sample_request) w2 /\
    title t' = "Walk the dog" /\ due t' = JStr "2025-09-10".
Proof.
  assert (Forall (fun x => id x <> 4) [milk; rent]) as H1 by (repeat constructor; discriminate).
  assert (sample_strip (or_default (form_title sample_request) "") <> "") as Ht
      by discriminate.
  assert (sample_strip (or_default (form_due sample_request) "") = "" \/
          (exists s, parse_due sample_fromisoformat
                       (sample_strip (or_default (form_due sample_request) "")) = Some s /\
                     s <> "") \/
          form_clear_due sample_request = Some "on") as Hdue
      by (right; left; exists "2025-09-10"; split; [reflexivity|discriminate]).
  destruct (edit_route_accepts sample_clock sample_int_of_str sample_float_repr sample_repr
              sample_fromisoformat sample_strip 4 sample_request "2025-09-01" sample_world
              sample_data [milk; rent] [water] call_ann
              eq_refl eq_refl eq_refl H1 eq_refl Ht Hdue) as (t' & w2 & E & H & _).
  exists t', w2. split; [exact H|]. rewrite E. split; reflexivity.
Defined.

Lemma sample_due_printable : Forall due_printable (tasks sample_data).
Proof.
  unfold sample_data; simpl.
  constructor; [right; eexists; reflexivity|].
  constructor; [now left|].
  constructor; [right; eexists; reflexivity|].
  constructor; [now left|constructor].
Defined.

Lemma format_tasks_table_witness :
  exists lines n,
    format_tasks (tasks sample_data) = inr (join newline lines) /\
    List.length lines = 6%nat /\
    Forall (fun l => cp_len l = n) lines.
Proof.
  apply (format_tasks_table (tasks sample_data) sample_due_printable).
Defined.

Example stable_sample :
  sort_by sort_key_of key_lt [water; milk; plants_again] = inr [milk; water; plants_again].
Proof. reflexivity. Qed.

Lemma get_task_by_id_spec_witness :
  get_task_by_id sample_clock sample_int_of_str sample_float_repr sample_repr 4 sample_world
  = Ok (Some call_ann) sample_world.
Proof.
  assert (Forall (fun x => id x <> 4) [milk; rent]) as H1 by (repeat constructor; discriminate).
  destruct (get_task_by_id_spec sample_clock sample_int_of_str sample_float_repr sample_repr
              4 sample_world sample_world sample_data eq_refl) as (_ & H & _).
  apply (H [milk; rent] call_ann [water] eq_refl H1 eq_refl).
Defined.

Lemma index_view_witness :
  index sample_clock sample_int_of_str sample_float_repr sample_repr sample_request
    "2025-09-01" "2025-09-01" "2025-09-01" sample_world
  = Ok ([], IndexPage "all" [call_ann; milk; rent; water]
              {| total := 4; pending := 3; done := 1; overdue := 1 |} "2025-09-01")
       sample_world.
Proof.
  destruct (index_view sample_clock sample_int_of_str sample_float_repr sample_repr
              sample_request "2025-09-01" "2025-09-01" "2025-09-01" sample_world)
    as [_ H].
  destruct (H sample_data eq_refl (conj sample_due_ok sample_stamp_typed))
    as (kind & ts & s & Hi & _ & Hl & Hs & Hk & _).
  rewrite (Hk eq_refl) in Hi, Hl. simpl in Hi, Hl.
  assert (list_tasks sample_clock sample_int_of_str sample_float_repr sample_repr "all"
            sample_world = Ok [call_ann; milk; rent; water] sample_world) as El
      by reflexivity.
  assert (stats sample_clock sample_int_of_str sample_float_repr sample_repr "2025-09-01"
            sample_world
          = Ok {| total := 4; pending := 3; done := 1; overdue := 1 |} sample_world) as Es
      by reflexivity.
  rewrite El in Hl. injection Hl as <-. rewrite Es in Hs. injection Hs as <-.
  exact Hi.
Defined.
